(** * Chatbot with analytics: a shallow embedding of [chatbot.py]

    The development follows the source file top to bottom:

    - [PyValue]   the Python values the program handles (what [json] and the
                  HTTP library produce and consume) and their truthiness;
    - [Effects]   exceptions, the outside world (remote API, notifications,
                  sleeps, the analytics file) and a state-and-exception monad;
    - [PyOps]     [.get], subscripting and [.strip()], which can raise;
    - [Client]    [exponential_backoff_fetch], [get_gemini_response],
                  [classify_topic];
    - [Json]      [json.dumps] and [json.loads] for the analytics file;
    - [Analytics] [log_analytics], [get_analytics_dashboard_data];
    - [Reference] the notions the properties are stated with;
    - the properties of the specification, one theorem per claim.

    Modelling conventions.  A Python [str] is a [string] whose characters are
    the code points below 256; a file is the text it decodes to.  A Python
    [int] is a [Z]; a Python [float] is a primitive binary64 float.  A [dict]
    is an association list in insertion order.  Every effectful function is
    a state transformer that either returns a value or raises an exception.
    The remote end is an oracle: for each POST it says whether the call
    raises, and otherwise which status and body come back.  Out of the
    model: exceptions that do not derive from [Exception] (keyboard
    interrupt, interpreter exit), resource limits of the interpreter
    (recursion depth, digits of an integer literal), and failures of the
    file system in the middle of a read or a write. *)

From Stdlib Require Import ZArith List String Ascii Bool Lia.
From Stdlib Require Import DecimalString Sorted Permutation.
From Corelib Require Import PrimFloat SpecFloat FloatOps.
Import ListNotations.

Set Warnings "-register-all".

Local Open Scope string_scope.
Local Open Scope Z_scope.

(* ================================================================= *)
(** ** Python values *)

Module PyValue.

Inductive value : Type :=
| VNone
| VBool (b : bool)
| VInt (z : Z)
| VFloat (f : float)
| VStr (s : string)
| VList (l : list value)
| VDict (d : list (string * value)).

(** [type(v).__name__], as it appears in the interpreter's messages. *)
Definition type_name (v : value) : string :=
  match v with
  | VNone => "NoneType"
  | VBool _ => "bool"
  | VInt _ => "int"
  | VFloat _ => "float"
  | VStr _ => "str"
  | VList _ => "list"
  | VDict _ => "dict"
  end.

(** [bool(v)]. *)
Definition truthy (v : value) : bool :=
  match v with
  | VNone => false
  | VBool b => b
  | VInt z => negb (Z.eqb z 0)
  | VFloat f => negb (PrimFloat.eqb f PrimFloat.zero)
  | VStr s => negb (String.eqb s "")
  | VList l => match l with [] => false | _ :: _ => true end
  | VDict d => match d with [] => false | _ :: _ => true end
  end.

(** Lookup in a dict: the entry of the first binding of [k]. *)
Fixpoint dict_lookup (k : string) (d : list (string * value)) : option value :=
  match d with
  | [] => None
  | (k', v) :: d' => if String.eqb k k' then Some v else dict_lookup k d'
  end.

(** [d[k] = v]: an existing key keeps its position, a new one goes last. *)
Fixpoint dict_set (k : string) (v : value) (d : list (string * value))
  : list (string * value) :=
  match d with
  | [] => [(k, v)]
  | (k', v') :: d' =>
      if String.eqb k k' then (k', v) :: d' else (k', v') :: dict_set k v d'
  end.

Definition Z_to_string (z : Z) : string := NilZero.string_of_int (Z.to_int z).

(** [repr] of a [str] used as a key.  Exact for strings without quotes,
    backslashes or unprintable characters, which covers every key this
    program looks up. *)
Definition repr_str (s : string) : string := "'" ++ s ++ "'".

(** [str.isspace] on one character, for the code points below 256. *)
Definition is_space (c : ascii) : bool :=
  let n := N_of_ascii c in
  ((9 <=? n) && (n <=? 13) || (28 <=? n) && (n <=? 32)
   || (n =? 133) || (n =? 160))%N.

Fixpoint lstrip (s : string) : string :=
  match s with
  | String c s' => if is_space c then lstrip s' else s
  | EmptyString => EmptyString
  end.

(** Strips trailing blanks: a character is dropped when it is blank and
    everything after it has been dropped too. *)
Fixpoint rstrip (s : string) : string :=
  match s with
  | String c s' =>
      match rstrip s' with
      | EmptyString => if is_space c then EmptyString else String c EmptyString
      | r => String c r
      end
  | EmptyString => EmptyString
  end.

(** [s.strip()]. *)
Definition strip (s : string) : string := rstrip (lstrip s).

End PyValue.
Export PyValue.

(* ================================================================= *)
(** ** Exceptions, the world, and the monad of effects *)

Module Effects.

(** The exception classes that occur in this program.  All of them derive
    from [Exception]. *)
Inductive exn_class : Type :=
(* requests.exceptions, all subclasses of RequestException *)
| ConnectionError
| Timeout
| HTTPError
| RequestsJSONDecodeError
(* builtins *)
| KeyError
| IndexError
| TypeError
| AttributeError
| ValueError
(* json *)
| JSONDecodeError
(* OSError and subclasses *)
| FileNotFoundError
| PermissionError
| IsADirectoryError
| OSError.

(** An exception object: its class and [str(e)]. *)
Record exn : Type := Exn { exn_class_of : exn_class; exn_str : string }.

(** [isinstance(e, requests.exceptions.RequestException)]. *)
Definition is_RequestException (c : exn_class) : bool :=
  match c with
  | ConnectionError | Timeout | HTTPError | RequestsJSONDecodeError => true
  | _ => false
  end.

(** [isinstance(e, IOError)]; [IOError] is [OSError], and
    [RequestException] derives from it. *)
Definition is_IOError (c : exn_class) : bool :=
  match c with
  | FileNotFoundError | PermissionError | IsADirectoryError | OSError => true
  | _ => is_RequestException c
  end.

Definition is_FileNotFoundError (c : exn_class) : bool :=
  match c with FileNotFoundError => true | _ => false end.

Definition is_JSONDecodeError (c : exn_class) : bool :=
  match c with JSONDecodeError => true | _ => false end.

(** [isinstance(e, Exception)]. *)
Definition is_Exception (c : exn_class) : bool := true.

Inductive outcome (A : Type) : Type :=
| Ret (a : A)
| Raise (e : exn).
Arguments Ret {A} a.
Arguments Raise {A} e.

(** What the HTTP library hands back for one POST. *)
Record response : Type := Response {
  status_code : Z;
  reason : string;
  resp_url : string;
  (** what [response.json()] does: the decoded body, or the message of the
      decode error it raises *)
  resp_json : value + string
}.

Inductive post_outcome : Type :=
| PostRaises (e : exn)          (* requests.post raised *)
| PostReturns (r : response).

Inductive event : Type :=
| Post (url : string) (payload : value)   (* requests.post(url, json=payload) *)
| StError (msg : string)                  (* st.error(msg) *)
| Sleep (secs : Z).                       (* time.sleep(secs) *)

(** The analytics file.  [deny_read] and [deny_append], when set, are the
    [OSError] that opening the file in that mode raises (permissions, a
    directory in the way, ...), whatever the content. *)
Record filesystem : Type := Filesystem {
  file : option string;       (* [None]: the file does not exist *)
  deny_read : option exn;
  deny_append : option exn
}.

Record world : Type := World {
  api_key : string;
  (** the remote end: outcome of the [n]-th POST, given its URL and payload *)
  remote : nat -> string -> value -> post_outcome;
  posts : nat;                (* number of POSTs made so far *)
  trace : list event;         (* everything observable, oldest first *)
  disk : filesystem
}.

(** Computations over a state [S] that return a value or raise.  The
    program uses two states: the [world], and the local variables of a
    function whose [try] blocks update them. *)
Definition ST (S A : Type) : Type := S -> outcome A * S.
Definition M (A : Type) : Type := ST world A.

Definition ret {S A} (a : A) : ST S A := fun w => (Ret a, w).
Definition raise {S A} (e : exn) : ST S A := fun w => (Raise e, w).
Definition bind {S A B} (m : ST S A) (k : A -> ST S B) : ST S B :=
  fun w => match m w with
           | (Ret a, w') => k a w'
           | (Raise e, w') => (Raise e, w')
           end.
Definition lift {S A} (o : outcome A) : ST S A := fun w => (o, w).

(** Sequencing of expressions that touch no state. *)
Definition and_then {A B} (o : outcome A) (k : A -> outcome B) : outcome B :=
  match o with
  | Ret a => k a
  | Raise e => Raise e
  end.

(** [try: m  except C as e: h e], where [handles] decides membership in [C]. *)
Definition try_except {S A} (m : ST S A) (handles : exn_class -> bool)
           (h : exn -> ST S A) : ST S A :=
  fun w => match m w with
           | (Ret a, w') => (Ret a, w')
           | (Raise e, w') =>
               if handles (exn_class_of e) then h e w' else (Raise e, w')
           end.

Definition emit (ev : event) : M unit :=
  fun w => (Ret tt, World (api_key w) (remote w) (posts w)
                          (trace w ++ [ev])%list (disk w)).

Definition set_disk (d : filesystem) : M unit :=
  fun w => (Ret tt, World (api_key w) (remote w) (posts w) (trace w) d).

Definition get_world : M world := fun w => (Ret w, w).

End Effects.
Export Effects.

Declare Scope py_scope.
Delimit Scope py_scope with py.
Notation "x <- m ;; k" := (bind m (fun x => k))
  (at level 61, m at next level, right associativity) : py_scope.
Notation "m ;; k" := (bind m (fun _ => k))
  (at level 61, right associativity) : py_scope.
Notation "x <~ o ;; k" := (and_then o (fun x => k))
  (at level 61, o at next level, right associativity) : py_scope.
Local Open Scope py_scope.

(* ================================================================= *)
(** ** Operations on values that can raise *)

Module PyOps.

(** [v.get(k)]: [None] when the key is absent. *)
Definition py_get (v : value) (k : string) : outcome value :=
  match v with
  | VDict d => Ret (match dict_lookup k d with Some x => x | None => VNone end)
  | _ => Raise (Exn AttributeError
                  ("'" ++ type_name v ++ "' object has no attribute 'get'"))
  end.

(** [v.get(k, default)]. *)
Definition py_get_default (v : value) (k : string) (default : value)
  : outcome value :=
  match v with
  | VDict d => Ret (match dict_lookup k d with Some x => x | None => default end)
  | _ => Raise (Exn AttributeError
                  ("'" ++ type_name v ++ "' object has no attribute 'get'"))
  end.

Inductive subscript : Type :=
| KInt (i : Z)
| KStr (s : string).

Definition string_get (s : string) (i : Z) : option ascii :=
  let n := Z.of_nat (String.length s) in
  let j := if i <? 0 then i + n else i in
  if (j <? 0) || (n <=? j) then None else String.get (Z.to_nat j) s.

Definition list_get (l : list value) (i : Z) : option value :=
  let n := Z.of_nat (List.length l) in
  let j := if i <? 0 then i + n else i in
  if (j <? 0) || (n <=? j) then None else nth_error l (Z.to_nat j).

(** [v[k]]. *)
Definition getitem (v : value) (k : subscript) : outcome value :=
  match v, k with
  | VDict d, KStr s =>
      match dict_lookup s d with
      | Some x => Ret x
      | None => Raise (Exn KeyError (repr_str s))
      end
  | VDict d, KInt i => Raise (Exn KeyError (Z_to_string i))
  | VList l, KInt i =>
      match list_get l i with
      | Some x => Ret x
      | None => Raise (Exn IndexError "list index out of range")
      end
  | VList l, KStr _ =>
      Raise (Exn TypeError "list indices must be integers or slices, not str")
  | VStr s, KInt i =>
      match string_get s i with
      | Some c => Ret (VStr (String c EmptyString))
      | None => Raise (Exn IndexError "string index out of range")
      end
  | VStr s, KStr _ =>
      Raise (Exn TypeError "string indices must be integers, not 'str'")
  | _, _ =>
      Raise (Exn TypeError ("'" ++ type_name v ++ "' object is not subscriptable"))
  end.

(** [v.strip()]. *)
Definition py_strip (v : value) : outcome value :=
  match v with
  | VStr s => Ret (VStr (strip s))
  | _ => Raise (Exn AttributeError
                  ("'" ++ type_name v ++ "' object has no attribute 'strip'"))
  end.

End PyOps.
Export PyOps.

(* ================================================================= *)
(** ** The resilient API client *)

Module Client.

Definition API_URL : string :=
  "https://generativelanguage.googleapis.com/v1beta/models/gemini-2.5-flash-preview-05-20:generateContent".

(** [requests.post(url, json=payload, headers=...)]: the remote end decides. *)
Definition requests_post (url : string) (payload : value) : M response :=
  fun w =>
    let w' := World (api_key w) (remote w) (S (posts w))
                    (trace w ++ [Post url payload])%list (disk w) in
    match remote w (posts w) url payload with
    | PostRaises e => (Raise e, w')
    | PostReturns r => (Ret r, w')
    end.

(** [response.raise_for_status()]. *)
Definition raise_for_status (r : response) : M unit :=
  let code := status_code r in
  if (400 <=? code) && (code <? 500) then
    raise (Exn HTTPError (Z_to_string code ++ " Client Error: " ++ reason r
                            ++ " for url: " ++ resp_url r))
  else if (500 <=? code) && (code <? 600) then
    raise (Exn HTTPError (Z_to_string code ++ " Server Error: " ++ reason r
                            ++ " for url: " ++ resp_url r))
  else ret tt.

(** [response.json()]. *)
Definition response_json (r : response) : M value :=
  match resp_json r with
  | inl v => ret v
  | inr msg => raise (Exn RequestsJSONDecodeError msg)
  end.

Definition st_error (msg : string) : M unit := emit (StError msg).

(** [time.sleep(secs)]. *)
Definition time_sleep (secs : Z) : M unit :=
  if secs <? 0 then raise (Exn ValueError "sleep length must be non-negative")
  else emit (Sleep secs).

(** The body of the [try] of one iteration. *)
Definition attempt (full_url : string) (payload : value) : M value :=
  response <- requests_post full_url payload ;;
  raise_for_status response ;;
  response_json response.

(** The [for i in range(retries)] loop, with [n] iterations left, [i] the
    loop variable and [delay] the current delay. *)
Fixpoint fetch_loop (n : nat) (i : Z) (full_url : string) (payload : value)
         (retries delay : Z) : M value :=
  match n with
  | O => ret VNone
  | S n' =>
      try_except (attempt full_url payload) is_RequestException
        (fun e =>
           if i <? retries - 1 then
             st_error ("Request failed, retrying in " ++ Z_to_string delay
                         ++ " seconds... (" ++ exn_str e ++ ")") ;;
             time_sleep delay ;;
             fetch_loop n' (i + 1) full_url payload retries (delay * 2)
           else
             st_error ("An error occurred after multiple retries: "
                         ++ exn_str e) ;;
             raise e)
  end.

Definition exponential_backoff_fetch (url : string) (payload : value)
           (retries delay : Z) : M value :=
  w <- get_world ;;
  let full_url := url ++ "?key=" ++ api_key w in
  fetch_loop (Z.to_nat retries) 0 full_url payload retries delay.

(** [{"contents": [{"role": "user", "parts": [{"text": text}]}]}]. *)
Definition user_payload (text : string) : value :=
  VDict [("contents",
          VList [VDict [("role", VStr "user");
                        ("parts", VList [VDict [("text", VStr text)]])]])].

(** [response_data and response_data.get('candidates')], as a condition. *)
Definition has_candidates (response_data : value) : outcome bool :=
  if truthy response_data then
    c <~ py_get response_data "candidates" ;;
    Ret (truthy c)
  else Ret false.

(** [response_data['candidates'][0]['content']['parts'][0]['text']]. *)
Definition first_candidate_text (response_data : value) : outcome value :=
  a <~ getitem response_data (KStr "candidates") ;;
  b <~ getitem a (KInt 0) ;;
  c <~ getitem b (KStr "content") ;;
  d <~ getitem c (KStr "parts") ;;
  e <~ getitem d (KInt 0) ;;
  getitem e (KStr "text").

Definition fallback_response : string :=
  "Sorry, I could not get a valid response from the API.".

Definition get_gemini_response (prompt : string) : M value :=
  let payload := user_payload prompt in
  try_except
    (response_data <- exponential_backoff_fetch API_URL payload 5 1 ;;
     ok <- lift (has_candidates response_data) ;;
     if ok : bool then lift (first_candidate_text response_data)
     else ret (VStr fallback_response))
    is_Exception
    (fun e =>
       st_error ("An error occurred: " ++ exn_str e) ;;
       ret (VStr ("An internal error occurred: " ++ exn_str e))).

Definition topic_prompt (query : string) : string :=
  "Classify the following text into a single, concise topic (e.g., "
  ++ "'General Question', 'Technical Support', 'Product Information', 'Creative Writing'). "
  ++ "Text: '" ++ query ++ "'".

Definition classify_topic (query : string) : M value :=
  let payload := user_payload (topic_prompt query) in
  try_except
    (response_data <- exponential_backoff_fetch API_URL payload 5 1 ;;
     ok <- lift (has_candidates response_data) ;;
     if ok : bool then
       lift (t <~ first_candidate_text response_data ;; py_strip t)
     else ret (VStr "Unknown"))
    is_Exception
    (fun e =>
       st_error ("An error occurred during topic classification: "
                   ++ exn_str e) ;;
       ret (VStr "Unknown")).

End Client.
Export Client.

(* ================================================================= *)
(** ** The JSON codec of the analytics file *)

Module Json.

Definition quote : ascii := "034"%char.
Definition backslash : ascii := "092"%char.
Definition LF : ascii := "010"%char.
Definition CR : ascii := "013"%char.
Definition TAB : ascii := "009"%char.
Definition BS : ascii := "008"%char.
Definition FF : ascii := "012"%char.

(** *** Floats and their literals *)

(** [float(lit)] for the literal [(-1)^neg * m * 10^e]: the nearest binary64
    value, ties to even. *)
Definition float_of_decimal (neg : bool) (m : Z) (e : Z) : float :=
  SF2Prim
    (match m with
     | Zpos p =>
         if 0 <=? e then binary_normalize prec emax (m * 10 ^ e) 0 neg
         else SFdiv prec emax (S754_finite neg p 0)
                    (S754_finite false (Z.to_pos (10 ^ (- e))) 0)
     | _ => S754_zero neg
     end).

(** Candidate [c * 10^k] and its distance to [n / d], as a fraction over the
    common denominator of both. *)
Definition decimal_distance (n d c k : Z) : Z :=
  if 0 <=? k then Z.abs (c * 10 ^ k * d - n)
  else Z.abs (c * d - n * 10 ^ (- k)).

Definition decimal_floor (n d k : Z) : Z :=
  if 0 <=? k then n / (d * 10 ^ k) else (n * 10 ^ (- k)) / d.

(** [floor(log10(n / d))], searched around an estimate from the bit sizes. *)
Definition log10_floor (n d : Z) : Z :=
  let est := (Z.log2 n - Z.log2 d) * 30103 / 100000 in
  let fits x := let q := decimal_floor n d x in (1 <=? q) && (q <? 10) in
  match find fits (map (fun i => est + i) [-2; -1; 0; 1; 2]) with
  | Some x => x
  | None => est
  end.

(** The shortest decimal [c * 10^k] that reads back as [f], the closest to
    the exact value [n / d] of [f] among those of that length. *)
Fixpoint shortest_from (fuel : nat) (p : Z) (f : float) (n d x : Z) : Z * Z :=
  let k := x - p + 1 in
  let lo := decimal_floor n d k in
  let hi := lo + 1 in
  let ok c := PrimFloat.eqb (float_of_decimal false c k) f in
  match fuel with
  | O => (lo, k)
  | S fuel' =>
      match ok lo, ok hi with
      | true, true =>
          if decimal_distance n d lo k <=? decimal_distance n d hi k
          then (lo, k) else (hi, k)
      | true, false => (lo, k)
      | false, true => (hi, k)
      | false, false => shortest_from fuel' (p + 1) f n d x
      end
  end.

Fixpoint strip_zeros (fuel : nat) (c k : Z) : Z * Z :=
  match fuel with
  | O => (c, k)
  | S fuel' =>
      if (c mod 10 =? 0) && negb (c =? 0) then strip_zeros fuel' (c / 10) (k + 1)
      else (c, k)
  end.

Fixpoint zeros (n : nat) : string :=
  match n with O => "" | S n' => String "0" (zeros n') end.

(** [repr] of a finite positive float from its digits [ds] and the position
    [decpt] of the decimal point ([0.ds * 10^decpt]). *)
Definition format_repr (ds : string) (decpt : Z) : string :=
  let n := Z.of_nat (String.length ds) in
  if (decpt <=? -4) || (16 <? decpt) then
    let ex := decpt - 1 in
    let mant := match ds with
                | String c EmptyString => ds
                | String c rest => String c ("." ++ rest)
                | EmptyString => ds
                end in
    let exs := Z_to_string (Z.abs ex) in
    mant ++ "e" ++ (if ex <? 0 then "-" else "+")
         ++ (if Z.abs ex <? 10 then "0" ++ exs else exs)
  else if decpt <=? 0 then "0." ++ zeros (Z.to_nat (- decpt)) ++ ds
  else if n <=? decpt then ds ++ zeros (Z.to_nat (decpt - n)) ++ ".0"
  else substring 0 (Z.to_nat decpt) ds ++ "."
       ++ substring (Z.to_nat decpt) (Z.to_nat (n - decpt)) ds.

(** [repr(f)], which is what [json.dumps] writes for a finite float. *)
Definition float_repr (f : float) : string :=
  match Prim2SF f with
  | S754_nan => "NaN"
  | S754_infinity s => if s then "-Infinity" else "Infinity"
  | S754_zero s => if s then "-0.0" else "0.0"
  | S754_finite s m e =>
      let n := if 0 <=? e then Zpos m * 2 ^ e else Zpos m in
      let d := if 0 <=? e then 1 else 2 ^ (- e) in
      let '(c, k) := shortest_from 17 1 (PrimFloat.abs f) n d (log10_floor n d) in
      let '(c, k) := strip_zeros 17 c k in
      let ds := Z_to_string c in
      (if s then "-" else "") ++ format_repr ds (k + Z.of_nat (String.length ds))
  end.

(** *** [json.dumps] *)

Definition hex_digit (n : N) : ascii :=
  ascii_of_N (if (n <? 10)%N then 48 + n else 87 + n)%N.

(** One character of a string, as [json.dumps] writes it with its default
    [ensure_ascii=True]. *)
Definition escape_char (c : ascii) : string :=
  let n := N_of_ascii c in
  if Ascii.eqb c quote then String backslash (String quote "")
  else if Ascii.eqb c backslash then String backslash (String backslash "")
  else if Ascii.eqb c LF then String backslash "n"
  else if Ascii.eqb c CR then String backslash "r"
  else if Ascii.eqb c TAB then String backslash "t"
  else if Ascii.eqb c BS then String backslash "b"
  else if Ascii.eqb c FF then String backslash "f"
  else if ((32 <=? n) && (n <=? 126))%N then String c ""
  else String backslash
         ("u00" ++ String (hex_digit (n / 16)) (String (hex_digit (n mod 16)) "")).

Fixpoint escape (s : string) : string :=
  match s with
  | EmptyString => EmptyString
  | String c s' => escape_char c ++ escape s'
  end.

Definition dumps_str (s : string) : string :=
  String quote (escape s ++ String quote "").

Fixpoint json_dumps (v : value) : string :=
  match v with
  | VNone => "null"
  | VBool b => if b then "true" else "false"
  | VInt z => Z_to_string z
  | VFloat f => float_repr f
  | VStr s => dumps_str s
  | VList l =>
      "[" ++ (fix items (l : list value) : string :=
                match l with
                | [] => ""
                | [x] => json_dumps x
                | x :: l' => json_dumps x ++ ", " ++ items l'
                end) l ++ "]"
  | VDict d =>
      "{" ++ (fix members (d : list (string * value)) : string :=
                match d with
                | [] => ""
                | [(k, x)] => dumps_str k ++ ": " ++ json_dumps x
                | (k, x) :: d' =>
                    dumps_str k ++ ": " ++ json_dumps x ++ ", " ++ members d'
                end) d ++ "}"
  end.

(** *** [json.loads] *)

Inductive scan (A : Type) : Type :=
| Scanned (a : A) (rest : string)
| Malformed
| OutOfFuel.
Arguments Scanned {A} a rest.
Arguments Malformed {A}.
Arguments OutOfFuel {A}.

(** JSON whitespace: space, tab, line feed, carriage return. *)
Definition is_ws (c : ascii) : bool :=
  Ascii.eqb c " " || Ascii.eqb c TAB || Ascii.eqb c LF || Ascii.eqb c CR.

Fixpoint skip_ws (s : string) : string :=
  match s with
  | String c s' => if is_ws c then skip_ws s' else s
  | EmptyString => EmptyString
  end.

Definition is_digit (c : ascii) : bool :=
  let n := N_of_ascii c in ((48 <=? n) && (n <=? 57))%N.

Definition digit_value (c : ascii) : Z := Z.of_N (N_of_ascii c) - 48.

(** The longest prefix of digits, and what follows it. *)
Fixpoint scan_digits (s : string) : string * string :=
  match s with
  | String c s' =>
      if is_digit c then let '(ds, r) := scan_digits s' in (String c ds, r)
      else (EmptyString, s)
  | EmptyString => (EmptyString, EmptyString)
  end.

Fixpoint digits_value (acc : Z) (ds : string) : Z :=
  match ds with
  | String c ds' => digits_value (acc * 10 + digit_value c) ds'
  | EmptyString => acc
  end.

Definition hex_value (c : ascii) : option N :=
  let n := N_of_ascii c in
  if ((48 <=? n) && (n <=? 57))%N then Some (n - 48)%N
  else if ((97 <=? n) && (n <=? 102))%N then Some (n - 87)%N
  else if ((65 <=? n) && (n <=? 70))%N then Some (n - 55)%N
  else None.

(** The character an escape [\uXXXX] stands for.  Code points from 256 on are
    outside the alphabet of this development: such an escape is reported as
    malformed. *)
Definition unicode_escape (a b c d : ascii) : option ascii :=
  match hex_value a, hex_value b, hex_value c, hex_value d with
  | Some x, Some y, Some z, Some t =>
      if ((x =? 0) && (y =? 0))%N then Some (ascii_of_N (z * 16 + t)) else None
  | _, _, _, _ => None
  end.

(** The body of a string literal, after its opening quote. *)
Fixpoint scanstring (s : string) : option (string * string) :=
  match s with
  | EmptyString => None
  | String c s' =>
      if Ascii.eqb c quote then Some (EmptyString, s')
      else if Ascii.eqb c backslash then
        match s' with
        | String e s'' =>
            let simple (x : ascii) :=
              match scanstring s'' with
              | Some (t, r) => Some (String x t, r)
              | None => None
              end in
            if Ascii.eqb e quote then simple quote
            else if Ascii.eqb e backslash then simple backslash
            else if Ascii.eqb e "/" then simple "/"%char
            else if Ascii.eqb e "b" then simple BS
            else if Ascii.eqb e "f" then simple FF
            else if Ascii.eqb e "n" then simple LF
            else if Ascii.eqb e "r" then simple CR
            else if Ascii.eqb e "t" then simple TAB
            else if Ascii.eqb e "u" then
              match s'' with
              | String h1 (String h2 (String h3 (String h4 s3))) =>
                  match unicode_escape h1 h2 h3 h4, scanstring s3 with
                  | Some x, Some (t, r) => Some (String x t, r)
                  | _, _ => None
                  end
              | _ => None
              end
            else None
        | EmptyString => None
        end
      else if (N_of_ascii c <? 32)%N then None
      else match scanstring s' with
           | Some (t, r) => Some (String c t, r)
           | None => None
           end
  end.

(** [s] without the prefix [p], when it starts with it. *)
Fixpoint after_prefix (p s : string) : option string :=
  match p, s with
  | EmptyString, _ => Some s
  | String a p', String b s' => if Ascii.eqb a b then after_prefix p' s' else None
  | _, EmptyString => None
  end.

(** A number literal: an optional minus sign; then a zero, or a non-zero
    digit and any digits; then, optionally, a point and at least one digit;
    then, optionally, [e] or [E], an optional sign and at least one digit.
    It is an [int] unless it has a fraction or an exponent. *)
Definition scan_sign (s : string) : bool * string :=
  match s with
  | String "-" r => (true, r)
  | _ => (false, s)
  end.

Definition scan_int_part (s : string) : option (string * string) :=
  match s with
  | String "0" r => Some ("0", r)
  | String c _ => if is_digit c then Some (scan_digits s) else None
  | EmptyString => None
  end.

(** The digits of the fraction, none when no digit follows the point. *)
Definition scan_fraction (s : string) : string * string :=
  match s with
  | String "." r =>
      match scan_digits r with
      | (EmptyString, _) => (EmptyString, s)
      | (ds, r') => (ds, r')
      end
  | _ => (EmptyString, s)
  end.

(** The exponent, none when no digit follows the [e] and its sign. *)
Definition scan_exponent (s : string) : option Z * string :=
  match s with
  | String c r =>
      if Ascii.eqb c "e" || Ascii.eqb c "E" then
        let '(eneg, r') := match r with
                           | String "-" t => (true, t)
                           | String "+" t => (false, t)
                           | _ => (false, r)
                           end in
        match scan_digits r' with
        | (EmptyString, _) => (None, s)
        | (ds, r'') =>
            (Some (if eneg then - digits_value 0 ds else digits_value 0 ds), r'')
        end
      else (None, s)
  | EmptyString => (None, s)
  end.

Definition scan_number (s : string) : option (value * string) :=
  let '(neg, s0) := scan_sign s in
  match scan_int_part s0 with
  | None => None
  | Some (ip, r1) =>
      let '(frac, r2) := scan_fraction r1 in
      let '(ex, r3) := scan_exponent r2 in
      match frac, ex with
      | EmptyString, None =>
          let n := digits_value 0 ip in
          Some (VInt (if neg then - n else n), r3)
      | _, _ =>
          let m := digits_value 0 (ip ++ frac) in
          let e := match ex with Some x => x | None => 0 end
                   - Z.of_nat (String.length frac) in
          Some (VFloat (float_of_decimal neg m e), r3)
      end
  end.

(** A scalar that is neither a string nor a container. *)
Definition scan_scalar (s : string) : scan value :=
  match after_prefix "null" s with
  | Some r => Scanned VNone r
  | None =>
  match after_prefix "true" s with
  | Some r => Scanned (VBool true) r
  | None =>
  match after_prefix "false" s with
  | Some r => Scanned (VBool false) r
  | None =>
  match scan_number s with
  | Some (v, r) => Scanned v r
  | None =>
  match after_prefix "NaN" s with
  | Some r => Scanned (VFloat PrimFloat.nan) r
  | None =>
  match after_prefix "Infinity" s with
  | Some r => Scanned (VFloat PrimFloat.infinity) r
  | None =>
  match after_prefix "-Infinity" s with
  | Some r => Scanned (VFloat PrimFloat.neg_infinity) r
  | None => Malformed
  end end end end end end end.

(** The scanner.  [parse_value] reads one value at the head of [s];
    [parse_items] the items of an array after its bracket, [parse_members]
    the members of an object from the quote of a key on.  A repeated key
    keeps its first position and takes the last value. *)
Fixpoint parse_value (fuel : nat) (s : string) : scan value :=
  match fuel with
  | O => OutOfFuel
  | S f =>
      match s with
      | EmptyString => Malformed
      | String c r =>
          if Ascii.eqb c quote then
            match scanstring r with
            | Some (t, r') => Scanned (VStr t) r'
            | None => Malformed
            end
          else if Ascii.eqb c "{" then
            match skip_ws r with
            | String "}" r' => Scanned (VDict []) r'
            | String q r' =>
                if Ascii.eqb q quote then parse_members f (skip_ws r) []
                else Malformed
            | EmptyString => Malformed
            end
          else if Ascii.eqb c "[" then
            match skip_ws r with
            | String "]" r' => Scanned (VList []) r'
            | _ => parse_items f (skip_ws r) []
            end
          else scan_scalar s
      end
  end

with parse_items (fuel : nat) (s : string) (acc : list value) : scan value :=
  match fuel with
  | O => OutOfFuel
  | S f =>
      match parse_value f s with
      | Scanned v r =>
          match skip_ws r with
          | String "]" r' => Scanned (VList (rev (v :: acc))) r'
          | String "," r' => parse_items f (skip_ws r') (v :: acc)
          | _ => Malformed
          end
      | Malformed => Malformed
      | OutOfFuel => OutOfFuel
      end
  end

with parse_members (fuel : nat) (s : string) (acc : list (string * value))
  : scan value :=
  match fuel with
  | O => OutOfFuel
  | S f =>
      match s with
      | String q r =>
          if Ascii.eqb q quote then
            match scanstring r with
            | Some (k, r1) =>
                match skip_ws r1 with
                | String ":" r2 =>
                    match parse_value f (skip_ws r2) with
                    | Scanned v r3 =>
                        match skip_ws r3 with
                        | String "}" r4 => Scanned (VDict (dict_set k v acc)) r4
                        | String "," r4 =>
                            parse_members f (skip_ws r4) (dict_set k v acc)
                        | _ => Malformed
                        end
                    | Malformed => Malformed
                    | OutOfFuel => OutOfFuel
                    end
                | _ => Malformed
                end
            | None => Malformed
            end
          else Malformed
      | EmptyString => Malformed
      end
  end.

(** Two units of fuel per character are enough: see [parse_fuel]. *)
Definition fuel_for (s : string) : nat := 2 * String.length s + 1.

(** The text of the message of a decode error is not modelled: the program
    never looks at it. *)
Definition decode_error : exn := Exn JSONDecodeError "invalid JSON document".

(** [json.loads(s)]. *)
Definition json_loads (s : string) : outcome value :=
  let s0 := skip_ws s in
  match parse_value (fuel_for s0) s0 with
  | Scanned v r =>
      match skip_ws r with
      | EmptyString => Ret v
      | String _ _ => Raise decode_error
      end
  | Malformed => Raise decode_error
  | OutOfFuel => Raise decode_error
  end.

End Json.
Export Json.

(* ================================================================= *)
(** ** Analytics: the interaction log and its summary *)

Module Analytics.

Definition ANALYTICS_FILE : string := "analytics.jsonl".

Definition nl : string := String LF "".

(** [with open(ANALYTICS_FILE, "a") as f: f.write(text)].  The file is
    created when it does not exist; the text goes after what is there. *)
Definition append_text (text : string) : M unit :=
  fun w =>
    let d := disk w in
    match deny_append d with
    | Some e => (Raise e, w)
    | None =>
        let old := match file d with Some c => c | None => "" end in
        (Ret tt,
         World (api_key w) (remote w) (posts w) (trace w)
               (Filesystem (Some (old ++ text)) (deny_read d) (deny_append d)))
    end.

Definition log_analytics (data : value) : M unit :=
  try_except (append_text (json_dumps data ++ nl)) is_IOError
    (fun e => st_error ("Error writing to analytics file: " ++ exn_str e)).

Definition file_not_found : exn :=
  Exn FileNotFoundError
      ("[Errno 2] No such file or directory: " ++ repr_str ANALYTICS_FILE).

(** [open(ANALYTICS_FILE, "r")], as the text the file object will yield. *)
Definition open_read (d : filesystem) : outcome string :=
  match deny_read d with
  | Some e => Raise e
  | None =>
      match file d with
      | Some c => Ret c
      | None => Raise file_not_found
      end
  end.

(** [for line in f], for a file opened in text mode: a line ends after a line
    feed; a carriage return, alone or before a line feed, ends it too and is
    read as a line feed.  The last line may lack its terminator. *)
Fixpoint readlines (s : string) : list string :=
  match s with
  | EmptyString => []
  | String c s' =>
      if Ascii.eqb c LF then nl :: readlines s'
      else if Ascii.eqb c CR then
        match s' with
        | String c' s'' =>
            if Ascii.eqb c' LF then nl :: readlines s'' else nl :: readlines s'
        | EmptyString => [nl]
        end
      else
        match readlines s' with
        | [] => [String c EmptyString]
        | l :: ls => String c l :: ls
        end
  end.

(** The local variables of [get_analytics_dashboard_data]. *)
Record locals : Type := Locals {
  total_queries : Z;
  topic_counts : list (value * Z);
  positive_ratings : Z;
  negative_ratings : Z
}.

Definition init_locals : locals := Locals 0 [] 0 0.

Definition incr_total : ST locals unit :=
  fun l => (Ret tt, Locals (total_queries l + 1) (topic_counts l)
                           (positive_ratings l) (negative_ratings l)).
Definition incr_positive : ST locals unit :=
  fun l => (Ret tt, Locals (total_queries l) (topic_counts l)
                           (positive_ratings l + 1) (negative_ratings l)).
Definition incr_negative : ST locals unit :=
  fun l => (Ret tt, Locals (total_queries l) (topic_counts l)
                           (positive_ratings l) (negative_ratings l + 1)).

(** [v == s] for a string literal [s]. *)
Definition eq_str (v : value) (s : string) : bool :=
  match v with
  | VStr s' => String.eqb s' s
  | _ => false
  end.

(** Whether [hash(v)] succeeds. *)
Definition hashable (v : value) : bool :=
  match v with
  | VList _ | VDict _ => false
  | _ => true
  end.

(** [f == z] for a float and an int: the comparison is exact. *)
Definition float_eq_int (f : float) (z : Z) : bool :=
  match Prim2SF f with
  | S754_zero _ => z =? 0
  | S754_finite s m e =>
      let n := if s then Zneg m else Zpos m in
      if 0 <=? e then z =? n * 2 ^ e
      else (n mod 2 ^ (- e) =? 0) && (z =? n / 2 ^ (- e))
  | _ => false
  end.

Definition as_int (v : value) : option Z :=
  match v with
  | VBool b => Some (if b then 1 else 0)
  | VInt z => Some z
  | _ => None
  end.

(** Equality of dict keys: [a is b or a == b].  Numbers compare by value
    across [bool], [int] and [float]; the only NaN that reaches this program
    is the one object [json] returns for the literal, equal to itself as a
    key. *)
Definition key_eqb (a b : value) : bool :=
  match a, b with
  | VNone, VNone => true
  | VStr s, VStr t => String.eqb s t
  | VFloat f, VFloat g =>
      PrimFloat.eqb f g || (PrimFloat.is_nan f && PrimFloat.is_nan g)
  | VFloat f, _ =>
      match as_int b with Some z => float_eq_int f z | None => false end
  | _, VFloat g =>
      match as_int a with Some z => float_eq_int g z | None => false end
  | _, _ =>
      match as_int a, as_int b with
      | Some x, Some y => x =? y
      | _, _ => false
      end
  end.

Fixpoint counts_get (k : value) (d : list (value * Z)) (default : Z) : Z :=
  match d with
  | [] => default
  | (k', n) :: d' => if key_eqb k' k then n else counts_get k d' default
  end.

(** [d[k] = n]: an existing key keeps its position and its key object. *)
Fixpoint counts_set (k : value) (n : Z) (d : list (value * Z))
  : list (value * Z) :=
  match d with
  | [] => [(k, n)]
  | (k', n') :: d' =>
      if key_eqb k' k then (k', n) :: d' else (k', n') :: counts_set k n d'
  end.

Definition unhashable (v : value) : exn :=
  Exn TypeError ("unhashable type: '" ++ type_name v ++ "'").

(** [topic_counts.get(topic, default)]. *)
Definition topic_counts_get (topic : value) (default : Z) : ST locals Z :=
  fun l =>
    if hashable topic then (Ret (counts_get topic (topic_counts l) default), l)
    else (Raise (unhashable topic), l).

(** [topic_counts[topic] = n]. *)
Definition topic_counts_set (topic : value) (n : Z) : ST locals unit :=
  fun l =>
    if hashable topic then
      (Ret tt, Locals (total_queries l) (counts_set topic n (topic_counts l))
                      (positive_ratings l) (negative_ratings l))
    else (Raise (unhashable topic), l).

(** The statements of the [try] block that follow the parse of a line into
    [data]. *)
Definition count_record (data : value) : ST locals unit :=
  incr_total ;;
  (rating <- lift (py_get data "rating") ;;
   if eq_str rating "positive" then incr_positive
   else
     rating' <- lift (py_get data "rating") ;;
     if eq_str rating' "negative" then incr_negative else ret tt) ;;
  topic <- lift (py_get_default data "topic" (VStr "Unknown")) ;;
  n <- topic_counts_get topic 0 ;;
  topic_counts_set topic (n + 1).

(** The body of the loop: what is done with one line. *)
Definition process_line (line : string) : ST locals unit :=
  try_except
    (data <- lift (json_loads line) ;;
     count_record data)
    is_JSONDecodeError
    (fun _ => ret tt).

(** [for line in lines: body line]. *)
Fixpoint for_each {S : Type} (lines : list string) (body : string -> ST S unit)
  : ST S unit :=
  match lines with
  | [] => ret tt
  | line :: rest => body line ;; for_each rest body
  end.

(** Where [x] goes in a list sorted by decreasing count: before the first
    entry whose count is not greater. *)
Fixpoint insert_desc (x : value * Z) (l : list (value * Z)) : list (value * Z) :=
  match l with
  | [] => [x]
  | y :: l' => if snd x <? snd y then y :: insert_desc x l' else x :: l
  end.

(** [sorted(items, key=lambda item: item[1], reverse=True)]: by decreasing
    count, entries of equal count in their original order. *)
Definition sorted_by_count_desc (items : list (value * Z)) : list (value * Z) :=
  fold_right insert_desc [] items.

(** The dict the function returns, with its four fixed keys. *)
Record summary : Type := Summary {
  totalQueries : Z;
  positiveRatings : Z;
  negativeRatings : Z;
  topics : list (value * Z)
}.

Definition get_analytics_dashboard_data : M summary :=
  fun w =>
    let scan : ST locals unit :=
      try_except
        (content <- lift (open_read (disk w)) ;;
         for_each (readlines content) process_line)
        is_FileNotFoundError
        (fun _ => ret tt) in
    match scan init_locals with
    | (Ret _, l) =>
        let sorted_topics := sorted_by_count_desc (topic_counts l) in
        (Ret (Summary (total_queries l) (positive_ratings l)
                      (negative_ratings l) sorted_topics), w)
    | (Raise e, _) => (Raise e, w)
    end.

End Analytics.
Export Analytics.

(* ================================================================= *)
(** ** Reference notions used to state the properties *)

Module Reference.

(** What one POST amounts to for the retry loop, as a function of what the
    remote end answered: the decoded body, or the exception of the attempt. *)
Definition attempt_result (o : post_outcome) : outcome value :=
  match o with
  | PostRaises e => Raise e
  | PostReturns r =>
      let code := status_code r in
      if (400 <=? code) && (code <? 500) then
        Raise (Exn HTTPError (Z_to_string code ++ " Client Error: " ++ reason r
                                ++ " for url: " ++ resp_url r))
      else if (500 <=? code) && (code <? 600) then
        Raise (Exn HTTPError (Z_to_string code ++ " Server Error: " ++ reason r
                                ++ " for url: " ++ resp_url r))
      else match resp_json r with
           | inl v => Ret v
           | inr msg => Raise (Exn RequestsJSONDecodeError msg)
           end
  end.

(** The [k]-th attempt from world [w] on fails with the request exception
    [e]: a transport failure, an HTTP error status, or an undecodable body. *)
Definition attempt_fails (w : world) (full_url : string) (payload : value)
           (k : nat) (e : exn) : Prop :=
  attempt_result (remote w (posts w + k)%nat full_url payload) = Raise e
  /\ is_RequestException (exn_class_of e) = true.

Definition sleeps (evs : list event) : list Z :=
  flat_map (fun ev => match ev with Sleep d => [d] | _ => [] end) evs.

Definition post_count (evs : list event) : nat :=
  List.length (filter (fun ev => match ev with Post _ _ => true | _ => false end)
                      evs).

(** [d, 2d, 4d, ...], [n] terms. *)
Fixpoint doubling (d : Z) (n : nat) : list Z :=
  match n with
  | O => []
  | S n' => d :: doubling (d * 2) n'
  end.

(** The success envelope of the remote API:
    [{"candidates": [{"content": {"parts": [{"text": <answer>}]}}, ...]}].
    [candidate_text env] is the answer when [env] has that shape. *)
Definition candidate_text (env : value) : option string :=
  match env with
  | VDict d =>
      match dict_lookup "candidates" d with
      | Some (VList (VDict c :: _)) =>
          match dict_lookup "content" c with
          | Some (VDict ct) =>
              match dict_lookup "parts" ct with
              | Some (VList (VDict p :: _)) =>
                  match dict_lookup "text" p with
                  | Some (VStr t) => Some t
                  | _ => None
                  end
              | _ => None
              end
          | _ => None
          end
      | _ => None
      end
  | _ => None
  end.

(** The envelope has no usable [candidates] entry: it is falsy itself, or it
    is a dict whose [candidates] entry is absent or falsy. *)
Definition no_candidates (env : value) : Prop :=
  truthy env = false
  \/ exists d, env = VDict d
       /\ truthy (match dict_lookup "candidates" d with
                  | Some c => c
                  | None => VNone
                  end) = false.

(** A remote end that answers every POST the same way. *)
Definition always (o : post_outcome) : nat -> string -> value -> post_outcome :=
  fun _ _ _ => o.

Definition ok_response (body : value) : post_outcome :=
  PostReturns (Response 200 "OK" "" (inl body)).

Definition empty_disk : filesystem := Filesystem None None None.

Definition world_with (r : nat -> string -> value -> post_outcome) : world :=
  World "k" r 0 [] empty_disk.

Definition refused : exn := Exn ConnectionError "connection refused".

(** An envelope with the given value in the text position. *)
Definition envelope_with (text : value) : value :=
  VDict [("candidates",
          VList [VDict [("content",
                         VDict [("parts", VList [VDict [("text", text)]])])]])].

(** A world whose analytics file has the given content and can be opened. *)
Definition world_with_log (content : option string) : world :=
  World "k" (always (PostRaises refused)) 0 [] (Filesystem content None None).

Definition zero_summary : summary := Summary 0 0 0 [].

(** The summary a state of the local variables turns into. *)
Definition summary_of (l : locals) : summary :=
  Summary (total_queries l) (positive_ratings l) (negative_ratings l)
          (sorted_by_count_desc (topic_counts l)).

(** The rating counters never exceed the number of records counted. *)
Definition ratings_within_total (l : locals) : Prop :=
  positive_ratings l + negative_ratings l <= total_queries l.

(** By decreasing count. *)
Definition count_ge (a b : value * Z) : Prop := snd b <= snd a.

(** The count the summary reports for the topic named [t]. *)
Definition topic_count (tps : list (value * Z)) (t : string) : Z :=
  counts_get (VStr t) tps 0.

(** The interaction record of the specification, and the dict the session
    passes to [log_analytics] for it. *)
Inductive rating_value : Type := Positive | Negative.

Record InteractionRecord : Type := {
  timestamp : string;
  query : string;
  response : string;
  topic : string;
  rating : option rating_value
}.

Definition rating_text (r : rating_value) : string :=
  match r with
  | Positive => "positive"
  | Negative => "negative"
  end.

Definition record_fields (r : InteractionRecord) : list (string * string) :=
  [("timestamp", timestamp r); ("query", query r); ("response", response r);
   ("topic", topic r)]
  ++ match rating r with
     | Some x => [("rating", rating_text x)]
     | None => []
     end.

Definition record_dict (r : InteractionRecord) : value :=
  VDict (map (fun kv => (fst kv, VStr (snd kv))) (record_fields r)).

(** A record on the topic [t], rated positive. *)
Definition record_about (t : string) : InteractionRecord :=
  Build_InteractionRecord "2024-01-01 00:00:00" "q" "a" t (Some Positive).

(** The log that holds the given records, one per line. *)
Definition log_text (rs : list InteractionRecord) : string :=
  fold_right (fun r acc => json_dumps (record_dict r) ++ nl ++ acc) EmptyString rs.

(** A log of eleven records in which A is counted 5 times, B and C 3 times
    each, B and C being met first. *)
Definition abc_log : string :=
  log_text (map record_about
              ["B"; "C"; "A"; "A"; "B"; "C"; "A"; "A"; "B"; "C"; "A"]).

Definition permission_denied : exn :=
  Exn PermissionError "[Errno 13] Permission denied: 'analytics.jsonl'".


(** The members of a dict of strings, as [json.dumps] writes them. *)
Fixpoint members_text (kvs : list (string * string)) : string :=
  match kvs with
  | [] => EmptyString
  | [(k, v)] => dumps_str k ++ ": " ++ dumps_str v
  | (k, v) :: rest => dumps_str k ++ ": " ++ dumps_str v ++ ", " ++ members_text rest
  end.

(** A dict whose values are all strings. *)
Definition flat_dict (kvs : list (string * string)) : value :=
  VDict (map (fun kv => (fst kv, VStr (snd kv))) kvs).

(** The dict that results from storing the pairs one after the other. *)
Definition stored (kvs : list (string * string)) (acc : list (string * value))
  : list (string * value) :=
  fold_left (fun a kv => dict_set (fst kv) (VStr (snd kv)) a) kvs acc.

(** No character of the text ends a line. *)
Fixpoint one_line (s : string) : bool :=
  match s with
  | EmptyString => true
  | String c s' => negb (Ascii.eqb c LF) && negb (Ascii.eqb c CR) && one_line s'
  end.

(** The entries of a topic dict whose key is the string [t]. *)
Definition entries_for (t : string) (d : list (value * Z)) : list (value * Z) :=
  filter (fun e => key_eqb (fst e) (VStr t)) d.

(** No topic name has two entries. *)
Definition names_unique (d : list (value * Z)) : Prop :=
  forall t, (List.length (entries_for t d) <= 1)%nat.

(** A log of one record whose line has not been ended. *)
Definition unfinished_log : string := json_dumps (flat_dict [("topic", "A")]).

(** What a record adds to each rating counter. *)
Definition positive_part (r : InteractionRecord) : Z :=
  match rating r with Some Positive => 1 | _ => 0 end.
Definition negative_part (r : InteractionRecord) : Z :=
  match rating r with Some Negative => 1 | _ => 0 end.

(** The content of the log, empty when the file does not exist. *)
Definition log_content (w : world) : string :=
  match file (disk w) with Some c => c | None => EmptyString end.

(** The text is empty or ends with a line terminator. *)
Fixpoint ends_line (s : string) : bool :=
  match s with
  | EmptyString => true
  | String c EmptyString => Ascii.eqb c LF || Ascii.eqb c CR
  | String _ s' => ends_line s'
  end.

(** What a run of the loop leaves untouched, and what it adds to the trace. *)
Record extends (w w' : world) (evs : list event) : Prop := {
  ext_key : api_key w' = api_key w;
  ext_remote : remote w' = remote w;
  ext_disk : disk w' = disk w;
  ext_trace : trace w' = (trace w ++ evs)%list
}.

(** The effect of a decoded record on the local variables. *)
Definition after_record (d : list (string * value)) (l : locals) : locals :=
  let rating := match dict_lookup "rating" d with Some x => x | None => VNone end in
  Locals (total_queries l + 1) (topic_counts l)
         (if eq_str rating "positive" then positive_ratings l + 1
          else positive_ratings l)
         (if eq_str rating "positive" then negative_ratings l
          else if eq_str rating "negative" then negative_ratings l + 1
               else negative_ratings l).

(** [data.get('topic', 'Unknown')] on a decoded object. *)
Definition topic_of (d : list (string * value)) : value :=
  match dict_lookup "topic" d with Some x => x | None => VStr "Unknown" end.

(** The local variables once the count of topic [t] has gone up by one. *)
Definition with_topic (t : value) (l : locals) : locals :=
  Locals (total_queries l)
         (counts_set t (counts_get t (topic_counts l) 0 + 1) (topic_counts l))
         (positive_ratings l) (negative_ratings l).

End Reference.
Export Reference.

(* ================================================================= *)
(** ** Further notions for the properties of the whole program *)

Module Observations.

(** Every POST among the events went to [full_url] with [payload]. *)
Definition posts_all_to (full_url : string) (payload : value) (evs : list event)
  : Prop :=
  Forall (fun ev => match ev with
                    | Post u p => u = full_url /\ p = payload
                    | _ => True
                    end) evs.


Definition sum_Z (l : list Z) : Z := fold_right Z.add 0 l.


Definition key_error : exn := Exn KeyError "'x'".

(** The world once an event has been added to its trace. *)
Definition with_event (w : world) (ev : event) : world :=
  World (api_key w) (remote w) (posts w) (trace w ++ [ev])%list (disk w).

(** The world once a POST has been made. *)
Definition with_post (w : world) (url : string) (payload : value) : world :=
  World (api_key w) (remote w) (S (posts w))
        (trace w ++ [Post url payload])%list (disk w).

Definition retry_message (delay : Z) (e : exn) : string :=
  "Request failed, retrying in " ++ Z_to_string delay
    ++ " seconds... (" ++ exn_str e ++ ")".

Definition exhausted_message (e : exn) : string :=
  "An error occurred after multiple retries: " ++ exn_str e.

(** The first character is blank. *)
Definition starts_blank (s : string) : bool :=
  match s with
  | String c _ => is_space c
  | EmptyString => false
  end.

(** The last character is blank. *)
Fixpoint ends_blank (s : string) : bool :=
  match s with
  | EmptyString => false
  | String c EmptyString => is_space c
  | String _ s' => ends_blank s'
  end.

Definition negative_sleep : exn :=
  Exn ValueError "sleep length must be non-negative".

Definition write_error_message (e : exn) : string :=
  "Error writing to analytics file: " ++ exn_str e.

(** The line [log_analytics] writes for a record. *)
Definition record_line (r : InteractionRecord) : string :=
  json_dumps (record_dict r) ++ nl.

(** Logging the records one after the other. *)
Definition log_all (rs : list InteractionRecord) (w : world) : world :=
  fold_left (fun w r => snd (log_analytics (record_dict r) w)) rs w.

(** How many of the records are on topic [t], rated positive, rated
    negative. *)
Definition on_topic (t : string) (rs : list InteractionRecord) : Z :=
  Z.of_nat (List.length (filter (fun r => String.eqb (topic r) t) rs)).
Definition rated_positive (rs : list InteractionRecord) : Z :=
  sum_Z (map positive_part rs).
Definition rated_negative (rs : list InteractionRecord) : Z :=
  sum_Z (map negative_part rs).

(** The sum of the counts of a topic dict. *)
Definition sum_counts (d : list (value * Z)) : Z := sum_Z (map snd d).

(** The entries of a topic dict whose count is [c]. *)
Definition with_count (c : Z) (d : list (value * Z)) : list (value * Z) :=
  filter (fun e => snd e =? c) d.

(** The line decodes. *)
Definition decodes (line : string) : bool :=
  match json_loads line with
  | Ret _ => true
  | Raise _ => false
  end.



(** What the scan keeps true of its local variables between two lines. *)
Record counters_consistent (l : locals) : Prop := {
  cc_total : sum_counts (topic_counts l) = total_queries l;
  cc_counts : Forall (fun e => 1 <= snd e) (topic_counts l);
  cc_positive : 0 <= positive_ratings l;
  cc_negative : 0 <= negative_ratings l
}.

(** The local variables after the scan of one more record. *)
Definition scanned_record (l : locals) (r : InteractionRecord) : locals :=
  with_topic (VStr (topic r))
             (Locals (total_queries l + 1) (topic_counts l)
                     (positive_ratings l + positive_part r)
                     (negative_ratings l + negative_part r)).

(** No counter of [b] is below the one of [a], and no topic name has a
    smaller count in [b] than in [a]. *)
Record counters_le (a b : locals) : Prop := {
  le_total : total_queries a <= total_queries b;
  le_positive : positive_ratings a <= positive_ratings b;
  le_negative : negative_ratings a <= negative_ratings b;
  le_topics : forall t, counts_get (VStr t) (topic_counts a) 0
                        <= counts_get (VStr t) (topic_counts b) 0
}.

(** A log with a record whose topic is a list. *)
Definition list_topic_line : string :=
  json_dumps (VDict [("topic", VList [])]) ++ nl.

End Observations.
Export Observations.

(* ================================================================= *)
(** ** The page: the script that Streamlit runs from top to bottom

    One run of the script is a function of what the widgets return in that
    run: the secret, the text of the chat input, the two buttons, and the
    clock.  What the script shows is recorded call by call; the text of a
    topic line is recorded as the topic and the count it is formatted
    from, a button by its key.  The notifications of [st.error] stay in the
    trace of the world, as in the core; their order relative to what is
    shown here is not kept. *)

Module Page.

Record message : Type := Message { role : string; content : value }.

Inductive ui_event : Type :=
| UiTitle (text : string)                 (* st.title *)
| UiHeader (text : string)                (* st.header, in the sidebar *)
| UiMetric (label : string) (n : Z)       (* st.metric *)
| UiSubheader (text : string)             (* st.subheader *)
| UiTopicLine (topic : value) (count : Z) (* st.write(f"- **{topic}**: {count} times") *)
| UiChatMessage (role : string)           (* with st.chat_message(role) *)
| UiMarkdown (body : value)               (* st.markdown *)
| UiSpinner (text : string)               (* with st.spinner(text) *)
| UiColumns                               (* st.columns([1, 1]) *)
| UiButton (key : string)                 (* col.button(label, key=key) *)
| UiInfo (text : string).                 (* st.info *)

(** What the widgets and the environment return during one run. *)
Record widgets : Type := Widgets {
  secret : option string;       (* st.secrets.get("GEMINI_API_KEY") *)
  chat_input : option string;   (* st.chat_input("What is up?") *)
  helpful : bool;               (* the button with key "helpful" *)
  not_helpful : bool;           (* the button with key "not-helpful" *)
  strftime : nat -> string      (* time.strftime(...), call after call *)
}.

(** The state of a run: the world, the session state that Streamlit keeps
    from run to run ([None] before the first run has set it), and what has
    been shown. *)
Record session : Type := Session {
  the_world : world;
  session_messages : option (list message);
  screen : list ui_event
}.

(** A call into the core, which only sees the world. *)
Definition in_world {A : Type} (m : M A) : ST session A :=
  fun a => let '(r, w') := m (the_world a) in
           (r, Session w' (session_messages a) (screen a)).

Definition display (ev : ui_event) : ST session unit :=
  fun a => (Ret tt, Session (the_world a) (session_messages a) (screen a ++ [ev])%list).

(** [API_KEY = ...]: the module global the fetch reads. *)
Definition set_api_key (key : string) : ST session unit :=
  fun a => let w := the_world a in
           (Ret tt, Session (World key (remote w) (posts w) (trace w) (disk w))
                        (session_messages a) (screen a)).

(** [if "messages" not in st.session_state: st.session_state.messages = []]. *)
Definition init_messages : ST session unit :=
  fun a => (Ret tt, Session (the_world a)
                        (Some (match session_messages a with
                               | Some ms => ms
                               | None => []
                               end))
                        (screen a)).

Definition get_messages : ST session (list message) :=
  fun a => (Ret (match session_messages a with Some ms => ms | None => [] end), a).

(** [st.session_state.messages.append(m)]. *)
Definition append_message (m : message) : ST session unit :=
  fun a => (Ret tt, Session (the_world a)
                        (Some (match session_messages a with
                               | Some ms => ms
                               | None => []
                               end ++ [m])%list)
                        (screen a)).

(** [for x in xs: body x]. *)
Fixpoint for_all {A S : Type} (xs : list A) (body : A -> ST S unit) : ST S unit :=
  match xs with
  | [] => ret tt
  | x :: rest => body x ;; for_all rest body
  end.

(** The dict passed to [log_analytics] when a button is pressed. *)
Definition feedback_record (now prompt : string) (bot_response topic : value)
           (rating : string) : value :=
  VDict [("timestamp", VStr now); ("query", VStr prompt);
         ("response", bot_response); ("topic", topic);
         ("rating", VStr rating)].

(** The block under [with st.sidebar:]. *)
Definition sidebar : ST session unit :=
  display (UiHeader "Analytics Dashboard") ;;
  analytics_data <- in_world get_analytics_dashboard_data ;;
  display (UiMetric "Total Queries" (totalQueries analytics_data)) ;;
  display (UiMetric "Positive Ratings" (positiveRatings analytics_data)) ;;
  display (UiMetric "Negative Ratings" (negativeRatings analytics_data)) ;;
  display (UiSubheader "Most Common Topics") ;;
  for_all (topics analytics_data)
          (fun item => display (UiTopicLine (fst item) (snd item))).

(** The loop that shows the history. *)
Definition show_history : ST session unit :=
  messages <- get_messages ;;
  for_all messages
          (fun m => display (UiChatMessage (role m)) ;;
                    display (UiMarkdown (content m))).

(** The two buttons under the answer and what pressing them does. *)
Definition feedback (ws : widgets) (prompt : string) (bot_response topic : value)
  : ST session unit :=
  display UiColumns ;;
  display (UiButton "helpful") ;;
  (if helpful ws then
     in_world (log_analytics
                 (feedback_record (strftime ws 0) prompt bot_response topic
                                  "positive")) ;;
     display (UiInfo "Thanks for your feedback!")
   else ret tt) ;;
  display (UiButton "not-helpful") ;;
  (if not_helpful ws then
     in_world (log_analytics
                 (feedback_record (strftime ws (if helpful ws then 1 else 0))
                                  prompt bot_response topic "negative")) ;;
     display (UiInfo "Thanks for your feedback!")
   else ret tt).

(** The block under [if prompt := st.chat_input(...)]. *)
Definition turn (ws : widgets) (prompt : string) : ST session unit :=
  display (UiChatMessage "user") ;;
  display (UiMarkdown (VStr prompt)) ;;
  append_message (Message "user" (VStr prompt)) ;;
  display (UiSpinner "Thinking...") ;;
  bot_response <- in_world (get_gemini_response prompt) ;;
  topic <- in_world (classify_topic prompt) ;;
  display (UiChatMessage "assistant") ;;
  display (UiMarkdown bot_response) ;;
  (if truthy bot_response then feedback ws prompt bot_response topic
   else ret tt) ;;
  append_message (Message "assistant" bot_response).

(** The script after the check of the key. *)
Definition page (ws : widgets) : ST session unit :=
  display (UiTitle "Chatbot with Analytics Dashboard") ;;
  init_messages ;;
  sidebar ;;
  show_history ;;
  match chat_input ws with
  | Some prompt => if truthy (VStr prompt) then turn ws prompt else ret tt
  | None => ret tt
  end.

Definition missing_key_message : string :=
  "API key not found. Please set the GEMINI_API_KEY in Streamlit secrets.".

(** One run of the script.  Without a key the script reports it and stops
    ([st.stop()] ends the run there). *)
Definition script (ws : widgets) : ST session unit :=
  match secret ws with
  | Some key =>
      if truthy (VStr key) then set_api_key key ;; page ws
      else in_world (st_error missing_key_message)
  | None => in_world (st_error missing_key_message)
  end.

End Page.
Export Page.

(** ** Notions for the properties of the page *)

Module PageReference.

(** A run that leaves the chat input empty and the buttons alone. *)
Definition idle (key : string) : widgets :=
  Widgets (Some key) None false false (fun _ => "2024-01-01 00:00:00").

(** A run in which the user has entered [prompt]. *)
Definition asking (key prompt : string) (up down : bool) : widgets :=
  Widgets (Some key) (Some prompt) up down (fun _ => "2024-01-01 00:00:00").

(** The application before its first run, in a given world. *)
Definition fresh_app (w : world) : session := Session w None [].

(** The messages the session holds. *)
Definition history (a : session) : list message :=
  match session_messages a with Some ms => ms | None => [] end.

(** The world with the key the script has read. *)
Definition keyed (key : string) (w : world) : world :=
  World key (remote w) (posts w) (trace w) (disk w).

(** What the sidebar shows for a summary. *)
Definition sidebar_view (s : summary) : list ui_event :=
  [UiHeader "Analytics Dashboard";
   UiMetric "Total Queries" (totalQueries s);
   UiMetric "Positive Ratings" (positiveRatings s);
   UiMetric "Negative Ratings" (negativeRatings s);
   UiSubheader "Most Common Topics"]
  ++ map (fun item => UiTopicLine (fst item) (snd item)) (topics s).

(** What the history loop shows. *)
Definition history_view (ms : list message) : list ui_event :=
  flat_map (fun m => [UiChatMessage (role m); UiMarkdown (content m)]) ms.

(** The world after the dicts have been logged one after the other. *)
Definition log_each (ds : list value) (w : world) : world :=
  fold_left (fun w' d => snd (log_analytics d w')) ds w.

(** Every POST among the events went to [full_url]. *)
Definition posts_to (full_url : string) (evs : list event) : Prop :=
  forall u p, In (Post u p) evs -> u = full_url.

(** A world without a log whose remote end always answers with [text]; the
    key is not yet set. *)
Definition answering (text : string) : world :=
  World "" (always (ok_response (envelope_with (VStr text)))) 0 [] empty_disk.

End PageReference.
Export PageReference.

Ltac frame_done :=
  unfold with_event, with_post; cbn; repeat split; try lia; try reflexivity;
  try (rewrite <- ?app_assoc; reflexivity);
  try solve [repeat constructor].

Ltac added_at_most_one :=
  cbn [snd]; first [left; reflexivity | right; eexists; reflexivity].

Ltac split_match H :=
  match type of H with
  | context [match ?x with _ => _ end] => destruct x eqn:?; try discriminate H
  end.



(* ================================================================= *)
(** ** The retry loop *)

Section RetryLoop.

Variables (full_url : string) (payload : value).

(** One attempt: a POST is recorded, the counter of POSTs advances, and the
    result is that of [attempt_result] on what the remote end answered. *)
Lemma attempt_spec (w : world) :
  attempt full_url payload w
  = (attempt_result (remote w (posts w) full_url payload),
     World (api_key w) (remote w) (S (posts w))
           (trace w ++ [Post full_url payload])%list (disk w)).
Proof.
  unfold attempt, bind, requests_post, raise_for_status, response_json,
    attempt_result.
  destruct (remote w (posts w) full_url payload) as [e | r]; [reflexivity |].
  destruct ((400 <=? status_code r) && (status_code r <? 500)); [reflexivity |].
  destruct ((500 <=? status_code r) && (status_code r <? 600)); [reflexivity |].
  cbn. destruct (resp_json r); reflexivity.
Qed.

(** When every attempt fails, [n + 1] remaining iterations that end at the
    last index make [n + 1] POSTs, sleep [delay, 2 delay, ...] ([n] times)
    and raise the failure of the last attempt. *)
Lemma fetch_loop_all_fail (n : nat) :
  forall (i retries delay : Z) (w : world),
    retries = i + Z.of_nat (S n) ->
    0 <= delay ->
    (forall k, (k <= n)%nat -> exists e, attempt_fails w full_url payload k e) ->
    exists e w' evs,
      fetch_loop (S n) i full_url payload retries delay w = (Raise e, w')
      /\ attempt_fails w full_url payload n e
      /\ posts w' = (posts w + S n)%nat
      /\ extends w w' evs
      /\ post_count evs = S n
      /\ sleeps evs = doubling delay n.
Proof.
  induction n as [| n IH]; intros i retries delay w Hr Hd Hfail.
  - destruct (Hfail 0%nat (le_n _)) as [e [He Hc]].
    exists e. cbn [fetch_loop]. unfold try_except. rewrite attempt_spec.
    pose proof He as He'. rewrite Nat.add_0_r in He'. rewrite He', Hc.
    replace (i <? retries - 1) with false by (symmetry; apply Z.ltb_ge; lia).
    unfold bind, st_error, emit, raise.
    eexists. exists [Post full_url payload;
                     StError ("An error occurred after multiple retries: "
                                ++ exn_str e)].
    split; [reflexivity |].
    split; [split; [exact He | exact Hc] |].
    split; [cbn; lia |].
    split; [| split; reflexivity].
    constructor; cbn; try reflexivity.
    rewrite <- app_assoc. reflexivity.
  - destruct (Hfail 0%nat (Nat.le_0_l _)) as [e0 [He0 Hc0]].
    rewrite Nat.add_0_r in He0.
    remember (S n) as m eqn:Hm.
    cbn [fetch_loop]. unfold try_except. rewrite attempt_spec, He0, Hc0.
    replace (i <? retries - 1) with true by (symmetry; apply Z.ltb_lt; lia).
    unfold bind at 1. unfold st_error at 1, emit at 1.
    unfold bind at 1. unfold time_sleep at 1.
    replace (delay <? 0) with false by (symmetry; apply Z.ltb_ge; lia).
    unfold emit at 1.
    match goal with
    | |- context [fetch_loop m _ _ _ _ _ ?w1] => set (w1' := w1)
    end.
    subst m.
    destruct (IH (i + 1) retries (delay * 2) w1') as (e & w' & evs & Hrun & Hlast
                                                      & Hposts & Hext & Hpc & Hsl).
    + lia.
    + lia.
    + intros k Hk. destruct (Hfail (S k)) as [e He]; [lia |].
      exists e. unfold attempt_fails in *. subst w1'. cbn.
      replace (S (posts w + k)) with (posts w + S k)%nat by lia. exact He.
    + exists e, w'.
      exists ([Post full_url payload;
               StError ("Request failed, retrying in " ++ Z_to_string delay
                          ++ " seconds... (" ++ exn_str e0 ++ ")");
               Sleep delay] ++ evs)%list.
      split; [exact Hrun |].
      split.
      { unfold attempt_fails in *. subst w1'. cbn in Hlast.
        replace (posts w + S n)%nat with (S (posts w + n)) by lia. exact Hlast. }
      split; [subst w1'; cbn in Hposts; lia |].
      split.
      { destruct Hext as [Hk Hrm Hdk Htr]. subst w1'. cbn in *.
        constructor; try assumption.
        rewrite Htr. repeat rewrite <- app_assoc. reflexivity. }
      split.
      { unfold post_count in *. cbn. rewrite Hpc. reflexivity. }
      { unfold sleeps in *. cbn. rewrite Hsl. reflexivity. }
Qed.

End RetryLoop.

(** C1. With [retries = 5] and [delay = 1], when every attempt fails (the
    POST raises a request exception, the status is an HTTP error, or the body
    cannot be decoded), [exponential_backoff_fetch] makes exactly five POSTs,
    sleeps 1, 2, 4 and 8 seconds between them, and ends by raising the
    failure of the fifth attempt. *)
Theorem backoff_exhausted (url : string) (payload : value) (w : world) :
  (forall k, (k < 5)%nat ->
     exists e, attempt_fails w (url ++ "?key=" ++ api_key w) payload k e) ->
  exists e w' evs,
    exponential_backoff_fetch url payload 5 1 w = (Raise e, w')
    /\ attempt_fails w (url ++ "?key=" ++ api_key w) payload 4 e
    /\ trace w' = (trace w ++ evs)%list
    /\ post_count evs = 5%nat
    /\ sleeps evs = [1; 2; 4; 8].
Proof.
  intros Hfail.
  destruct (fetch_loop_all_fail (url ++ "?key=" ++ api_key w) payload 4 0 5 1 w)
    as (e & w' & evs & Hrun & Hlast & _ & Hext & Hpc & Hsl).
  - reflexivity.
  - lia.
  - intros k Hk. apply Hfail. lia.
  - exists e, w', evs.
    split; [exact Hrun |].
    split; [exact Hlast |].
    split; [apply Hext |].
    split; [exact Hpc | exact Hsl].
Qed.

Lemma backoff_exhausted_witness :
  exists e w' evs,
    exponential_backoff_fetch "u" VNone 5 1 (world_with (always (PostRaises refused)))
    = (Raise e, w')
    /\ attempt_fails (world_with (always (PostRaises refused)))
                     ("u" ++ "?key=" ++ "k") VNone 4 e
    /\ trace w' = ([] ++ evs)%list
    /\ post_count evs = 5%nat
    /\ sleeps evs = [1; 2; 4; 8].
Proof.
  apply (backoff_exhausted "u" VNone (world_with (always (PostRaises refused)))).
  intros k _. exists refused. split; reflexivity.
Defined.

(* ================================================================= *)
(** ** Reading the answer out of an envelope *)

Lemma getitem_str_inv (v : value) (k : string) (x : value) :
  getitem v (KStr k) = Ret x ->
  exists d, v = VDict d /\ dict_lookup k d = Some x.
Proof.
  destruct v; cbn; try discriminate.
  destruct (dict_lookup k d) eqn:E; [| discriminate].
  intros [= ->]. eauto.
Qed.

Lemma list_get_head (x : value) (l : list value) : list_get (x :: l) 0 = Some x.
Proof.
  unfold list_get. cbn [List.length Z.ltb Z.compare].
  replace (Z.of_nat (S (List.length l)) <=? 0) with false
    by (symmetry; apply Z.leb_gt; lia).
  reflexivity.
Qed.

Lemma getitem_zero_dict (v : value) (p : list (string * value)) :
  getitem v (KInt 0) = Ret (VDict p) ->
  exists l, v = VList (VDict p :: l).
Proof.
  destruct v; cbn; try discriminate.
  - destruct (string_get s 0); discriminate.
  - destruct l as [| x l]; [cbn; discriminate |].
    rewrite list_get_head. intros [= ->]. eauto.
Qed.

(** The subscript chain of the source yields a string exactly on the
    envelopes of the expected shape. *)
Lemma first_candidate_text_str (env : value) (t : string) :
  first_candidate_text env = Ret (VStr t) -> candidate_text env = Some t.
Proof.
  unfold first_candidate_text, and_then.
  destruct (getitem env (KStr "candidates")) as [a |] eqn:Ea; [| discriminate].
  destruct (getitem a (KInt 0)) as [b |] eqn:Eb; [| discriminate].
  destruct (getitem b (KStr "content")) as [c |] eqn:Ec; [| discriminate].
  destruct (getitem c (KStr "parts")) as [d |] eqn:Ed; [| discriminate].
  destruct (getitem d (KInt 0)) as [e |] eqn:Ee; [| discriminate].
  intros Et.
  apply getitem_str_inv in Et as (p & -> & Hp).
  apply getitem_zero_dict in Ee as (lp & ->).
  apply getitem_str_inv in Ed as (ct & -> & Hct).
  apply getitem_str_inv in Ec as (cc & -> & Hcc).
  apply getitem_zero_dict in Eb as (lc & ->).
  apply getitem_str_inv in Ea as (d0 & -> & Hd0).
  cbn [candidate_text]. rewrite Hd0, Hcc, Hct, Hp. reflexivity.
Qed.

Lemma candidate_text_some (env : value) (t : string) :
  candidate_text env = Some t ->
  has_candidates env = Ret true /\ first_candidate_text env = Ret (VStr t).
Proof.
  intros H. unfold candidate_text in H.
  repeat split_match H. injection H as ->. subst.
  unfold has_candidates, first_candidate_text.
  match goal with
  | Hd : dict_lookup "candidates" ?d = Some _ |- _ =>
      destruct d as [| kv d']; [discriminate Hd |]
  end.
  cbn -[dict_lookup].
  repeat match goal with
         | Hd : dict_lookup _ _ = Some _ |- _ =>
             rewrite Hd; clear Hd; cbn -[dict_lookup list_get]
         end.
  rewrite !list_get_head. cbn -[dict_lookup].
  repeat match goal with
         | Hd : dict_lookup _ _ = Some _ |- _ =>
             rewrite Hd; clear Hd; cbn -[dict_lookup list_get]
         end.
  rewrite ?list_get_head. cbn -[dict_lookup].
  repeat match goal with
         | Hd : dict_lookup _ _ = Some _ |- _ => rewrite Hd; clear Hd
         end.
  auto.
Qed.

Lemma no_candidates_false (env : value) :
  no_candidates env -> has_candidates env = Ret false.
Proof.
  unfold has_candidates. intros [H | (d & -> & H)].
  - rewrite H. reflexivity.
  - cbn [py_get and_then]. rewrite H. destruct (truthy (VDict d)); reflexivity.
Qed.

(** What [classify_topic] does with an envelope that lacks the answer. *)
Lemma classify_envelope_unknown (env : value) :
  candidate_text env = None ->
  forall ok, has_candidates env = Ret ok ->
  (if ok then (t <~ first_candidate_text env ;; py_strip t)
   else Ret (VStr "Unknown")) = Ret (VStr "Unknown")
  \/ exists e, (if ok then (t <~ first_candidate_text env ;; py_strip t)
                else Ret (VStr "Unknown")) = @Raise value e.
Proof.
  intros Hnone ok _. destruct ok; [| left; reflexivity].
  right. unfold and_then.
  destruct (first_candidate_text env) as [v | e] eqn:E; [| eauto].
  destruct v; cbn; eauto.
  apply first_candidate_text_str in E. congruence.
Qed.

(* ================================================================= *)
(** ** The chat call and the topic classifier *)

Section Calls.

Variables (w w1 : world) (env : value).

Lemma chat_on_envelope (prompt : string) :
  exponential_backoff_fetch API_URL (user_payload prompt) 5 1 w = (Ret env, w1) ->
  get_gemini_response prompt w
  = match has_candidates env with
    | Ret true =>
        match first_candidate_text env with
        | Ret v => (Ret v, w1)
        | Raise e =>
            (Ret (VStr ("An internal error occurred: " ++ exn_str e)),
             World (api_key w1) (remote w1) (posts w1)
                   (trace w1 ++ [StError ("An error occurred: " ++ exn_str e)])%list
                   (disk w1))
        end
    | Ret false => (Ret (VStr fallback_response), w1)
    | Raise e =>
        (Ret (VStr ("An internal error occurred: " ++ exn_str e)),
         World (api_key w1) (remote w1) (posts w1)
               (trace w1 ++ [StError ("An error occurred: " ++ exn_str e)])%list
               (disk w1))
    end.
Proof.
  intros Hf. unfold get_gemini_response, try_except.
  unfold bind at 1. rewrite Hf. unfold bind at 1, lift at 1.
  destruct (has_candidates env) as [[|] | e]; cbn; [| reflexivity | reflexivity].
  unfold lift. destruct (first_candidate_text env); reflexivity.
Qed.

Lemma chat_on_failure (prompt : string) (e : exn) :
  exponential_backoff_fetch API_URL (user_payload prompt) 5 1 w = (Raise e, w1) ->
  get_gemini_response prompt w
  = (Ret (VStr ("An internal error occurred: " ++ exn_str e)),
     World (api_key w1) (remote w1) (posts w1)
           (trace w1 ++ [StError ("An error occurred: " ++ exn_str e)])%list
           (disk w1)).
Proof.
  intros Hf. unfold get_gemini_response, try_except.
  unfold bind at 1. rewrite Hf. reflexivity.
Qed.

Lemma classify_on_envelope (query : string) :
  exponential_backoff_fetch API_URL (user_payload (topic_prompt query)) 5 1 w
  = (Ret env, w1) ->
  classify_topic query w
  = match has_candidates env with
    | Ret ok =>
        match (if ok then (t <~ first_candidate_text env ;; py_strip t)
               else Ret (VStr "Unknown")) with
        | Ret v => (Ret v, w1)
        | Raise e =>
            (Ret (VStr "Unknown"),
             World (api_key w1) (remote w1) (posts w1)
                   (trace w1 ++ [StError
                                   ("An error occurred during topic classification: "
                                      ++ exn_str e)])%list
                   (disk w1))
        end
    | Raise e =>
        (Ret (VStr "Unknown"),
         World (api_key w1) (remote w1) (posts w1)
               (trace w1 ++ [StError
                               ("An error occurred during topic classification: "
                                  ++ exn_str e)])%list
               (disk w1))
    end.
Proof.
  intros Hf. unfold classify_topic, try_except.
  unfold bind at 1. rewrite Hf. unfold bind at 1, lift at 1.
  destruct (has_candidates env) as [[|] | e]; cbn; [| reflexivity | reflexivity].
  unfold lift. destruct (t <~ first_candidate_text env;; py_strip t); reflexivity.
Qed.

Lemma classify_on_failure (query : string) (e : exn) :
  exponential_backoff_fetch API_URL (user_payload (topic_prompt query)) 5 1 w
  = (Raise e, w1) ->
  classify_topic query w
  = (Ret (VStr "Unknown"),
     World (api_key w1) (remote w1) (posts w1)
           (trace w1 ++ [StError ("An error occurred during topic classification: "
                                    ++ exn_str e)])%list
           (disk w1)).
Proof.
  intros Hf. unfold classify_topic, try_except.
  unfold bind at 1. rewrite Hf. reflexivity.
Qed.

End Calls.

(** C2 (as amended). Whatever the remote end does, neither call raises.
    [classify_topic] returns a string.  [get_gemini_response] returns a
    string on every failure path; on the success path it returns the text
    field of the first candidate as it is, which is a string only when the
    envelope holds one there. *)
Theorem calls_never_raise (query : string) (w : world) :
  (exists v w',
      get_gemini_response query w = (Ret v, w')
      /\ ((exists s, v = VStr s)
          \/ exists env w1,
               exponential_backoff_fetch API_URL (user_payload query) 5 1 w
               = (Ret env, w1)
               /\ first_candidate_text env = Ret v))
  /\ (exists s w', classify_topic query w = (Ret (VStr s), w')).
Proof.
  split.
  - destruct (exponential_backoff_fetch API_URL (user_payload query) 5 1 w)
      as [[env | e] w1] eqn:Hf.
    + rewrite (chat_on_envelope w w1 env query Hf).
      destruct (has_candidates env) as [[|] | e]; eauto 7.
      destruct (first_candidate_text env) as [v | e] eqn:Ht; eauto 9.
    + rewrite (chat_on_failure w w1 query e Hf). eauto 7.
  - destruct (exponential_backoff_fetch API_URL (user_payload (topic_prompt query))
                                        5 1 w) as [[env | e] w1] eqn:Hf.
    + rewrite (classify_on_envelope w w1 env query Hf).
      destruct (has_candidates env) as [[|] | e]; eauto.
      unfold and_then.
      destruct (first_candidate_text env) as [v | e]; eauto.
      destruct v; cbn; eauto.
    + rewrite (classify_on_failure w w1 query e Hf). eauto.
Qed.

(** C2, as stated, fails: when the text field of the envelope holds the
    number 5, [get_gemini_response] returns that number, not a string. *)
Lemma chat_returns_non_string :
  ~ (forall (query : string) (w : world),
        (exists s, fst (get_gemini_response query w) = Ret (VStr s))
        /\ (exists s, fst (classify_topic query w) = Ret (VStr s))).
Proof.
  intros H.
  destruct (H "hi" (world_with (always (ok_response (envelope_with (VInt 5))))))
    as [[s Hs] _].
  vm_compute in Hs. discriminate Hs.
Qed.

(** C4 (as amended). When the fetch returns an envelope,
    [get_gemini_response] does not fail; when that envelope is empty or has
    no non-empty [candidates] entry, it returns the fixed fallback string. *)
Theorem chat_fallback (prompt : string) (w w1 : world) (env : value) :
  exponential_backoff_fetch API_URL (user_payload prompt) 5 1 w = (Ret env, w1) ->
  (exists v w2, get_gemini_response prompt w = (Ret v, w2))
  /\ (no_candidates env ->
      get_gemini_response prompt w = (Ret (VStr fallback_response), w1)).
Proof.
  intros Hf. rewrite (chat_on_envelope w w1 env prompt Hf). split.
  - destruct (has_candidates env) as [[|] | e]; eauto.
    destruct (first_candidate_text env); eauto.
  - intros Hno. rewrite (no_candidates_false env Hno). reflexivity.
Qed.

Lemma chat_fallback_witness :
  get_gemini_response "hi" (world_with (always (ok_response (VDict []))))
  = (Ret (VStr fallback_response),
     snd (exponential_backoff_fetch API_URL (user_payload "hi") 5 1
            (world_with (always (ok_response (VDict [])))))).
Proof.
  apply (chat_fallback "hi" (world_with (always (ok_response (VDict [])))) _
                       (VDict [])).
  - reflexivity.
  - left. reflexivity.
Defined.

(** C4, as stated, fails: an envelope whose candidate is an empty object
    lacks the expected shape, and the answer is a message about the missing
    key, not the fallback string. *)
Lemma chat_malformed_not_fallback :
  ~ (forall (prompt : string) (w w1 : world) (env : value),
        exponential_backoff_fetch API_URL (user_payload prompt) 5 1 w
        = (Ret env, w1) ->
        candidate_text env = None ->
        fst (get_gemini_response prompt w) = Ret (VStr fallback_response)).
Proof.
  intros H.
  pose (env := VDict [("candidates", VList [VDict []])]).
  pose (w := world_with (always (ok_response env))).
  specialize (H "hi" w
                (snd (exponential_backoff_fetch API_URL (user_payload "hi") 5 1 w))
                env eq_refl eq_refl).
  vm_compute in H. discriminate H.
Qed.

(** C6. [classify_topic] returns exactly ["Unknown"] when all five attempts
    of the fetch fail, more generally when the fetch ends with an error, and
    when the fetch returns an envelope without a candidate text. *)
Theorem classify_unknown (query : string) (w : world) :
  ((forall k, (k < 5)%nat ->
      exists e, attempt_fails w (API_URL ++ "?key=" ++ api_key w)
                              (user_payload (topic_prompt query)) k e)
   \/ (exists e w1,
         exponential_backoff_fetch API_URL (user_payload (topic_prompt query)) 5 1 w
         = (Raise e, w1))
   \/ (exists env w1,
         exponential_backoff_fetch API_URL (user_payload (topic_prompt query)) 5 1 w
         = (Ret env, w1)
         /\ candidate_text env = None)) ->
  exists w', classify_topic query w = (Ret (VStr "Unknown"), w').
Proof.
  intros [Hall | [(e & w1 & Hf) | (env & w1 & Hf & Hnone)]].
  - destruct (fetch_loop_all_fail (API_URL ++ "?key=" ++ api_key w)
                (user_payload (topic_prompt query)) 4 0 5 1 w)
      as (e & w1 & _ & Hrun & _); [reflexivity | lia | |].
    + intros k Hk. apply Hall. lia.
    + rewrite (classify_on_failure w w1 query e Hrun). eauto.
  - rewrite (classify_on_failure w w1 query e Hf). eauto.
  - rewrite (classify_on_envelope w w1 env query Hf).
    destruct (has_candidates env) as [ok | e] eqn:Hc; [| eauto].
    destruct (classify_envelope_unknown env Hnone ok Hc) as [-> | [e ->]]; eauto.
Qed.

Lemma classify_unknown_witness :
  (exists w', classify_topic "hi" (world_with (always (PostRaises refused)))
              = (Ret (VStr "Unknown"), w'))
  /\ (exists w', classify_topic "hi"
                   (world_with (always (PostReturns
                                          (Response 503 "Service Unavailable"
                                                    EmptyString (inl VNone)))))
                 = (Ret (VStr "Unknown"), w'))
  /\ (exists w', classify_topic "hi" (world_with (always (ok_response (VDict []))))
                 = (Ret (VStr "Unknown"), w')).
Proof.
  split; [| split].
  - apply (classify_unknown "hi" (world_with (always (PostRaises refused)))).
    left. intros k _. exists refused. split; reflexivity.
  - apply (classify_unknown "hi"
             (world_with (always (PostReturns
                                    (Response 503 "Service Unavailable"
                                              EmptyString (inl VNone)))))).
    right. left. eexists. eexists. vm_compute. reflexivity.
  - apply (classify_unknown "hi" (world_with (always (ok_response (VDict []))))).
    right. right. exists (VDict []). eexists. split; vm_compute; reflexivity.
Defined.

(** C10. The success branch of [get_gemini_response] depends on the presence
    of candidates, not on the text: when the first candidate's text is the
    empty string, the empty string is returned, not the fallback string. *)
Theorem chat_returns_empty_text (prompt : string) (w w1 : world) (env : value) :
  exponential_backoff_fetch API_URL (user_payload prompt) 5 1 w = (Ret env, w1) ->
  candidate_text env = Some "" ->
  get_gemini_response prompt w = (Ret (VStr ""), w1)
  /\ VStr "" <> VStr fallback_response.
Proof.
  intros Hf Ht. split; [| discriminate].
  rewrite (chat_on_envelope w w1 env prompt Hf).
  destruct (candidate_text_some env "" Ht) as [-> ->]. reflexivity.
Qed.

Lemma chat_returns_empty_text_witness :
  get_gemini_response "hi"
    (world_with (always (ok_response (envelope_with (VStr "")))))
  = (Ret (VStr ""),
     snd (exponential_backoff_fetch API_URL (user_payload "hi") 5 1
            (world_with (always (ok_response (envelope_with (VStr "")))))))
  /\ VStr "" <> VStr fallback_response.
Proof.
  apply (chat_returns_empty_text "hi"
           (world_with (always (ok_response (envelope_with (VStr ""))))) _
           (envelope_with (VStr ""))).
  - reflexivity.
  - reflexivity.
Defined.

(* ================================================================= *)
(** ** One line of the log *)

Lemma json_loads_raises (s : string) (e : exn) :
  json_loads s = Raise e -> e = decode_error.
Proof.
  unfold json_loads.
  destruct (parse_value (fuel_for (skip_ws s)) (skip_ws s)) as [v r | |];
    [destruct (skip_ws r) |..]; congruence.
Qed.

(** A line that does not decode is passed over: nothing changes. *)
Lemma process_line_undecodable (line : string) (e : exn) (l : locals) :
  json_loads line = Raise e -> process_line line l = (Ret tt, l).
Proof.
  intros H. pose proof (json_loads_raises line e H) as ->.
  unfold process_line, try_except, bind, lift. rewrite H. reflexivity.
Qed.

Lemma count_record_dict (d : list (string * value)) (l : locals) :
  count_record (VDict d) l
  = if hashable (topic_of d)
    then (Ret tt, with_topic (topic_of d) (after_record d l))
    else (Raise (unhashable (topic_of d)), after_record d l).
Proof.
  unfold count_record, after_record, with_topic, topic_of.
  unfold bind, lift, incr_total, incr_positive, incr_negative, ret,
    topic_counts_get, topic_counts_set; cbn [py_get py_get_default].
  destruct (eq_str _ "positive"); [| destruct (eq_str _ "negative")]; cbn;
    destruct (hashable _); reflexivity.
Qed.

Lemma count_record_not_dict (data : value) (l : locals) :
  (forall d, data <> VDict d) ->
  count_record data l
  = (Raise (Exn AttributeError
              ("'" ++ type_name data ++ "' object has no attribute 'get'")),
     Locals (total_queries l + 1) (topic_counts l) (positive_ratings l)
            (negative_ratings l)).
Proof.
  intros H. destruct data; try reflexivity. elim (H d). reflexivity.
Qed.

Lemma process_line_decoded (line : string) (data : value) (l : locals) :
  json_loads line = Ret data ->
  process_line line l
  = match count_record data l with
    | (Ret a, l') => (Ret a, l')
    | (Raise e, l') =>
        if is_JSONDecodeError (exn_class_of e) then (Ret tt, l') else (Raise e, l')
    end.
Proof.
  intros H. unfold process_line, try_except, bind at 1, lift at 1.
  rewrite H. destruct (count_record data l) as [[[] | e] l']; reflexivity.
Qed.

(** A decoded object with a hashable topic is counted once. *)
Lemma process_line_record (line : string) (d : list (string * value)) (l : locals) :
  json_loads line = Ret (VDict d) ->
  hashable (topic_of d) = true ->
  process_line line l = (Ret tt, with_topic (topic_of d) (after_record d l)).
Proof.
  intros H Hh. rewrite (process_line_decoded line _ l H), count_record_dict, Hh.
  reflexivity.
Qed.

(** The classes of the exceptions one line can end with. *)
Lemma process_line_raises (line : string) (l l' : locals) (e : exn) :
  process_line line l = (Raise e, l') ->
  exn_class_of e = AttributeError \/ exn_class_of e = TypeError.
Proof.
  destruct (json_loads line) as [data | e0] eqn:H.
  - rewrite (process_line_decoded line data l H).
    destruct data;
      try (rewrite count_record_not_dict by discriminate; cbn;
           intros [= <- _]; left; reflexivity).
    rewrite count_record_dict.
    destruct (hashable (topic_of d)); [discriminate |].
    cbn. intros [= <- _]. right. reflexivity.
  - rewrite (process_line_undecodable line e0 l H). discriminate.
Qed.

(** Every line, whatever becomes of it, keeps the rating counters within
    the total. *)
Lemma process_line_within_total (line : string) (l : locals) :
  ratings_within_total l -> ratings_within_total (snd (process_line line l)).
Proof.
  unfold ratings_within_total. intros Hl.
  destruct (json_loads line) as [data | e0] eqn:H.
  - rewrite (process_line_decoded line data l H).
    destruct data;
      try (rewrite count_record_not_dict by discriminate; cbn; lia).
    rewrite count_record_dict.
    destruct (hashable (topic_of d)); unfold after_record; cbn;
      destruct (eq_str _ "positive"); try destruct (eq_str _ "negative");
      cbn; lia.
  - rewrite (process_line_undecodable line e0 l H). exact Hl.
Qed.

(* ================================================================= *)
(** ** The scan of the whole log *)

Section Scan.

Context {S : Type} (body : string -> ST S unit).

Lemma for_each_app (xs ys : list string) (l : S) :
  for_each (xs ++ ys) body l
  = match for_each xs body l with
    | (Ret _, l') => for_each ys body l'
    | (Raise e, l') => (Raise e, l')
    end.
Proof.
  revert l. induction xs as [| x xs IH]; intros l; [reflexivity |].
  cbn [for_each app]. unfold bind.
  destruct (body x l) as [[[] | e] l1]; [apply IH | reflexivity].
Qed.

Lemma for_each_invariant (P : S -> Prop) :
  (forall x l, P l -> P (snd (body x l))) ->
  forall xs l, P l -> P (snd (for_each xs body l)).
Proof.
  intros Hstep xs. induction xs as [| x xs IH]; intros l Hl; [exact Hl |].
  cbn [for_each]. unfold bind. specialize (Hstep x l Hl).
  destruct (body x l) as [[[] | e] l1]; cbn in *; auto.
Qed.

Lemma for_each_raises (C : exn -> Prop) :
  (forall x l l' e, body x l = (Raise e, l') -> C e) ->
  forall xs l l' e, for_each xs body l = (Raise e, l') -> C e.
Proof.
  intros Hstep xs. induction xs as [| x xs IH]; intros l l' e; [discriminate |].
  cbn [for_each]. unfold bind.
  destruct (body x l) as [[[] | e1] l1] eqn:Hb; [apply IH |].
  intros [= <- _]. eapply Hstep, Hb.
Qed.

End Scan.

(** The result of the function in terms of the scan of the lines. *)
Lemma dashboard_of_content (w : world) (content : string) :
  open_read (disk w) = Ret content ->
  get_analytics_dashboard_data w
  = match for_each (readlines content) process_line init_locals with
    | (Ret _, l) => (Ret (summary_of l), w)
    | (Raise e, _) => (Raise e, w)
    end.
Proof.
  intros Ho. unfold get_analytics_dashboard_data, try_except.
  unfold bind at 1, lift at 1. rewrite Ho.
  destruct (for_each (readlines content) process_line init_locals)
    as [[[] | e] l] eqn:Hs; [reflexivity |].
  assert (Hc : exn_class_of e = AttributeError \/ exn_class_of e = TypeError).
  { eapply (for_each_raises process_line
              (fun e => exn_class_of e = AttributeError
                        \/ exn_class_of e = TypeError)); [| exact Hs].
    intros x l0 l1 e0. apply process_line_raises. }
  destruct Hc as [-> | ->]; reflexivity.
Qed.

Lemma dashboard_of_open_error (w : world) (e : exn) :
  open_read (disk w) = Raise e ->
  get_analytics_dashboard_data w
  = if is_FileNotFoundError (exn_class_of e) then (Ret zero_summary, w)
    else (Raise e, w).
Proof.
  intros Ho. unfold get_analytics_dashboard_data, try_except.
  unfold bind at 1, lift at 1. rewrite Ho.
  destruct (is_FileNotFoundError (exn_class_of e)); reflexivity.
Qed.

(** Every summary the function returns comes from a state of the local
    variables whose rating counters are within the total. *)
Lemma dashboard_summary_of (w w' : world) (s : summary) :
  get_analytics_dashboard_data w = (Ret s, w') ->
  exists l, s = summary_of l /\ ratings_within_total l.
Proof.
  destruct (open_read (disk w)) as [c | e] eqn:Ho.
  - rewrite (dashboard_of_content w c Ho).
    pose proof (for_each_invariant process_line ratings_within_total
                  process_line_within_total (readlines c) init_locals) as Hinv.
    destruct (for_each (readlines c) process_line init_locals) as [[[] | e] l];
      [| discriminate].
    intros [= <- _]. exists l. split; [reflexivity |].
    apply Hinv. unfold ratings_within_total. cbn. lia.
  - rewrite (dashboard_of_open_error w e Ho).
    destruct (is_FileNotFoundError (exn_class_of e)); [| discriminate].
    intros [= <- _]. exists init_locals. split; [reflexivity |].
    unfold ratings_within_total. cbn. lia.
Qed.

(** C3 (as amended). On a missing or an empty log file the function returns
    the summary with three zero counters and no topics.  A failure to open
    the file other than "does not exist" is not caught: the caller gets it. *)
Theorem dashboard_missing_or_empty (w : world) :
  (deny_read (disk w) = None ->
   file (disk w) = None \/ file (disk w) = Some "" ->
   get_analytics_dashboard_data w = (Ret zero_summary, w))
  /\ (forall e,
         deny_read (disk w) = Some e ->
         is_FileNotFoundError (exn_class_of e) = false ->
         get_analytics_dashboard_data w = (Raise e, w)).
Proof.
  split.
  - intros Hd [Hf | Hf].
    + rewrite (dashboard_of_open_error w file_not_found); [reflexivity |].
      unfold open_read. rewrite Hd, Hf. reflexivity.
    + rewrite (dashboard_of_content w ""); [reflexivity |].
      unfold open_read. rewrite Hd, Hf. reflexivity.
  - intros e Hd Hc.
    rewrite (dashboard_of_open_error w e); [rewrite Hc; reflexivity |].
    unfold open_read. rewrite Hd. reflexivity.
Qed.

Lemma dashboard_missing_or_empty_witness :
  get_analytics_dashboard_data (world_with_log None)
  = (Ret zero_summary, world_with_log None)
  /\ get_analytics_dashboard_data (world_with_log (Some ""))
     = (Ret zero_summary, world_with_log (Some ""))
  /\ get_analytics_dashboard_data
       (World "k" (always (PostRaises refused)) 0 []
              (Filesystem (Some "") (Some permission_denied) None))
     = (Raise permission_denied,
        World "k" (always (PostRaises refused)) 0 []
              (Filesystem (Some "") (Some permission_denied) None)).
Proof.
  split; [| split].
  - apply (dashboard_missing_or_empty (world_with_log None));
      [reflexivity | left; reflexivity].
  - apply (dashboard_missing_or_empty (world_with_log (Some "")));
      [reflexivity | right; reflexivity].
  - apply (dashboard_missing_or_empty
             (World "k" (always (PostRaises refused)) 0 []
                    (Filesystem (Some "") (Some permission_denied) None)));
      reflexivity.
Defined.

(** C3, as stated, fails: when the file cannot be opened for lack of
    permission, the function raises instead of returning the empty summary. *)
Lemma dashboard_open_failure_raises :
  ~ (forall (w : world) (e : exn),
        open_read (disk w) = Raise e ->
        fst (get_analytics_dashboard_data w) = Ret zero_summary).
Proof.
  intros H.
  specialize (H (World "k" (always (PostRaises refused)) 0 []
                       (Filesystem (Some "") (Some permission_denied) None))
                permission_denied eq_refl).
  vm_compute in H. discriminate H.
Qed.




(** C7. In every summary the function returns, the two rating counters
    together do not exceed the number of queries; a line that decodes and is
    counted adds one to the number of queries and one to at most one of the
    rating counters. *)
Theorem ratings_bounded :
  (forall (w w' : world) (s : summary),
      get_analytics_dashboard_data w = (Ret s, w') ->
      positiveRatings s + negativeRatings s <= totalQueries s)
  /\ (forall (line : string) (data : value) (l l' : locals),
         json_loads line = Ret data ->
         process_line line l = (Ret tt, l') ->
         total_queries l' = total_queries l + 1
         /\ ((positive_ratings l' = positive_ratings l + 1
              /\ negative_ratings l' = negative_ratings l)
             \/ (positive_ratings l' = positive_ratings l
                 /\ negative_ratings l' = negative_ratings l + 1)
             \/ (positive_ratings l' = positive_ratings l
                 /\ negative_ratings l' = negative_ratings l))).
Proof.
  split.
  - intros w w' s H.
    destruct (dashboard_summary_of w w' s H) as (l & -> & Hl). exact Hl.
  - intros line data l l' Hd.
    rewrite (process_line_decoded line data l Hd).
    destruct data; try (rewrite count_record_not_dict by discriminate; discriminate).
    rewrite count_record_dict.
    destruct (hashable (topic_of d)); [| discriminate].
    intros [= <-]. unfold after_record. cbn.
    destruct (eq_str _ "positive"); [auto |].
    destruct (eq_str _ "negative"); auto.
Qed.

Lemma ratings_bounded_witness :
  (let s := summary_of (snd (for_each (readlines abc_log) process_line init_locals)) in
   positiveRatings s + negativeRatings s <= totalQueries s)
  /\ (let l' := snd (process_line ("{}" ++ nl) init_locals) in
      total_queries l' = total_queries init_locals + 1).
Proof.
  split.
  - apply (proj1 ratings_bounded (world_with_log (Some abc_log))
                 (world_with_log (Some abc_log))).
    vm_compute. reflexivity.
  - apply (proj2 ratings_bounded ("{}" ++ nl) (VDict []) init_locals).
    + reflexivity.
    + reflexivity.
Defined.

(* ================================================================= *)
(** ** The order of the topics *)

Lemma insert_desc_all (P : value * Z -> Prop) (x : value * Z) (l : list (value * Z)) :
  P x -> Forall P l -> Forall P (insert_desc x l).
Proof.
  intros Hx Hl. induction Hl as [| y l Hy Hl IH]; cbn.
  - constructor; [exact Hx | constructor].
  - destruct (snd x <? snd y); constructor; auto.
Qed.

Lemma insert_desc_sorted (x : value * Z) (l : list (value * Z)) :
  StronglySorted count_ge l -> StronglySorted count_ge (insert_desc x l).
Proof.
  intros Hl. induction Hl as [| y l Hl IH Hy]; cbn.
  - constructor; constructor.
  - destruct (snd x <? snd y) eqn:E.
    + constructor; [exact IH |].
      apply insert_desc_all; [| exact Hy].
      unfold count_ge. apply Z.ltb_lt in E. lia.
    + apply Z.ltb_ge in E. constructor.
      * constructor; assumption.
      * constructor; [exact E |].
        eapply Forall_impl; [| exact Hy].
        unfold count_ge. intros a Ha. lia.
Qed.

Lemma sorted_by_count_desc_sorted (items : list (value * Z)) :
  StronglySorted count_ge (sorted_by_count_desc items).
Proof.
  induction items as [| x items IH]; cbn.
  - constructor.
  - apply insert_desc_sorted, IH.
Qed.

Lemma insert_desc_perm (x : value * Z) (l : list (value * Z)) :
  Permutation (x :: l) (insert_desc x l).
Proof.
  induction l as [| y l IH]; cbn; [reflexivity |].
  destruct (snd x <? snd y); [| reflexivity].
  rewrite perm_swap. constructor. exact IH.
Qed.

(** Sorting keeps the entries: the result is a rearrangement of the dict. *)
Lemma sorted_by_count_desc_perm (items : list (value * Z)) :
  Permutation items (sorted_by_count_desc items).
Proof.
  induction items as [| x items IH]; cbn; [constructor |].
  rewrite <- insert_desc_perm. constructor. exact IH.
Qed.

(** In a list sorted by decreasing count, an earlier entry has at least the
    count of a later one. *)
Lemma sorted_earlier_ge (l : list (value * Z)) :
  StronglySorted count_ge l ->
  forall i j x y,
    (i < j)%nat -> nth_error l i = Some x -> nth_error l j = Some y ->
    snd y <= snd x.
Proof.
  intros Hl. induction Hl as [| a l Hl IH Ha]; intros i j x y Hij Hi Hj.
  - destruct i; discriminate.
  - destruct j as [| j]; [lia |]. cbn in Hj.
    destruct i as [| i]; cbn in Hi.
    + injection Hi as <-.
      rewrite Forall_forall in Ha. apply (Ha y). eapply nth_error_In, Hj.
    + apply (IH i j); [lia | assumption | assumption].
Qed.

(** C9. The topics of every summary the function returns are sorted by
    decreasing count; hence a topic with a strictly greater count comes
    strictly before one with a smaller count, as A (5) before B (3) and
    C (3). *)
Theorem topics_sorted (w w' : world) (s : summary) :
  get_analytics_dashboard_data w = (Ret s, w') ->
  StronglySorted count_ge (topics s)
  /\ forall i j x y,
       nth_error (topics s) i = Some x ->
       nth_error (topics s) j = Some y ->
       snd y < snd x ->
       (i < j)%nat.
Proof.
  intros H. destruct (dashboard_summary_of w w' s H) as (l & -> & _).
  cbn [topics summary_of].
  pose proof (sorted_by_count_desc_sorted (topic_counts l)) as Hs.
  split; [exact Hs |].
  intros i j x y Hi Hj Hlt.
  destruct (Nat.lt_trichotomy i j) as [Hij | [-> | Hji]]; [exact Hij | |].
  - rewrite Hi in Hj. injection Hj as ->. lia.
  - pose proof (sorted_earlier_ge _ Hs j i y x Hji Hj Hi). lia.
Qed.

Lemma topics_sorted_witness :
  exists s,
    get_analytics_dashboard_data (world_with_log (Some abc_log))
    = (Ret s, world_with_log (Some abc_log))
    /\ topics s = [(VStr "A", 5); (VStr "B", 3); (VStr "C", 3)]
    /\ StronglySorted count_ge (topics s)
    /\ forall i j x y,
         nth_error (topics s) i = Some x ->
         nth_error (topics s) j = Some y ->
         snd y < snd x ->
         (i < j)%nat.
Proof.
  eexists. split; [vm_compute; reflexivity |].
  split; [reflexivity |].
  apply (topics_sorted (world_with_log (Some abc_log))
                       (world_with_log (Some abc_log))).
  vm_compute. reflexivity.
Defined.

(* ================================================================= *)
(** ** Writing a record and reading it back *)

Lemma string_app_assoc (a b c : string) : (a ++ b) ++ c = a ++ (b ++ c).
Proof. induction a as [| x a IH]; cbn; [reflexivity | rewrite IH; reflexivity]. Qed.

Lemma string_length_app (a b : string) :
  String.length (a ++ b) = (String.length a + String.length b)%nat.
Proof. induction a as [| x a IH]; cbn; [reflexivity | rewrite IH; reflexivity]. Qed.

(** Scanning the escape of one character yields the character. *)
Lemma scanstring_escape_char (c : ascii) (rest : string) :
  scanstring (escape_char c ++ rest)
  = match scanstring rest with
    | Some (t, r) => Some (String c t, r)
    | None => None
    end.
Proof.
  destruct c as [[|] [|] [|] [|] [|] [|] [|] [|]]; reflexivity.
Qed.

(** A string literal written by [json.dumps] scans back to the string. *)
Lemma scanstring_escape (s rest : string) :
  scanstring (escape s ++ String quote rest) = Some (s, rest).
Proof.
  induction s as [| c s IH]; [reflexivity |].
  cbn [escape]. rewrite string_app_assoc, scanstring_escape_char, IH.
  reflexivity.
Qed.

Lemma dumps_str_app (s rest : string) :
  dumps_str s ++ rest = String quote (escape s ++ String quote rest).
Proof.
  unfold dumps_str. cbn [append]. rewrite string_app_assoc. reflexivity.
Qed.

Lemma json_dumps_flat (kvs : list (string * string)) :
  json_dumps (flat_dict kvs) = "{" ++ members_text kvs ++ "}".
Proof.
  unfold flat_dict. cbn [json_dumps]. do 2 f_equal.
  induction kvs as [| [k v] kvs IH]; [reflexivity |].
  destruct kvs as [| [k' v'] kvs]; [reflexivity |].
  cbn [map fst snd members_text] in *. rewrite IH. reflexivity.
Qed.

Lemma members_text_head (k v : string) (kvs : list (string * string)) (rest : string) :
  members_text ((k, v) :: kvs) ++ rest
  = String quote
      (escape k ++
       String quote
         (": " ++
          String quote
            (escape v ++
             String quote
               (match kvs with
                | [] => rest
                | _ :: _ => ", " ++ members_text kvs ++ rest
                end)))).
Proof.
  destruct kvs as [| kv kvs]; cbn [members_text];
    rewrite ?string_app_assoc, dumps_str_app; cbn [append];
    rewrite ?string_app_assoc, dumps_str_app; reflexivity.
Qed.

Lemma parse_value_string (f : nat) (r : string) :
  parse_value (S f) (String quote r)
  = match scanstring r with
    | Some (t, r') => Scanned (VStr t) r'
    | None => Malformed
    end.
Proof. reflexivity. Qed.

Lemma parse_value_object (f : nat) (r : string) :
  parse_value (S f) (String "{" (String quote r))
  = parse_members f (String quote r) [].
Proof. reflexivity. Qed.

Lemma parse_members_step (f : nat) (r : string) (acc : list (string * value)) :
  parse_members (S f) (String quote r) acc
  = match scanstring r with
    | Some (k, r1) =>
        match skip_ws r1 with
        | String ":" r2 =>
            match parse_value f (skip_ws r2) with
            | Scanned v r3 =>
                match skip_ws r3 with
                | String "}" r4 => Scanned (VDict (dict_set k v acc)) r4
                | String "," r4 => parse_members f (skip_ws r4) (dict_set k v acc)
                | _ => Malformed
                end
            | Malformed => Malformed
            | OutOfFuel => OutOfFuel
            end
        | _ => Malformed
        end
    | None => Malformed
    end.
Proof. reflexivity. Qed.

(** The members written for a non-empty dict of strings scan back, one
    [dict_set] per member. *)
Lemma parse_members_flat (kvs : list (string * string)) :
  forall (fuel : nat) (acc : list (string * value)) (rest : string),
    kvs <> [] ->
    (List.length kvs < fuel)%nat ->
    parse_members fuel (members_text kvs ++ "}" ++ rest) acc
    = Scanned (VDict (stored kvs acc)) rest.
Proof.
  induction kvs as [| [k v] kvs IH]; intros fuel acc rest Hne Hfuel;
    [contradiction |].
  destruct fuel as [| [| f]]; cbn [List.length] in Hfuel; try lia.
  rewrite members_text_head, parse_members_step, scanstring_escape.
  change (skip_ws (": " ++ ?r)) with (String ":" (" " ++ r)).
  cbv iota beta.
  change (skip_ws (" " ++ String quote ?r)) with (String quote r).
  rewrite parse_value_string, scanstring_escape.
  destruct kvs as [| [k' v'] kvs].
  - reflexivity.
  - rewrite (members_text_head k' v' kvs ("}" ++ rest)).
    change (skip_ws (", " ++ ?r)) with (String "," (" " ++ r)).
    cbv iota beta.
    change (skip_ws (" " ++ String quote ?r)) with (String quote r).
    rewrite <- (members_text_head k' v' kvs ("}" ++ rest)).
    rewrite IH; [reflexivity | discriminate | cbn [List.length] in *; lia].
Qed.

Lemma members_text_length (kvs : list (string * string)) :
  (List.length kvs <= String.length (members_text kvs))%nat.
Proof.
  induction kvs as [| [k v] kvs IH]; [cbn; lia |].
  destruct kvs as [| kv kvs].
  - cbn [members_text List.length]. unfold dumps_str. cbn [String.length append]. lia.
  - change (members_text ((k, v) :: kv :: kvs))
      with (dumps_str k ++ ": " ++ dumps_str v ++ ", " ++ members_text (kv :: kvs)).
    rewrite !string_length_app. cbn [List.length String.length] in *. lia.
Qed.

(** What [json.dumps] writes for a dict of strings, with the newline that
    [log_analytics] adds, is decoded by [json.loads] into the dict. *)
Lemma json_loads_flat (kvs : list (string * string)) :
  json_loads (json_dumps (flat_dict kvs) ++ nl) = Ret (VDict (stored kvs [])).
Proof.
  rewrite json_dumps_flat. destruct kvs as [| [k v] kvs]; [reflexivity |].
  unfold json_loads. cbn [append]. rewrite string_app_assoc.
  assert (Hlen : (List.length ((k, v) :: kvs)
                  < 2 * String.length (members_text ((k, v) :: kvs) ++ "}" ++ nl) + 2)%nat).
  { rewrite string_length_app.
    pose proof (members_text_length ((k, v) :: kvs)). lia. }
  revert Hlen. rewrite (members_text_head k v kvs ("}" ++ nl)).
  intros Hlen.
  change (skip_ws (String "{" ?r)) with (String "{" r).
  unfold fuel_for. cbn [String.length].
  match goal with
  | |- context [parse_value ?n _] =>
      replace n with (S (2 * String.length
                           (String quote
                              (escape k ++
                               String quote
                                 (": " ++
                                  String quote
                                    (escape v ++
                                     String quote
                                       match kvs with
                                       | [] => "}" ++ nl
                                       | _ :: _ => ", " ++ members_text kvs ++ "}" ++ nl
                                       end)))) + 2))
        by (cbn [String.length]; lia)
  end.
  rewrite parse_value_object.
  rewrite <- (members_text_head k v kvs ("}" ++ nl)) in *.
  rewrite (parse_members_flat ((k, v) :: kvs) _ [] nl);
    [reflexivity | discriminate | exact Hlen].
Qed.

(* ================================================================= *)
(** ** Lines of the file *)

Lemma one_line_app (a b : string) : one_line (a ++ b) = one_line a && one_line b.
Proof.
  induction a as [| c a IH]; [reflexivity |].
  cbn [append one_line]. rewrite IH, andb_assoc. reflexivity.
Qed.

Lemma one_line_escape_char (c : ascii) : one_line (escape_char c) = true.
Proof.
  destruct c as [[|] [|] [|] [|] [|] [|] [|] [|]]; reflexivity.
Qed.

Lemma one_line_escape (s : string) : one_line (escape s) = true.
Proof.
  induction s as [| c s IH]; [reflexivity |].
  cbn [escape]. rewrite one_line_app, one_line_escape_char, IH. reflexivity.
Qed.

Lemma one_line_dumps_str (s : string) : one_line (dumps_str s) = true.
Proof.
  unfold dumps_str. change (String quote ?x) with (String quote "" ++ x).
  rewrite !one_line_app, one_line_escape. reflexivity.
Qed.

Lemma one_line_members_text (kvs : list (string * string)) :
  one_line (members_text kvs) = true.
Proof.
  induction kvs as [| [k v] kvs IH]; [reflexivity |].
  destruct kvs as [| kv kvs].
  - cbn [members_text]. rewrite !one_line_app, !one_line_dumps_str. reflexivity.
  - change (members_text ((k, v) :: kv :: kvs))
      with (dumps_str k ++ ": " ++ dumps_str v ++ ", " ++ members_text (kv :: kvs)).
    rewrite !one_line_app, !one_line_dumps_str, IH. reflexivity.
Qed.

(** [json.dumps] writes a dict of strings on one line. *)
Lemma one_line_flat_dict (kvs : list (string * string)) :
  one_line (json_dumps (flat_dict kvs)) = true.
Proof.
  rewrite json_dumps_flat, !one_line_app, one_line_members_text. reflexivity.
Qed.

Lemma readlines_nonempty (s : string) : s <> "" -> readlines s <> [].
Proof.
  destruct s as [| c s]; [contradiction |]. intros _. cbn [readlines].
  destruct (Ascii.eqb c LF); [discriminate |].
  destruct (Ascii.eqb c CR).
  - destruct s as [| c' s]; [discriminate |].
    destruct (Ascii.eqb c' LF); discriminate.
  - destruct (readlines s); discriminate.
Qed.

(** A text without terminators, followed by a newline, is one line. *)
Lemma readlines_one_line (s : string) :
  one_line s = true -> s <> "" -> readlines (s ++ nl) = [s ++ nl].
Proof.
  induction s as [| c s IH]; [contradiction |]. intros Hs _.
  cbn [one_line] in Hs. apply andb_prop in Hs as [Hc Hs].
  apply andb_prop in Hc as [Hlf Hcr].
  apply negb_true_iff in Hlf, Hcr.
  cbn [append readlines]. rewrite Hlf, Hcr.
  destruct s as [| c' s]; [reflexivity |].
  rewrite IH; [reflexivity | exact Hs | discriminate].
Qed.

Lemma ends_line_tail (x y : ascii) (c : string) :
  ends_line (String x (String y c)) = ends_line (String y c).
Proof. reflexivity. Qed.

(** What follows a text that ends a line starts a line of its own. *)
Lemma readlines_app (c t : string) :
  ends_line c = true ->
  (forall r, t <> String LF r) ->
  readlines (c ++ t) = (readlines c ++ readlines t)%list.
Proof.
  intros Hend Ht. induction c as [| x c IH]; [reflexivity |].
  cbn [append readlines].
  destruct (Ascii.eqb x LF) eqn:ELF.
  - cbn [app]. f_equal. apply IH.
    destruct c; [reflexivity | exact Hend].
  - destruct (Ascii.eqb x CR) eqn:ECR.
    + destruct c as [| y c].
      * cbn [append app]. destruct t as [| z t]; [reflexivity |].
        destruct (Ascii.eqb z LF) eqn:EZ; [| reflexivity].
        apply Ascii.eqb_eq in EZ. subst z. elim (Ht t). reflexivity.
      * rewrite ends_line_tail in Hend. specialize (IH Hend).
        cbn [append] in *.
        destruct (Ascii.eqb y LF) eqn:EY.
        -- cbn [readlines] in IH. rewrite EY in IH. cbn [app] in *.
           injection IH as IH. rewrite IH. reflexivity.
        -- cbn [app]. f_equal. exact IH.
    + destruct c as [| y c].
      * cbn [ends_line] in Hend. rewrite ELF, ECR in Hend. discriminate Hend.
      * rewrite ends_line_tail in Hend. specialize (IH Hend). rewrite IH.
        pose proof (readlines_nonempty (String y c)) as Hne.
        destruct (readlines (String y c)) as [| l ls];
          [elim Hne; [discriminate | reflexivity] |].
        reflexivity.
Qed.

(** Appending a one-line record to a log that ends a line adds exactly one
    line to it. *)
Lemma readlines_append_record (c line : string) :
  ends_line c = true ->
  one_line line = true ->
  line <> "" ->
  readlines (c ++ line ++ nl) = (readlines c ++ [(line ++ nl)%string])%list.
Proof.
  intros Hc Hl Hne. rewrite readlines_app.
  - rewrite readlines_one_line by assumption. reflexivity.
  - exact Hc.
  - intros r Hr. destruct line as [| a line]; [contradiction |].
    cbn [append] in Hr. injection Hr as -> _.
    cbn [one_line] in Hl. rewrite Ascii.eqb_refl in Hl. discriminate Hl.
Qed.

(* ================================================================= *)
(** ** The entries of the topic dict *)

Lemma key_eqb_str_r (k : value) (t : string) :
  key_eqb k (VStr t) = true -> k = VStr t.
Proof.
  destruct k; cbn; try discriminate.
  intros H. apply String.eqb_eq in H. subst. reflexivity.
Qed.

Lemma key_eqb_str_l (k : value) (t : string) :
  key_eqb (VStr t) k = true -> k = VStr t.
Proof.
  destruct k; cbn; try discriminate.
  intros H. apply String.eqb_eq in H. subst. reflexivity.
Qed.

Lemma key_eqb_str_refl (t : string) : key_eqb (VStr t) (VStr t) = true.
Proof. cbn. apply String.eqb_refl. Qed.

Lemma counts_get_entries (t : string) (d : list (value * Z)) :
  counts_get (VStr t) d 0
  = match entries_for t d with
    | [] => 0
    | e :: _ => snd e
    end.
Proof.
  induction d as [| [k n] d IH]; [reflexivity |].
  cbn [counts_get entries_for filter fst].
  destruct (key_eqb k (VStr t)); [reflexivity | exact IH].
Qed.

Lemma entries_for_perm (t : string) (d d' : list (value * Z)) :
  Permutation d d' -> Permutation (entries_for t d) (entries_for t d').
Proof.
  unfold entries_for. intros H.
  induction H as [| x l l' H IH | x y l | l l' l'' H1 IH1 H2 IH2]; cbn [filter].
  - constructor.
  - destruct (key_eqb (fst x) (VStr t)); [constructor |]; exact IH.
  - destruct (key_eqb (fst x) (VStr t)), (key_eqb (fst y) (VStr t));
      try reflexivity. apply perm_swap.
  - etransitivity; eassumption.
Qed.

(** Sorting does not change the count a unique entry reports. *)
Lemma topic_count_sorted (d : list (value * Z)) (t : string) :
  names_unique d ->
  topic_count (sorted_by_count_desc d) t = topic_count d t.
Proof.
  intros Hu. unfold topic_count. rewrite !counts_get_entries.
  pose proof (entries_for_perm t _ _ (sorted_by_count_desc_perm d)) as Hp.
  specialize (Hu t).
  destruct (entries_for t d) as [| e [| e' es]]; cbn [List.length] in Hu.
  - apply Permutation_nil in Hp. rewrite Hp. reflexivity.
  - apply Permutation_length_1_inv in Hp. rewrite Hp. reflexivity.
  - lia.
Qed.

Lemma entries_for_set_other (k : value) (n : Z) (d : list (value * Z)) (t : string) :
  k <> VStr t -> entries_for t (counts_set k n d) = entries_for t d.
Proof.
  intros Hk. unfold entries_for. induction d as [| [k' n'] d IH].
  - cbn. destruct (key_eqb k (VStr t)) eqn:E; [| reflexivity].
    apply key_eqb_str_r in E. contradiction.
  - cbn [counts_set]. destruct (key_eqb k' k) eqn:E; cbn [filter fst].
    + destruct (key_eqb k' (VStr t)) eqn:E'; [| reflexivity].
      apply key_eqb_str_r in E'. subst k'.
      apply key_eqb_str_l in E. contradiction.
    + rewrite IH. reflexivity.
Qed.

Lemma entries_for_set_same (n : Z) (d : list (value * Z)) (t : string) :
  (List.length (entries_for t d) <= 1)%nat ->
  (List.length (entries_for t (counts_set (VStr t) n d)) <= 1)%nat.
Proof.
  unfold entries_for. induction d as [| [k' n'] d IH]; intros H.
  - cbn. rewrite String.eqb_refl. cbn. lia.
  - cbn [counts_set]. cbn [filter fst] in H.
    destruct (key_eqb k' (VStr t)) eqn:E; cbn [filter fst]; rewrite E.
    + exact H.
    + apply IH, H.
Qed.

(** Storing a count keeps the names unique. *)
Lemma names_unique_set (k : value) (n : Z) (d : list (value * Z)) :
  names_unique d -> names_unique (counts_set k n d).
Proof.
  intros Hu t. destruct (key_eqb k (VStr t)) eqn:E.
  - apply key_eqb_str_r in E. subst k. apply entries_for_set_same, Hu.
  - rewrite entries_for_set_other; [apply Hu |].
    intros ->. rewrite key_eqb_str_refl in E. discriminate E.
Qed.

Lemma counts_get_set (t : string) (n : Z) (d : list (value * Z)) (default : Z) :
  counts_get (VStr t) (counts_set (VStr t) n d) default = n.
Proof.
  induction d as [| [k' n'] d IH].
  - cbn. rewrite String.eqb_refl. reflexivity.
  - cbn [counts_set]. destruct (key_eqb k' (VStr t)) eqn:E;
      cbn [counts_get]; rewrite E; [reflexivity | exact IH].
Qed.

Lemma process_line_names_unique (line : string) (l : locals) :
  names_unique (topic_counts l) ->
  names_unique (topic_counts (snd (process_line line l))).
Proof.
  intros Hl.
  destruct (json_loads line) as [data | e0] eqn:H.
  - rewrite (process_line_decoded line data l H).
    destruct data;
      try (rewrite count_record_not_dict by discriminate; exact Hl).
    rewrite count_record_dict.
    destruct (hashable (topic_of d)); cbn; [| exact Hl].
    apply names_unique_set, Hl.
  - rewrite (process_line_undecodable line e0 l H). exact Hl.
Qed.

(* ================================================================= *)
(** ** Logging, then summarising *)

Lemma log_analytics_appends (data : value) (w : world) :
  deny_append (disk w) = None ->
  log_analytics data w
  = (Ret tt,
     World (api_key w) (remote w) (posts w) (trace w)
           (Filesystem (Some (log_content w ++ json_dumps data ++ nl))
                       (deny_read (disk w)) (deny_append (disk w)))).
Proof.
  intros Hd. unfold log_analytics, try_except, append_text, log_content.
  rewrite Hd. reflexivity.
Qed.

(** A summary that was returned comes from a scan of the log that ended
    normally. *)
Lemma prior_scan (w w0 : world) (s : summary) :
  deny_read (disk w) = None ->
  get_analytics_dashboard_data w = (Ret s, w0) ->
  exists l0,
    for_each (readlines (log_content w)) process_line init_locals = (Ret tt, l0)
    /\ s = summary_of l0
    /\ names_unique (topic_counts l0).
Proof.
  intros Hd. unfold log_content.
  assert (Hinit : names_unique (topic_counts init_locals))
    by (intros t; cbn; lia).
  destruct (file (disk w)) as [c |] eqn:Hf.
  - rewrite (dashboard_of_content w c) by (unfold open_read; rewrite Hd, Hf; reflexivity).
    pose proof (for_each_invariant process_line
                  (fun l => names_unique (topic_counts l))
                  process_line_names_unique (readlines c) init_locals Hinit) as Hu.
    destruct (for_each (readlines c) process_line init_locals) as [[[] | e] l];
      [| discriminate].
    intros [= <- _]. eauto.
  - rewrite (dashboard_of_open_error w file_not_found)
      by (unfold open_read; rewrite Hd, Hf; reflexivity).
    intros [= <- _]. exists init_locals. auto.
Qed.

(** The dict decoded from the line of a record, and what the scan reads in
    it. *)
Lemma record_line_decoded (r : InteractionRecord) :
  exists d,
    json_loads (json_dumps (record_dict r) ++ nl) = Ret (VDict d)
    /\ topic_of d = VStr (topic r)
    /\ forall l,
         after_record d l
         = Locals (total_queries l + 1) (topic_counts l)
                  (positive_ratings l + positive_part r)
                  (negative_ratings l + negative_part r).
Proof.
  exists (stored (record_fields r) []).
  split; [apply (json_loads_flat (record_fields r)) |].
  unfold record_fields, positive_part, negative_part.
  destruct (rating r) as [[|] |]; (split; [reflexivity |]); intros l;
    unfold after_record; cbn; f_equal; lia.
Qed.

(** C8 (as amended). When the log is empty or ends with a line terminator,
    can be read and can be appended to, and gives a summary, then after
    logging a record the summary counts that record exactly once: one more
    query, one more for the rating of the record, one more for its topic. *)
Theorem logged_record_counted (r : InteractionRecord) (w w0 : world) (s : summary) :
  deny_append (disk w) = None ->
  deny_read (disk w) = None ->
  ends_line (log_content w) = true ->
  get_analytics_dashboard_data w = (Ret s, w0) ->
  let w1 := snd (log_analytics (record_dict r) w) in
  fst (log_analytics (record_dict r) w) = Ret tt
  /\ exists s',
       get_analytics_dashboard_data w1 = (Ret s', w1)
       /\ totalQueries s' = totalQueries s + 1
       /\ positiveRatings s' = positiveRatings s + positive_part r
       /\ negativeRatings s' = negativeRatings s + negative_part r
       /\ topic_count (topics s') (topic r) = topic_count (topics s) (topic r) + 1.
Proof.
  intros Ha Hr Hend Hs. cbv zeta.
  rewrite (log_analytics_appends (record_dict r) w Ha). cbn [fst snd].
  split; [reflexivity |].
  destruct (prior_scan w w0 s Hr Hs) as (l0 & Hscan & -> & Hu).
  destruct (record_line_decoded r) as (d & Hd & Htopic & Hafter).
  erewrite dashboard_of_content
    by (unfold open_read; cbn [disk deny_read file]; rewrite Hr; reflexivity).
  rewrite readlines_append_record.
  - rewrite for_each_app, Hscan. cbn [for_each]. unfold bind at 1.
    rewrite (process_line_record _ d l0 Hd) by (rewrite Htopic; reflexivity).
    cbn [ret]. eexists. split; [reflexivity |].
    rewrite Htopic, Hafter. unfold summary_of, with_topic.
    cbn [totalQueries positiveRatings negativeRatings topics total_queries
           positive_ratings negative_ratings topic_counts].
    repeat split.
    rewrite !topic_count_sorted by (try apply names_unique_set; exact Hu).
    unfold topic_count. apply counts_get_set.
  - exact Hend.
  - apply (one_line_flat_dict (record_fields r)).
  - change (record_dict r) with (flat_dict (record_fields r)).
    rewrite json_dumps_flat. discriminate.
Qed.

Lemma logged_record_counted_witness :
  let w := world_with_log (Some abc_log) in
  let w1 := snd (log_analytics (record_dict (record_about "B")) w) in
  fst (log_analytics (record_dict (record_about "B")) w) = Ret tt
  /\ exists s',
       get_analytics_dashboard_data w1 = (Ret s', w1)
       /\ totalQueries s' = 11 + 1
       /\ positiveRatings s' = 11 + 1
       /\ negativeRatings s' = 0 + 0
       /\ topic_count (topics s') "B" = 3 + 1.
Proof.
  apply (logged_record_counted (record_about "B") (world_with_log (Some abc_log))
           (world_with_log (Some abc_log))
           (Summary 11 11 0 [(VStr "A", 5); (VStr "B", 3); (VStr "C", 3)]));
    vm_compute; reflexivity.
Defined.

(** C8, as stated, fails: when the last line of the log has not been ended,
    the record is written onto that line, the line no longer decodes, and
    the summary loses a query instead of gaining one. *)
Lemma record_after_unfinished_line :
  ~ (forall (r : InteractionRecord) (w w0 : world) (s : summary),
        deny_append (disk w) = None ->
        deny_read (disk w) = None ->
        get_analytics_dashboard_data w = (Ret s, w0) ->
        exists s',
          fst (get_analytics_dashboard_data
                 (snd (log_analytics (record_dict r) w))) = Ret s'
          /\ totalQueries s' = totalQueries s + 1).
Proof.
  intros H.
  destruct (H (record_about "A") (world_with_log (Some unfinished_log))
              (world_with_log (Some unfinished_log))
              (Summary 1 0 0 [(VStr "A", 1)]) eq_refl eq_refl)
    as (s' & Hs & Ht).
  - vm_compute. reflexivity.
  - vm_compute in Hs. injection Hs as <-. vm_compute in Ht. discriminate Ht.
Qed.

(* ================================================================= *)
(** ** The fuel of the scanner *)

Lemma skip_ws_length (s : string) : (String.length (skip_ws s) <= String.length s)%nat.
Proof.
  induction s as [| c s IH]; cbn; [lia |].
  destruct (is_ws c); cbn; lia.
Qed.

Lemma scan_digits_length (s ds r : string) :
  scan_digits s = (ds, r) -> (String.length r <= String.length s)%nat.
Proof.
  revert ds r. induction s as [| c s IH]; intros ds r; cbn.
  - intros [= <- <-]. cbn. lia.
  - destruct (is_digit c).
    + destruct (scan_digits s) as [ds' r'] eqn:E. intros [= <- <-].
      specialize (IH ds' r' eq_refl). lia.
    + intros [= <- <-]. cbn. lia.
Qed.

Lemma after_prefix_length (p s r : string) :
  after_prefix p s = Some r -> (String.length r <= String.length s)%nat.
Proof.
  revert s. induction p as [| a p IH]; intros s; cbn.
  - intros [= <-]. lia.
  - destruct s as [| b s]; [discriminate |].
    destruct (Ascii.eqb a b); [| discriminate].
    intros H. apply IH in H. cbn. lia.
Qed.

Lemma scan_sign_length (s r : string) (b : bool) :
  scan_sign s = (b, r) -> (String.length r <= String.length s)%nat.
Proof.
  unfold scan_sign. intros H.
  repeat match type of H with
         | context [match ?x with _ => _ end] => destruct x
         end;
    injection H as <- <-; cbn; lia.
Qed.

Lemma scan_int_part_length (s ip r : string) :
  scan_int_part s = Some (ip, r) -> (String.length r <= String.length s)%nat.
Proof.
  unfold scan_int_part. destruct s as [| c s]; [discriminate |].
  destruct (scan_digits (String c s)) as [ds r'] eqn:E.
  apply scan_digits_length in E. intros H.
  repeat match type of H with
         | context [match ?x with _ => _ end] => destruct x
         end;
    try discriminate H; injection H as <- <-; cbn in *; lia.
Qed.

Lemma scan_fraction_length (s ds r : string) :
  scan_fraction s = (ds, r) -> (String.length r <= String.length s)%nat.
Proof.
  unfold scan_fraction. destruct s as [| c s]; [intros [= <- <-]; lia |].
  destruct (scan_digits s) as [ds' r'] eqn:E.
  apply scan_digits_length in E. intros H.
  repeat match type of H with
         | context [match ?x with _ => _ end] => destruct x
         end;
    injection H as <- <-; cbn in *; lia.
Qed.

Lemma scan_exponent_length (s r : string) (ex : option Z) :
  scan_exponent s = (ex, r) -> (String.length r <= String.length s)%nat.
Proof.
  unfold scan_exponent. destruct s as [| c s]; [intros [= <- <-]; lia |].
  destruct (Ascii.eqb c "e" || Ascii.eqb c "E"); [| intros [= <- <-]; lia].
  destruct (match s with
            | String "-" t => (true, t)
            | String "+" t => (false, t)
            | _ => (false, s)
            end) as [eneg r'] eqn:Es.
  assert (Hs : (String.length r' <= String.length s)%nat).
  { repeat match type of Es with
           | context [match ?x with _ => _ end] => destruct x
           end;
      injection Es as <- <-; cbn; lia. }
  destruct (scan_digits r') as [ds r''] eqn:E.
  apply scan_digits_length in E.
  destruct ds; intros [= <- <-]; cbn in *; lia.
Qed.

Lemma scan_number_length (s r : string) (v : value) :
  scan_number s = Some (v, r) -> (String.length r <= String.length s)%nat.
Proof.
  unfold scan_number.
  destruct (scan_sign s) as [neg s0] eqn:E0. apply scan_sign_length in E0.
  destruct (scan_int_part s0) as [[ip r1] |] eqn:E1; [| discriminate].
  apply scan_int_part_length in E1.
  destruct (scan_fraction r1) as [frac r2] eqn:E2. apply scan_fraction_length in E2.
  destruct (scan_exponent r2) as [ex r3] eqn:E3. apply scan_exponent_length in E3.
  destruct frac, ex; intros [= _ <-]; lia.
Qed.

Lemma scan_scalar_length (s r : string) (v : value) :
  scan_scalar s = Scanned v r -> (String.length r <= String.length s)%nat.
Proof.
  unfold scan_scalar. intros H.
  destruct (after_prefix "null" s) eqn:E1;
    [apply after_prefix_length in E1; injection H as _ <-; exact E1 |].
  destruct (after_prefix "true" s) eqn:E2;
    [apply after_prefix_length in E2; injection H as _ <-; exact E2 |].
  destruct (after_prefix "false" s) eqn:E3;
    [apply after_prefix_length in E3; injection H as _ <-; exact E3 |].
  destruct (scan_number s) as [[v' r'] |] eqn:En.
  { apply scan_number_length in En. injection H as _ <-. exact En. }
  destruct (after_prefix "NaN" s) eqn:E4;
    [apply after_prefix_length in E4; injection H as _ <-; exact E4 |].
  destruct (after_prefix "Infinity" s) eqn:E5;
    [apply after_prefix_length in E5; injection H as _ <-; exact E5 |].
  destruct (after_prefix "-Infinity" s) eqn:E6;
    [apply after_prefix_length in E6; injection H as _ <-; exact E6 |].
  discriminate H.
Qed.

Lemma scanstring_length (n : nat) :
  forall s t r,
    (String.length s <= n)%nat ->
    scanstring s = Some (t, r) ->
    (String.length r <= String.length s)%nat.
Proof.
  induction n as [| n IH]; intros s t r Hn H.
  - destruct s; [discriminate H | cbn in Hn; lia].
  - destruct s as [| c s]; [discriminate H |].
    cbn [scanstring] in H. cbn [String.length] in *.
    repeat match type of H with
           | context [if ?x then _ else _] => destruct x
           | context [match scanstring ?x with _ => _ end] =>
               let E := fresh "E" in
               destruct (scanstring x) as [[? ?] |] eqn:E;
               [apply IH in E; [| cbn [String.length] in *; lia] |]
           | context [match ?x with _ => _ end] => destruct x
           end;
      try discriminate H; injection H as _ <-; cbn [String.length] in *; lia.
Qed.

(** With at least two units of fuel per character the scanner never runs
    out, and what it leaves is no longer than what it was given. *)
Lemma parse_fuel (f : nat) :
  (forall s,
      (2 * String.length s + 1 <= f)%nat ->
      parse_value f s <> OutOfFuel
      /\ forall v r, parse_value f s = Scanned v r ->
                     (String.length r <= String.length s)%nat)
  /\ (forall s acc,
         (2 * String.length s + 2 <= f)%nat ->
         parse_items f s acc <> OutOfFuel
         /\ forall v r, parse_items f s acc = Scanned v r ->
                        (String.length r <= String.length s)%nat)
  /\ (forall s acc,
         (2 * String.length s + 2 <= f)%nat ->
         parse_members f s acc <> OutOfFuel
         /\ forall v r, parse_members f s acc = Scanned v r ->
                        (String.length r <= String.length s)%nat).
Proof.
  induction f as [| f (IHv & IHi & IHm)].
  { repeat split; intros; lia. }
  split; [| split].
  - (* a value *)
    intros s Hf. destruct s as [| c s]; [cbn; split; [discriminate | discriminate] |].
    cbn [parse_value]. cbn [String.length] in Hf.
    destruct (Ascii.eqb c quote).
    { destruct (scanstring s) as [[t r'] |] eqn:E; split; try discriminate.
      intros v r [= _ <-].
      apply (scanstring_length (String.length s)) in E; [cbn; lia | lia]. }
    pose proof (skip_ws_length s) as Hws.
    destruct (Ascii.eqb c "{").
    { destruct (skip_ws s) as [| q r'] eqn:Es; [split; discriminate |].
      assert (Hm : (2 * String.length (String q r') + 2 <= f)%nat) by lia.
      destruct (IHm (String q r') [] Hm) as [Hno Hlen].
      assert (Hgen : (if Ascii.eqb q quote then parse_members f (String q r') []
                      else Malformed) <> OutOfFuel
                     /\ forall v r,
                          (if Ascii.eqb q quote then parse_members f (String q r') []
                           else Malformed) = Scanned v r ->
                          (String.length r <= String.length (String c s))%nat).
      { destruct (Ascii.eqb q quote); [| split; discriminate].
        split; [exact Hno |]. intros v r Hp. apply Hlen in Hp.
        cbn [String.length] in *. lia. }
      destruct q as [[|] [|] [|] [|] [|] [|] [|] [|]]; try exact Hgen.
      split; [discriminate |]. intros v r [= _ <-].
      cbn [String.length] in *. lia. }
    destruct (Ascii.eqb c "[").
    { assert (Hi : (2 * String.length (skip_ws s) + 2 <= f)%nat) by lia.
      destruct (IHi (skip_ws s) [] Hi) as [Hno Hlen].
      assert (Hgen : parse_items f (skip_ws s) [] <> OutOfFuel
                     /\ forall v r,
                          parse_items f (skip_ws s) [] = Scanned v r ->
                          (String.length r <= String.length (String c s))%nat).
      { split; [exact Hno |]. intros v r Hp. apply Hlen in Hp.
        cbn [String.length]. lia. }
      destruct (skip_ws s) as [| q r'] eqn:Es; [exact Hgen |].
      destruct q as [[|] [|] [|] [|] [|] [|] [|] [|]]; try exact Hgen.
      split; [discriminate |]. intros v r [= _ <-].
      cbn [String.length] in *. lia. }
    split.
    + unfold scan_scalar.
      repeat match goal with
             | |- context [match ?x with _ => _ end] => destruct x
             end; discriminate.
    + intros v r H. apply scan_scalar_length in H. exact H.
  - (* the items of an array *)
    intros s acc Hf. cbn [parse_items].
    assert (Hv : (2 * String.length s + 1 <= f)%nat) by lia.
    destruct (IHv s Hv) as [Hno Hlen].
    destruct (parse_value f s) as [v r | |] eqn:Ev;
      [| split; discriminate | contradiction].
    specialize (Hlen v r eq_refl).
    pose proof (skip_ws_length r) as Hws.
    destruct (skip_ws r) as [| q r'] eqn:Es; [split; discriminate |].
    pose proof (skip_ws_length r') as Hws'.
    assert (Hi : (2 * String.length (skip_ws r') + 2 <= f)%nat)
      by (cbn [String.length] in *; lia).
    destruct (IHi (skip_ws r') (v :: acc) Hi) as [Hno' Hlen'].
    destruct q as [[|] [|] [|] [|] [|] [|] [|] [|]];
      try (split; discriminate);
      first [ split; [exact Hno' |]; intros v' r0 Hp; apply Hlen' in Hp;
              cbn [String.length] in *; lia
            | split; [discriminate |]; intros v' r0 [= _ <-];
              cbn [String.length] in *; lia ].
  - (* the members of an object *)
    intros s acc Hf. cbn [parse_members].
    destruct s as [| q s]; [split; discriminate |].
    destruct (Ascii.eqb q quote); [| split; discriminate].
    destruct (scanstring s) as [[k r1] |] eqn:Ek; [| split; discriminate].
    apply (scanstring_length (String.length s)) in Ek; [| lia].
    pose proof (skip_ws_length r1) as Hw1.
    destruct (skip_ws r1) as [| c1 r2] eqn:Es1; [split; discriminate |].
    pose proof (skip_ws_length r2) as Hw2.
    cbn [String.length] in *.
    assert (Hv : (2 * String.length (skip_ws r2) + 1 <= f)%nat) by lia.
    destruct (IHv (skip_ws r2) Hv) as [Hno Hlen].
    assert (Hgen :
              match parse_value f (skip_ws r2) with
              | Scanned v r3 =>
                  match skip_ws r3 with
                  | String "}" r4 => Scanned (VDict (dict_set k v acc)) r4
                  | String "," r4 =>
                      parse_members f (skip_ws r4) (dict_set k v acc)
                  | _ => Malformed
                  end
              | Malformed => Malformed
              | OutOfFuel => OutOfFuel
              end <> OutOfFuel
              /\ forall v r,
                   match parse_value f (skip_ws r2) with
                   | Scanned v r3 =>
                       match skip_ws r3 with
                       | String "}" r4 => Scanned (VDict (dict_set k v acc)) r4
                       | String "," r4 =>
                           parse_members f (skip_ws r4) (dict_set k v acc)
                       | _ => Malformed
                       end
                   | Malformed => Malformed
                   | OutOfFuel => OutOfFuel
                   end = Scanned v r ->
                   (String.length r <= S (String.length s))%nat).
    { destruct (parse_value f (skip_ws r2)) as [v r3 | |] eqn:Ev;
        [| split; discriminate | contradiction].
      specialize (Hlen v r3 eq_refl).
      pose proof (skip_ws_length r3) as Hw3.
      destruct (skip_ws r3) as [| c3 r4] eqn:Es3; [split; discriminate |].
      pose proof (skip_ws_length r4) as Hw4.
      cbn [String.length] in *.
      assert (Hm : (2 * String.length (skip_ws r4) + 2 <= f)%nat) by lia.
      destruct (IHm (skip_ws r4) (dict_set k v acc) Hm) as [Hno' Hlen'].
      destruct c3 as [[|] [|] [|] [|] [|] [|] [|] [|]];
        try (split; discriminate);
        first [ split; [discriminate |]; intros v' r0 [= _ <-]; lia
              | split; [exact Hno' |]; intros v' r0 Hp; apply Hlen' in Hp; lia ]. }
    destruct c1 as [[|] [|] [|] [|] [|] [|] [|] [|]];
      try (split; discriminate).
    exact Hgen.
Qed.

(** [json_loads] never reports a document as undecodable for lack of fuel. *)
Lemma json_loads_fuel (s : string) :
  parse_value (fuel_for (skip_ws s)) (skip_ws s) <> OutOfFuel.
Proof.
  apply (proj1 (parse_fuel (fuel_for (skip_ws s)))). unfold fuel_for. lia.
Qed.

(* ================================================================= *)
(** ** The shape of a log that only [log_analytics] writes *)

Lemma ends_line_newline (x : string) : ends_line (x ++ nl) = true.
Proof.
  induction x as [| c x IH]; [reflexivity |].
  cbn [append]. destruct (x ++ nl) as [| c' y] eqn:E.
  - destruct x; discriminate E.
  - rewrite ends_line_tail. exact IH.
Qed.

(** Every log that [log_analytics] has appended to ends with a line
    terminator, so the next record starts a line of its own. *)
Lemma log_analytics_ends_line (data : value) (w : world) :
  deny_append (disk w) = None ->
  ends_line (log_content (snd (log_analytics data w))) = true.
Proof.
  intros Hd. rewrite (log_analytics_appends data w Hd).
  unfold log_content. cbn [snd disk file].
  rewrite <- string_app_assoc. apply ends_line_newline.
Qed.

(* ================================================================= *)
(** ** More on the retry loop *)

Section RetryLoopMore.

Variables (full_url : string) (payload : value).

(** One iteration of the loop, case by case. *)
Lemma fetch_loop_step (n : nat) (i retries delay : Z) (w : world) :
  fetch_loop (S n) i full_url payload retries delay w
  = let w1 := with_post w full_url payload in
    match attempt_result (remote w (posts w) full_url payload) with
    | Ret v => (Ret v, w1)
    | Raise e =>
        if is_RequestException (exn_class_of e) then
          if i <? retries - 1 then
            let w2 := with_event w1 (StError (retry_message delay e)) in
            if delay <? 0 then (Raise negative_sleep, w2)
            else fetch_loop n (i + 1) full_url payload retries (delay * 2)
                            (with_event w2 (Sleep delay))
          else (Raise e, with_event w1 (StError (exhausted_message e)))
        else (Raise e, w1)
    end.
Proof.
  cbn [fetch_loop]. unfold try_except. rewrite attempt_spec. cbv zeta.
  destruct (attempt_result (remote w (posts w) full_url payload)) as [v | e];
    [reflexivity |].
  destruct (is_RequestException (exn_class_of e)); [| reflexivity].
  destruct (i <? retries - 1); [| reflexivity].
  unfold bind at 1. unfold st_error at 1, emit at 1.
  unfold bind at 1. unfold time_sleep at 1.
  destruct (delay <? 0); reflexivity.
Qed.

(** Whatever the remote end does, a run of the loop only adds events: at
    most one POST per iteration, each to the same URL with the same
    payload, at most one sleep between two POSTs; it leaves the key, the
    remote end and the disk alone. *)
Lemma fetch_loop_frame (n : nat) :
  forall (i retries delay : Z) (w : world),
    retries <= i + Z.of_nat n ->
    exists evs,
      extends w (snd (fetch_loop n i full_url payload retries delay w)) evs
      /\ posts (snd (fetch_loop n i full_url payload retries delay w))
         = (posts w + post_count evs)%nat
      /\ (post_count evs <= n)%nat
      /\ (List.length (sleeps evs) <= Nat.pred n)%nat
      /\ posts_all_to full_url payload evs.
Proof.
  induction n as [| n IH]; intros i retries delay w Hrel.
  - exists []. frame_done. symmetry. apply app_nil_r.
  - rewrite fetch_loop_step. cbv zeta.
    destruct (attempt_result (remote w (posts w) full_url payload)) as [v | e].
    { exists [Post full_url payload]. frame_done. }
    destruct (is_RequestException (exn_class_of e)).
    2:{ exists [Post full_url payload]. frame_done. }
    destruct (i <? retries - 1) eqn:Hi.
    2:{ exists [Post full_url payload; StError (exhausted_message e)].
        frame_done. }
    apply Z.ltb_lt in Hi.
    destruct (delay <? 0).
    { exists [Post full_url payload; StError (retry_message delay e)].
      frame_done. }
    match goal with
    | |- context [fetch_loop n _ _ _ _ _ ?x] => set (w2 := x)
    end.
    destruct (IH (i + 1) retries (delay * 2) w2)
      as (evs & [Hk Hr Hd Ht] & Hp & Hc & Hs & Hall); [lia |].
    exists ([Post full_url payload; StError (retry_message delay e); Sleep delay]
              ++ evs)%list.
    split; [| split; [| split; [| split]]].
    + constructor; [rewrite Hk | rewrite Hr | rewrite Hd | rewrite Ht];
        try reflexivity.
      subst w2. unfold with_event, with_post. cbn.
      repeat rewrite <- app_assoc. reflexivity.
    + rewrite Hp. subst w2. unfold post_count, with_event, with_post. cbn. lia.
    + unfold post_count in *. cbn. lia.
    + destruct n as [| n]; [lia |].
      unfold sleeps in *. cbn in *. lia.
    + unfold posts_all_to in *. repeat constructor. exact Hall.
Qed.


End RetryLoopMore.

Lemma fetch_unfold (url : string) (payload : value) (retries delay : Z) (w : world) :
  exponential_backoff_fetch url payload retries delay w
  = fetch_loop (Z.to_nat retries) 0 (url ++ "?key=" ++ api_key w) payload
               retries delay w.
Proof. reflexivity. Qed.




(** X2. An exception of an attempt that is not a request exception is not
    retried: the fetch raises it after that one POST, without notification
    and without sleeping. *)
Theorem fetch_other_exception_not_retried
        (url : string) (payload : value) (retries delay : Z) (w : world) (e : exn) :
  0 < retries ->
  attempt_result (remote w (posts w) (url ++ "?key=" ++ api_key w) payload)
  = Raise e ->
  is_RequestException (exn_class_of e) = false ->
  exponential_backoff_fetch url payload retries delay w
  = (Raise e, with_post w (url ++ "?key=" ++ api_key w) payload).
Proof.
  intros Hr He Hc. rewrite fetch_unfold.
  destruct (Z.to_nat retries) as [| n] eqn:En; [lia |].
  rewrite fetch_loop_step, He, Hc. reflexivity.
Qed.

Lemma fetch_other_exception_not_retried_witness :
  exponential_backoff_fetch "u" VNone 5 1 (world_with (always (PostRaises key_error)))
  = (Raise key_error,
     with_post (world_with (always (PostRaises key_error))) ("u" ++ "?key=" ++ "k")
               VNone).
Proof.
  apply (fetch_other_exception_not_retried "u" VNone 5 1
           (world_with (always (PostRaises key_error))) key_error);
    [lia | reflexivity | reflexivity].
Defined.

(** X3. With [retries] zero or negative the loop body never runs: no POST
    is made and the fetch returns [None]. *)
Theorem fetch_without_attempts
        (url : string) (payload : value) (retries delay : Z) (w : world) :
  retries <= 0 ->
  exponential_backoff_fetch url payload retries delay w = (Ret VNone, w).
Proof.
  intros Hr. rewrite fetch_unfold.
  replace (Z.to_nat retries) with 0%nat by lia. reflexivity.
Qed.

Lemma fetch_without_attempts_witness :
  exponential_backoff_fetch "u" VNone 0 1 (world_with (always (PostRaises refused)))
  = (Ret VNone, world_with (always (PostRaises refused))).
Proof.
  apply (fetch_without_attempts "u" VNone 0 1
           (world_with (always (PostRaises refused)))).
  lia.
Defined.



(** X5. Whatever the remote end does, the fetch makes at most [retries]
    POSTs, all to [url?key=API_KEY] with the given payload, sleeps at most
    [retries - 1] times, and leaves the key and the analytics file alone. *)
Theorem fetch_bounded
        (url : string) (payload : value) (retries delay : Z) (w : world) :
  exists evs,
    trace (snd (exponential_backoff_fetch url payload retries delay w))
    = (trace w ++ evs)%list
    /\ api_key (snd (exponential_backoff_fetch url payload retries delay w))
       = api_key w
    /\ disk (snd (exponential_backoff_fetch url payload retries delay w)) = disk w
    /\ (post_count evs <= Z.to_nat retries)%nat
    /\ (List.length (sleeps evs) <= Nat.pred (Z.to_nat retries))%nat
    /\ posts_all_to (url ++ "?key=" ++ api_key w) payload evs.
Proof.
  rewrite fetch_unfold.
  destruct (fetch_loop_frame (url ++ "?key=" ++ api_key w) payload
              (Z.to_nat retries) 0 retries delay w)
    as (evs & Hext & _ & Hpc & Hsl & Hall); [lia |].
  exists evs. repeat split; try assumption; apply Hext.
Qed.



(* ================================================================= *)
(** ** More on the two calls *)

Lemma lstrip_starts (s : string) : starts_blank (lstrip s) = false.
Proof.
  induction s as [| c s IH]; [reflexivity |].
  cbn [lstrip]. destruct (is_space c) eqn:E; [exact IH | cbn; exact E].
Qed.

Lemma rstrip_starts (s : string) :
  starts_blank s = false -> starts_blank (rstrip s) = false.
Proof.
  destruct s as [| c s]; [reflexivity |]. cbn [starts_blank rstrip]. intros Hc.
  destruct (rstrip s); [rewrite Hc |]; cbn; exact Hc.
Qed.

Lemma rstrip_ends (s : string) : ends_blank (rstrip s) = false.
Proof.
  induction s as [| c s IH]; [reflexivity |].
  cbn [rstrip]. destruct (rstrip s) as [| a r].
  - destruct (is_space c) eqn:E; [reflexivity | cbn; exact E].
  - exact IH.
Qed.

(** [s.strip()] neither starts nor ends with a blank. *)
Lemma strip_trimmed (s : string) :
  starts_blank (strip s) = false /\ ends_blank (strip s) = false.
Proof.
  unfold strip. split; [apply rstrip_starts, lstrip_starts | apply rstrip_ends].
Qed.

(** X7. When the fetch returns an envelope of the expected shape,
    [get_gemini_response] returns the text of its first candidate as it is,
    and notifies nothing. *)
Theorem chat_returns_candidate_text
        (prompt : string) (w w1 : world) (env : value) (t : string) :
  exponential_backoff_fetch API_URL (user_payload prompt) 5 1 w = (Ret env, w1) ->
  candidate_text env = Some t ->
  get_gemini_response prompt w = (Ret (VStr t), w1).
Proof.
  intros Hf Ht. rewrite (chat_on_envelope w w1 env prompt Hf).
  destruct (candidate_text_some env t Ht) as [-> ->]. reflexivity.
Qed.

Lemma chat_returns_candidate_text_witness :
  get_gemini_response "hi"
    (world_with (always (ok_response (envelope_with (VStr " Hello ")))))
  = (Ret (VStr " Hello "),
     snd (exponential_backoff_fetch API_URL (user_payload "hi") 5 1
            (world_with (always (ok_response (envelope_with (VStr " Hello "))))))).
Proof.
  apply (chat_returns_candidate_text "hi"
           (world_with (always (ok_response (envelope_with (VStr " Hello "))))) _
           (envelope_with (VStr " Hello ")) " Hello ");
    reflexivity.
Defined.

(** X8. When the fetch returns an envelope of the expected shape,
    [classify_topic] returns the text of its first candidate without the
    blanks around it. *)
Theorem classify_returns_stripped_text
        (query : string) (w w1 : world) (env : value) (t : string) :
  exponential_backoff_fetch API_URL (user_payload (topic_prompt query)) 5 1 w
  = (Ret env, w1) ->
  candidate_text env = Some t ->
  classify_topic query w = (Ret (VStr (strip t)), w1).
Proof.
  intros Hf Ht. rewrite (classify_on_envelope w w1 env query Hf).
  destruct (candidate_text_some env t Ht) as [-> ->]. reflexivity.
Qed.

Lemma classify_returns_stripped_text_witness :
  classify_topic "hi"
    (world_with (always (ok_response (envelope_with (VStr "  Technical Support ")))))
  = (Ret (VStr "Technical Support"),
     snd (exponential_backoff_fetch API_URL (user_payload (topic_prompt "hi")) 5 1
            (world_with (always (ok_response
                                   (envelope_with (VStr "  Technical Support "))))))).
Proof.
  apply (classify_returns_stripped_text "hi"
           (world_with (always (ok_response
                                  (envelope_with (VStr "  Technical Support ")))))
           _ (envelope_with (VStr "  Technical Support ")) "  Technical Support ");
    reflexivity.
Defined.

(** X9. Whatever the remote end does, the topic that [classify_topic]
    returns is a string that neither starts nor ends with a blank. *)
Theorem classify_topic_trimmed (query : string) (w : world) :
  exists s w',
    classify_topic query w = (Ret (VStr s), w')
    /\ starts_blank s = false
    /\ ends_blank s = false.
Proof.
  destruct (exponential_backoff_fetch API_URL (user_payload (topic_prompt query))
                                      5 1 w) as [[env | e] w1] eqn:Hf.
  - rewrite (classify_on_envelope w w1 env query Hf).
    destruct (has_candidates env) as [[|] | e]; eauto.
    unfold and_then.
    destruct (first_candidate_text env) as [v | e]; eauto.
    destruct v; cbn [py_strip]; eauto.
    destruct (strip_trimmed s) as [Hs He]. eauto.
  - rewrite (classify_on_failure w w1 query e Hf). eauto.
Qed.

(** X10. When all five attempts fail, [get_gemini_response] returns the
    string ["An internal error occurred: "] followed by the description of
    the fifth failure, after five POSTs. *)
Theorem chat_exhausted_message (prompt : string) (w : world) :
  (forall k, (k < 5)%nat ->
     exists e, attempt_fails w (API_URL ++ "?key=" ++ api_key w)
                             (user_payload prompt) k e) ->
  exists e w',
    attempt_fails w (API_URL ++ "?key=" ++ api_key w) (user_payload prompt) 4 e
    /\ get_gemini_response prompt w
       = (Ret (VStr ("An internal error occurred: " ++ exn_str e)), w')
    /\ posts w' = (posts w + 5)%nat.
Proof.
  intros Hall.
  destruct (fetch_loop_all_fail (API_URL ++ "?key=" ++ api_key w)
              (user_payload prompt) 4 0 5 1 w)
    as (e & w1 & evs & Hrun & Hlast & Hp & _); [reflexivity | lia | |].
  { intros k Hk. apply Hall. lia. }
  exists e. eexists. split; [exact Hlast |].
  rewrite (chat_on_failure w w1 prompt e Hrun). split; [reflexivity |].
  cbn. exact Hp.
Qed.

Lemma chat_exhausted_message_witness :
  exists e w',
    attempt_fails (world_with (always (PostRaises refused)))
                  (API_URL ++ "?key=" ++ "k") (user_payload "hi") 4 e
    /\ get_gemini_response "hi" (world_with (always (PostRaises refused)))
       = (Ret (VStr ("An internal error occurred: " ++ exn_str e)), w')
    /\ posts w' = (0 + 5)%nat.
Proof.
  apply (chat_exhausted_message "hi" (world_with (always (PostRaises refused)))).
  intros k _. exists refused. split; reflexivity.
Defined.

Section CallFrames.

Variable w : world.

(** What either call adds to the world, given what its fetch did. *)
Lemma call_frame (payload : value) (w' : world) :
  (w' = snd (exponential_backoff_fetch API_URL payload 5 1 w)
   \/ exists m, w' = with_event (snd (exponential_backoff_fetch API_URL payload 5 1 w))
                                (StError m)) ->
  exists evs,
    trace w' = (trace w ++ evs)%list
    /\ api_key w' = api_key w
    /\ disk w' = disk w
    /\ (post_count evs <= 5)%nat
    /\ posts_all_to (API_URL ++ "?key=" ++ api_key w) payload evs.
Proof.
  intros Hw'. rewrite fetch_unfold in Hw'.
  destruct (fetch_loop_frame (API_URL ++ "?key=" ++ api_key w) payload
              (Z.to_nat 5) 0 5 1 w)
    as (evs & [Hk Hr Hd Ht] & _ & Hpc & _ & Hall); [lia |].
  change (Z.to_nat 5) with 5%nat in *.
  set (wf := snd (fetch_loop 5 0 (API_URL ++ "?key=" ++ api_key w) payload 5 1 w))
    in *.
  destruct Hw' as [-> | [m ->]].
  - exists evs. auto.
  - exists (evs ++ [StError m])%list. unfold with_event.
    cbn [trace api_key disk].
    rewrite Ht, app_assoc. repeat split; try assumption.
    + unfold post_count in *. rewrite filter_app, length_app. cbn. lia.
    + unfold posts_all_to in *. apply Forall_app. split; [exact Hall |].
      repeat constructor.
Qed.

(** X11. Whatever the remote end does, [get_gemini_response] makes at most
    five POSTs, all to the API URL with the key and with the payload built
    from the prompt, and leaves the analytics file alone. *)
Theorem chat_frame (prompt : string) :
  exists evs,
    trace (snd (get_gemini_response prompt w)) = (trace w ++ evs)%list
    /\ api_key (snd (get_gemini_response prompt w)) = api_key w
    /\ disk (snd (get_gemini_response prompt w)) = disk w
    /\ (post_count evs <= 5)%nat
    /\ posts_all_to (API_URL ++ "?key=" ++ api_key w) (user_payload prompt) evs.
Proof.
  apply call_frame.
  destruct (exponential_backoff_fetch API_URL (user_payload prompt) 5 1 w)
    as [[env | e] w1] eqn:Hf.
  - rewrite (chat_on_envelope w w1 env prompt Hf).
    destruct (has_candidates env) as [[|] | e];
      [destruct (first_candidate_text env) | |]; added_at_most_one.
  - rewrite (chat_on_failure w w1 prompt e Hf). added_at_most_one.
Qed.

(** X12. Whatever the remote end does, [classify_topic] makes at most five
    POSTs, all to the API URL with the key and with the payload that wraps
    the classification prompt around the query, and leaves the analytics
    file alone. *)
Theorem classify_frame (query : string) :
  exists evs,
    trace (snd (classify_topic query w)) = (trace w ++ evs)%list
    /\ api_key (snd (classify_topic query w)) = api_key w
    /\ disk (snd (classify_topic query w)) = disk w
    /\ (post_count evs <= 5)%nat
    /\ posts_all_to (API_URL ++ "?key=" ++ api_key w)
                    (user_payload (topic_prompt query)) evs.
Proof.
  apply call_frame.
  destruct (exponential_backoff_fetch API_URL (user_payload (topic_prompt query))
                                      5 1 w) as [[env | e] w1] eqn:Hf.
  - rewrite (classify_on_envelope w w1 env query Hf).
    destruct (has_candidates env) as [[|] | e];
      [destruct (t <~ first_candidate_text env;; py_strip t) | |];
      added_at_most_one.
  - rewrite (classify_on_failure w w1 query e Hf). added_at_most_one.
Qed.

End CallFrames.

(* ================================================================= *)
(** ** More on the log *)

(** X13. When opening the file for appending fails with an error of the
    I/O kind, [log_analytics] does not raise: it notifies once, with the
    description of the error, and leaves the file as it is. *)
Theorem log_analytics_io_failure (data : value) (w : world) (e : exn) :
  deny_append (disk w) = Some e ->
  is_IOError (exn_class_of e) = true ->
  log_analytics data w = (Ret tt, with_event w (StError (write_error_message e))).
Proof.
  intros Hd He. unfold log_analytics, try_except, append_text.
  rewrite Hd, He. reflexivity.
Qed.

Lemma log_analytics_io_failure_witness :
  log_analytics (VDict [])
    (World "k" (always (PostRaises refused)) 0 []
           (Filesystem (Some "") None (Some permission_denied)))
  = (Ret tt,
     with_event (World "k" (always (PostRaises refused)) 0 []
                       (Filesystem (Some "") None (Some permission_denied)))
                (StError (write_error_message permission_denied))).
Proof.
  apply (log_analytics_io_failure (VDict [])
           (World "k" (always (PostRaises refused)) 0 []
                  (Filesystem (Some "") None (Some permission_denied)))
           permission_denied); reflexivity.
Defined.

(** X14. [log_analytics] only ever appends: whatever happens, the new
    content of the log is the old content followed by nothing or by the
    JSON text of the data and a newline; it makes no POST and does not
    change who may open the file. *)
Theorem log_analytics_append_only (data : value) (w : world) :
  exists suffix,
    log_content (snd (log_analytics data w)) = log_content w ++ suffix
    /\ (suffix = EmptyString \/ suffix = json_dumps data ++ nl)
    /\ posts (snd (log_analytics data w)) = posts w
    /\ deny_read (disk (snd (log_analytics data w))) = deny_read (disk w)
    /\ deny_append (disk (snd (log_analytics data w))) = deny_append (disk w).
Proof.
  assert (Hnil : forall s, s = s ++ EmptyString).
  { intros s. induction s as [| c s IH]; cbn; [| rewrite <- IH]; reflexivity. }
  destruct (deny_append (disk w)) as [e |] eqn:Hd.
  - exists EmptyString. unfold log_analytics, try_except, append_text.
    rewrite Hd. destruct (is_IOError (exn_class_of e)); cbn; auto.
  - exists (json_dumps data ++ nl).
    rewrite (log_analytics_appends data w Hd). cbn. auto.
Qed.

Lemma log_all_cons (r : InteractionRecord) (rs : list InteractionRecord) (w : world) :
  log_all (r :: rs) w = log_all rs (snd (log_analytics (record_dict r) w)).
Proof. reflexivity. Qed.

(** Logging keeps the file open to appending. *)
Lemma log_all_spec (rs : list InteractionRecord) :
  forall w,
    deny_append (disk w) = None ->
    log_content (log_all rs w) = log_content w ++ log_text rs
    /\ deny_append (disk (log_all rs w)) = None
    /\ deny_read (disk (log_all rs w)) = deny_read (disk w).
Proof.
  induction rs as [| r rs IH]; intros w Hd.
  - cbn. repeat split; try assumption.
    induction (log_content w) as [| c s IHs]; cbn; [| rewrite <- IHs]; reflexivity.
  - rewrite log_all_cons, (log_analytics_appends (record_dict r) w Hd). cbn [snd].
    match goal with |- context [log_all rs ?x] => set (w1 := x) end.
    destruct (IH w1) as (Hc & Ha & Hr); [subst w1; cbn; exact Hd |].
    rewrite Hc, Ha, Hr. split; [| split; reflexivity].
    subst w1. unfold log_content at 1. cbn [disk file log_text fold_right].
    fold (log_text rs). rewrite !string_app_assoc. reflexivity.
Qed.

Lemma record_line_one_line (r : InteractionRecord) :
  one_line (json_dumps (record_dict r)) = true
  /\ exists rest, json_dumps (record_dict r) = String "{" rest.
Proof.
  split; [apply (one_line_flat_dict (record_fields r)) |].
  change (record_dict r) with (flat_dict (record_fields r)).
  rewrite json_dumps_flat. cbn. eauto.
Qed.

(** The lines of a log of records are the lines of the records. *)
Lemma readlines_log_text (rs : list InteractionRecord) :
  readlines (log_text rs) = map record_line rs.
Proof.
  induction rs as [| r rs IH]; [reflexivity |].
  cbn [log_text fold_right map]. fold (log_text rs).
  destruct (record_line_one_line r) as [Hone [rest Hrest]].
  rewrite <- string_app_assoc, readlines_app.
  - rewrite readlines_one_line; [rewrite IH; reflexivity | exact Hone |].
    rewrite Hrest. discriminate.
  - apply ends_line_newline.
  - intros x Hx. destruct rs as [| r' rs]; [discriminate Hx |].
    cbn [log_text fold_right] in Hx.
    destruct (record_line_one_line r') as [_ [rest' Hrest']].
    rewrite Hrest' in Hx. discriminate Hx.
Qed.

Lemma log_text_no_line_feed (rs : list InteractionRecord) :
  forall x, log_text rs <> String LF x.
Proof.
  intros x Hx. destruct rs as [| r rs]; [discriminate Hx |].
  cbn [log_text fold_right] in Hx.
  destruct (record_line_one_line r) as [_ [rest Hrest]].
  rewrite Hrest in Hx. discriminate Hx.
Qed.


Lemma process_record_line (r : InteractionRecord) (l : locals) :
  process_line (record_line r) l = (Ret tt, scanned_record l r).
Proof.
  destruct (record_line_decoded r) as (d & Hd & Htopic & Hafter).
  unfold record_line.
  rewrite (process_line_record _ d l Hd) by (rewrite Htopic; reflexivity).
  rewrite Htopic, Hafter. reflexivity.
Qed.

Lemma scan_records (rs : list InteractionRecord) :
  forall l,
    for_each (map record_line rs) process_line l
    = (Ret tt, fold_left scanned_record rs l).
Proof.
  induction rs as [| r rs IH]; intros l; [reflexivity |].
  cbn [map for_each fold_left]. unfold bind.
  rewrite process_record_line. apply IH.
Qed.

Lemma counts_get_set_other (t t' : string) (n : Z) (d : list (value * Z)) :
  t <> t' ->
  counts_get (VStr t) (counts_set (VStr t') n d) 0 = counts_get (VStr t) d 0.
Proof.
  intros Hne. rewrite !counts_get_entries, entries_for_set_other; [reflexivity |].
  intros [= E]. congruence.
Qed.

(** The local variables after the scan of a list of records. *)
Lemma scanned_records (rs : list InteractionRecord) :
  forall l,
    names_unique (topic_counts l) ->
    let l' := fold_left scanned_record rs l in
    total_queries l' = total_queries l + Z.of_nat (List.length rs)
    /\ positive_ratings l' = positive_ratings l + rated_positive rs
    /\ negative_ratings l' = negative_ratings l + rated_negative rs
    /\ names_unique (topic_counts l')
    /\ forall t, counts_get (VStr t) (topic_counts l') 0
                 = counts_get (VStr t) (topic_counts l) 0 + on_topic t rs.
Proof.
  induction rs as [| r rs IH]; intros l Hu; cbv zeta.
  - cbn. unfold rated_positive, rated_negative, on_topic. cbn.
    repeat split; try lia; try assumption; try (intros t; lia).
  - cbn [fold_left].
    assert (Hu' : names_unique (topic_counts (scanned_record l r)))
      by (apply names_unique_set, Hu).
    destruct (IH (scanned_record l r) Hu') as (Ht & Hp & Hn & Hun & Hc).
    rewrite Ht, Hp, Hn.
    unfold rated_positive, rated_negative, on_topic in *.
    cbn [map sum_Z fold_right List.length filter scanned_record with_topic
           total_queries positive_ratings negative_ratings topic_counts] in *.
    repeat split; try assumption; try (unfold sum_Z; lia).
    intros t. rewrite Hc.
    destruct (String.eqb (topic r) t) eqn:E.
    + apply String.eqb_eq in E. subst t. rewrite counts_get_set.
      cbn [List.length]. lia.
    + apply String.eqb_neq in E. rewrite counts_get_set_other by congruence.
      lia.
Qed.

(** The function only reads: it hands the world back as it got it. *)
Lemma dashboard_reads_only (w : world) :
  snd (get_analytics_dashboard_data w) = w.
Proof.
  unfold get_analytics_dashboard_data.
  match goal with |- context [match ?x with _ => _ end] => destruct x as [[[] | e] l] end;
    reflexivity.
Qed.

(** X15. Logging a list of records one after the other onto a log that is
    empty or ends with a line terminator, can be read and can be appended
    to, adds exactly the records to the summary: as many queries as records,
    as many positive and negative ratings as records so rated, and for every
    topic as many as there are records on it. *)
Theorem logged_records_counted
        (rs : list InteractionRecord) (w w0 : world) (s : summary) :
  deny_append (disk w) = None ->
  deny_read (disk w) = None ->
  ends_line (log_content w) = true ->
  get_analytics_dashboard_data w = (Ret s, w0) ->
  exists s',
    get_analytics_dashboard_data (log_all rs w) = (Ret s', log_all rs w)
    /\ totalQueries s' = totalQueries s + Z.of_nat (List.length rs)
    /\ positiveRatings s' = positiveRatings s + rated_positive rs
    /\ negativeRatings s' = negativeRatings s + rated_negative rs
    /\ forall t, topic_count (topics s') t = topic_count (topics s) t + on_topic t rs.
Proof.
  intros Ha Hr Hend Hs.
  destruct rs as [| r rs].
  { exists s. pose proof (dashboard_reads_only w) as Hw. rewrite Hs in Hw.
    cbn in Hw. subst w0. split; [exact Hs |].
    unfold rated_positive, rated_negative, on_topic. cbn.
    repeat split; try lia; try (intros t; lia). }
  destruct (prior_scan w w0 s Hr Hs) as (l0 & Hscan & -> & Hu).
  destruct (log_all_spec (r :: rs) w Ha) as (Hc & _ & Hr').
  assert (Hopen : open_read (disk (log_all (r :: rs) w))
                  = Ret (log_content w ++ log_text (r :: rs))).
  { unfold open_read. rewrite Hr', Hr. rewrite <- Hc. unfold log_content.
    destruct (file (disk (log_all (r :: rs) w))) as [c |] eqn:Hf; [reflexivity |].
    (* something was logged, so the file exists *)
    exfalso. unfold log_content in Hc. rewrite Hf in Hc.
    destruct (record_line_one_line r) as [_ [rest Hrest]].
    cbn [log_text fold_right] in Hc. rewrite Hrest in Hc.
    destruct (match file (disk w) with Some c => c | None => "" end);
      discriminate Hc. }
  rewrite (dashboard_of_content _ _ Hopen).
  rewrite readlines_app by (exact Hend || apply log_text_no_line_feed).
  rewrite for_each_app, Hscan, readlines_log_text, scan_records.
  destruct (scanned_records (r :: rs) l0 Hu) as (Ht & Hp & Hn & Hun & Hcnt).
  eexists. split; [reflexivity |].
  unfold summary_of.
  cbn [totalQueries positiveRatings negativeRatings topics].
  repeat split; try assumption.
  intros t. rewrite !topic_count_sorted by assumption. apply Hcnt.
Qed.

Lemma logged_records_counted_witness :
  exists s',
    get_analytics_dashboard_data
      (log_all [record_about "B"; record_about "D"] (world_with_log (Some abc_log)))
    = (Ret s',
       log_all [record_about "B"; record_about "D"] (world_with_log (Some abc_log)))
    /\ totalQueries s' = 11 + 2
    /\ positiveRatings s' = 11 + 2
    /\ negativeRatings s' = 0 + 0
    /\ forall t, topic_count (topics s') t
                 = topic_count [(VStr "A", 5); (VStr "B", 3); (VStr "C", 3)] t
                   + on_topic t [record_about "B"; record_about "D"].
Proof.
  apply (logged_records_counted [record_about "B"; record_about "D"]
           (world_with_log (Some abc_log)) (world_with_log (Some abc_log))
           (Summary 11 11 0 [(VStr "A", 5); (VStr "B", 3); (VStr "C", 3)]));
    vm_compute; reflexivity.
Defined.

(* ================================================================= *)
(** ** More on the summary *)

Section ScanReturns.

Context {S : Type} (body : string -> ST S unit).

(** What every line that returns keeps true holds when the scan returns. *)
Lemma for_each_returns (P : S -> Prop) :
  (forall x l l', body x l = (Ret tt, l') -> P l -> P l') ->
  forall xs l l', for_each xs body l = (Ret tt, l') -> P l -> P l'.
Proof.
  intros Hstep xs. induction xs as [| x xs IH]; intros l l'.
  - intros [= <-]. auto.
  - cbn [for_each]. unfold bind.
    destruct (body x l) as [[[] | e] l1] eqn:Hb; [| discriminate].
    intros Hrun Hl. eapply IH; [exact Hrun |]. eapply Hstep; eassumption.
Qed.

End ScanReturns.

(** A line that returns was either passed over or an object with a hashable
    topic. *)
Lemma process_line_returns (line : string) (l l' : locals) :
  process_line line l = (Ret tt, l') ->
  (decodes line = false /\ l' = l)
  \/ exists d,
       json_loads line = Ret (VDict d)
       /\ hashable (topic_of d) = true
       /\ l' = with_topic (topic_of d) (after_record d l).
Proof.
  unfold decodes. destruct (json_loads line) as [data | e] eqn:H.
  - rewrite (process_line_decoded line data l H).
    destruct data;
      try (rewrite count_record_not_dict by discriminate; discriminate).
    rewrite count_record_dict.
    destruct (hashable (topic_of d)) eqn:Hh; [| discriminate].
    intros [= <-]. right. eauto.
  - rewrite (process_line_undecodable line e l H). intros [= <-]. auto.
Qed.

Lemma sum_counts_incr (k : value) (d : list (value * Z)) :
  sum_counts (counts_set k (counts_get k d 0 + 1) d) = sum_counts d + 1.
Proof.
  unfold sum_counts, sum_Z.
  induction d as [| [k' n'] d IH]; [reflexivity |].
  cbn [counts_get counts_set]. destruct (key_eqb k' k); cbn in *; lia.
Qed.

Lemma counts_incr_positive (k : value) (d : list (value * Z)) :
  Forall (fun e => 1 <= snd e) d ->
  Forall (fun e => 1 <= snd e) (counts_set k (counts_get k d 0 + 1) d).
Proof.
  induction 1 as [| [k' n'] d Hn Hd IH].
  - cbn. constructor; [cbn; lia | constructor].
  - cbn [counts_get counts_set]. destruct (key_eqb k' k).
    + constructor; [cbn in *; lia | exact Hd].
    + constructor; [exact Hn | exact IH].
Qed.

Lemma process_line_consistent (line : string) (l l' : locals) :
  process_line line l = (Ret tt, l') ->
  counters_consistent l -> counters_consistent l'.
Proof.
  intros Hp Hl.
  destruct (process_line_returns line l l' Hp) as [[_ ->] | (d & _ & _ & ->)];
    [exact Hl |].
  destruct Hl as [Ht Hc Hpos Hneg].
  unfold with_topic, after_record.
  constructor; cbn [total_queries topic_counts positive_ratings negative_ratings].
  - rewrite sum_counts_incr. lia.
  - apply counts_incr_positive, Hc.
  - destruct (eq_str _ "positive"); lia.
  - destruct (eq_str _ "positive"); [lia |]. destruct (eq_str _ "negative"); lia.
Qed.

(** A summary that is returned comes from consistent local variables. *)
Lemma dashboard_from_consistent (w w' : world) (s : summary) :
  get_analytics_dashboard_data w = (Ret s, w') ->
  exists l, s = summary_of l /\ counters_consistent l.
Proof.
  assert (Hinit : counters_consistent init_locals).
  { constructor; cbn; try lia; try reflexivity; try constructor. }
  destruct (open_read (disk w)) as [c | e] eqn:Ho.
  - rewrite (dashboard_of_content w c Ho).
    destruct (for_each (readlines c) process_line init_locals)
      as [[[] | e] l] eqn:Hs; [| discriminate].
    intros [= <- _]. exists l. split; [reflexivity |].
    eapply (for_each_returns process_line counters_consistent);
      [apply process_line_consistent | exact Hs | exact Hinit].
  - rewrite (dashboard_of_open_error w e Ho).
    destruct (is_FileNotFoundError (exn_class_of e)); [| discriminate].
    intros [= <- _]. exists init_locals. auto.
Qed.

Lemma sum_counts_perm (d d' : list (value * Z)) :
  Permutation d d' -> sum_counts d = sum_counts d'.
Proof.
  unfold sum_counts, sum_Z.
  induction 1; cbn; lia.
Qed.

(** X16. In every summary that is returned, the counts of the topics add up
    to the number of queries, every listed topic has a count of at least
    one, and no counter is negative. *)
Theorem dashboard_counts_consistent (w w' : world) (s : summary) :
  get_analytics_dashboard_data w = (Ret s, w') ->
  sum_counts (topics s) = totalQueries s
  /\ Forall (fun e => 1 <= snd e) (topics s)
  /\ 0 <= positiveRatings s
  /\ 0 <= negativeRatings s.
Proof.
  intros H. destruct (dashboard_from_consistent w w' s H) as (l & -> & [Ht Hc Hp Hn]).
  cbn [summary_of topics totalQueries positiveRatings negativeRatings].
  pose proof (sorted_by_count_desc_perm (topic_counts l)) as Hperm.
  repeat split; try assumption.
  - rewrite <- (sum_counts_perm _ _ Hperm). exact Ht.
  - eapply Permutation_Forall; eassumption.
Qed.

Lemma dashboard_counts_consistent_witness :
  sum_counts [(VStr "A", 5); (VStr "B", 3); (VStr "C", 3)] = 11
  /\ Forall (fun e => 1 <= snd e) [(VStr "A", 5); (VStr "B", 3); (VStr "C", 3)]
  /\ 0 <= 11
  /\ 0 <= 0.
Proof.
  apply (dashboard_counts_consistent (world_with_log (Some abc_log))
           (world_with_log (Some abc_log))
           (Summary 11 11 0 [(VStr "A", 5); (VStr "B", 3); (VStr "C", 3)])).
  vm_compute. reflexivity.
Defined.





(** X18. A line that decodes to something other than an object ends the
    function with an [AttributeError], when the lines before it were read
    without error. *)
Theorem dashboard_non_object_line_raises
        (w : world) (c : string) (pre post : list string) (line : string)
        (data : value) (l : locals) :
  open_read (disk w) = Ret c ->
  readlines c = (pre ++ line :: post)%list ->
  for_each pre process_line init_locals = (Ret tt, l) ->
  json_loads line = Ret data ->
  (forall d, data <> VDict d) ->
  get_analytics_dashboard_data w
  = (Raise (Exn AttributeError
              ("'" ++ type_name data ++ "' object has no attribute 'get'")), w).
Proof.
  intros Ho Hc Hpre Hd Hnot. rewrite (dashboard_of_content w c Ho).
  rewrite Hc, for_each_app, Hpre. cbn [for_each]. unfold bind at 1.
  rewrite (process_line_decoded line data l Hd).
  rewrite (count_record_not_dict data l Hnot). reflexivity.
Qed.

Lemma dashboard_non_object_line_raises_witness :
  get_analytics_dashboard_data (world_with_log (Some ("{}" ++ nl ++ "5" ++ nl)))
  = (Raise (Exn AttributeError "'int' object has no attribute 'get'"),
     world_with_log (Some ("{}" ++ nl ++ "5" ++ nl))).
Proof.
  apply (dashboard_non_object_line_raises
           (world_with_log (Some ("{}" ++ nl ++ "5" ++ nl)))
           ("{}" ++ nl ++ "5" ++ nl) ["{}" ++ nl] [] ("5" ++ nl) (VInt 5)
           (snd (process_line ("{}" ++ nl) init_locals)));
    try reflexivity.
  intros d. discriminate.
Defined.

(** X19. A record whose topic is a list or an object ends the function
    with a [TypeError], when the lines before it were read without error. *)
Theorem dashboard_unhashable_topic_raises
        (w : world) (c : string) (pre post : list string) (line : string)
        (d : list (string * value)) (l : locals) :
  open_read (disk w) = Ret c ->
  readlines c = (pre ++ line :: post)%list ->
  for_each pre process_line init_locals = (Ret tt, l) ->
  json_loads line = Ret (VDict d) ->
  hashable (topic_of d) = false ->
  get_analytics_dashboard_data w = (Raise (unhashable (topic_of d)), w).
Proof.
  intros Ho Hc Hpre Hd Hh. rewrite (dashboard_of_content w c Ho).
  rewrite Hc, for_each_app, Hpre. cbn [for_each]. unfold bind at 1.
  rewrite (process_line_decoded line _ l Hd), count_record_dict, Hh.
  reflexivity.
Qed.

Lemma dashboard_unhashable_topic_raises_witness :
  get_analytics_dashboard_data (world_with_log (Some list_topic_line))
  = (Raise (Exn TypeError "unhashable type: 'list'"),
     world_with_log (Some list_topic_line)).
Proof.
  apply (dashboard_unhashable_topic_raises
           (world_with_log (Some list_topic_line)) list_topic_line [] []
           list_topic_line [("topic", VList [])] init_locals);
    reflexivity.
Defined.




(* ================================================================= *)
(** ** What [json.dumps] writes stays on one line *)












(* ================================================================= *)
(** ** The summary of a log that grows *)

Lemma counts_get_incr_le (k : value) (d : list (value * Z)) (t : string) :
  counts_get (VStr t) d 0
  <= counts_get (VStr t) (counts_set k (counts_get k d 0 + 1) d) 0.
Proof.
  destruct (key_eqb k (VStr t)) eqn:E.
  - apply key_eqb_str_r in E. subst k. rewrite counts_get_set. lia.
  - rewrite !counts_get_entries, entries_for_set_other; [lia |].
    intros ->. rewrite key_eqb_str_refl in E. discriminate E.
Qed.

Lemma process_line_grows (a : locals) (line : string) (l l' : locals) :
  process_line line l = (Ret tt, l') -> counters_le a l -> counters_le a l'.
Proof.
  intros Hp Hl.
  destruct (process_line_returns line l l' Hp) as [[_ ->] | (d & _ & _ & ->)];
    [exact Hl |].
  destruct Hl as [Ht Hpos Hneg Htop].
  unfold with_topic, after_record.
  constructor; cbn [total_queries topic_counts positive_ratings negative_ratings].
  - lia.
  - destruct (eq_str _ "positive"); lia.
  - destruct (eq_str _ "positive"); [lia |]. destruct (eq_str _ "negative"); lia.
  - intros t. specialize (Htop t).
    pose proof (counts_get_incr_le (topic_of d) (topic_counts l) t). lia.
Qed.

Lemma scan_names_unique (lines : list string) (l l' : locals) (r : outcome unit) :
  for_each lines process_line l = (r, l') ->
  names_unique (topic_counts l) -> names_unique (topic_counts l').
Proof.
  intros Hs Hu.
  pose proof (for_each_invariant process_line
                (fun l => names_unique (topic_counts l))
                process_line_names_unique lines l Hu) as H.
  rewrite Hs in H. exact H.
Qed.

(** X22. The summary never shrinks as the log grows: when text that does
    not begin with a line feed is added after a log that is empty or ends
    with a line terminator, and both logs give a summary, no counter and no
    topic count of the longer log is below the one of the shorter log. *)
Theorem dashboard_grows_with_log
        (w w' x y : world) (c t : string) (s s' : summary) :
  open_read (disk w) = Ret c ->
  open_read (disk w') = Ret (c ++ t) ->
  ends_line c = true ->
  (forall r, t <> String LF r) ->
  get_analytics_dashboard_data w = (Ret s, x) ->
  get_analytics_dashboard_data w' = (Ret s', y) ->
  totalQueries s <= totalQueries s'
  /\ positiveRatings s <= positiveRatings s'
  /\ negativeRatings s <= negativeRatings s'
  /\ forall name, topic_count (topics s) name <= topic_count (topics s') name.
Proof.
  intros Ho Ho' Hend Ht.
  rewrite (dashboard_of_content w c Ho), (dashboard_of_content w' _ Ho').
  rewrite (readlines_app c t Hend Ht), for_each_app.
  destruct (for_each (readlines c) process_line init_locals)
    as [[[] | e] l0] eqn:Hs0; [| discriminate].
  destruct (for_each (readlines t) process_line l0)
    as [[[] | e] l1] eqn:Hs1; [| discriminate].
  intros [= <- _] [= <- _].
  assert (Hu0 : names_unique (topic_counts l0)).
  { eapply scan_names_unique; [exact Hs0 |]. intros n. cbn. lia. }
  assert (Hu1 : names_unique (topic_counts l1))
    by (eapply scan_names_unique; eassumption).
  assert (Hle : counters_le l0 l1).
  { eapply (for_each_returns process_line (counters_le l0));
      [apply process_line_grows | exact Hs1 |].
    constructor; intros; lia. }
  destruct Hle as [H1 H2 H3 H4].
  cbn [summary_of totalQueries positiveRatings negativeRatings topics].
  repeat split; try assumption.
  intros name. rewrite !topic_count_sorted by assumption. apply H4.
Qed.

Lemma dashboard_grows_with_log_witness :
  11 <= 12 /\ 11 <= 12 /\ 0 <= 0
  /\ forall name,
       topic_count [(VStr "A", 5); (VStr "B", 3); (VStr "C", 3)] name
       <= topic_count [(VStr "A", 5); (VStr "B", 4); (VStr "C", 3)] name.
Proof.
  apply (dashboard_grows_with_log
           (world_with_log (Some abc_log))
           (world_with_log (Some (abc_log ++ record_line (record_about "B"))))
           (world_with_log (Some abc_log))
           (world_with_log (Some (abc_log ++ record_line (record_about "B"))))
           abc_log (record_line (record_about "B"))
           (Summary 11 11 0 [(VStr "A", 5); (VStr "B", 3); (VStr "C", 3)])
           (Summary 12 12 0 [(VStr "A", 5); (VStr "B", 4); (VStr "C", 3)]));
    try (vm_compute; reflexivity).
  intros r Hr. vm_compute in Hr. discriminate Hr.
Defined.

(* ================================================================= *)
(** ** More on the order of the topics *)

Lemma with_count_insert (c : Z) (x : value * Z) (l : list (value * Z)) :
  with_count c (insert_desc x l)
  = if snd x =? c then x :: with_count c l else with_count c l.
Proof.
  unfold with_count. induction l as [| y l IH]; cbn [insert_desc filter].
  - reflexivity.
  - destruct (snd x <? snd y) eqn:E; cbn [filter].
    + rewrite IH. apply Z.ltb_lt in E.
      destruct (snd x =? c) eqn:Ex; [| reflexivity].
      apply Z.eqb_eq in Ex.
      replace (snd y =? c) with false by (symmetry; apply Z.eqb_neq; lia).
      reflexivity.
    + reflexivity.
Qed.

(** X23. The sort of the topics is stable and loses nothing: the sorted
    list is a rearrangement of the entries of the dict, and the entries of
    any one count come in the order the dict has them. *)
Theorem sorted_topics_stable (d : list (value * Z)) :
  Permutation d (sorted_by_count_desc d)
  /\ forall c, with_count c (sorted_by_count_desc d) = with_count c d.
Proof.
  split; [apply sorted_by_count_desc_perm |].
  intros c. induction d as [| x d IH]; [reflexivity |].
  cbn [sorted_by_count_desc fold_right]. fold (sorted_by_count_desc d).
  rewrite with_count_insert, IH. unfold with_count. cbn [filter].
  reflexivity.
Qed.

(* ================================================================= *)
(** ** The page *)

Lemma truthy_str (s : string) : s <> "" -> truthy (VStr s) = true.
Proof.
  intros Hs. cbn. destruct (String.eqb_spec s ""); [contradiction | reflexivity].
Qed.

Lemma session_eta (a : session) :
  Session (the_world a) (session_messages a) (screen a) = a.
Proof. destruct a; reflexivity. Qed.

Lemma for_all_display {A : Type} (f : A -> ui_event) (xs : list A) (a : session) :
  for_all xs (fun x => display (f x)) a
  = (Ret tt, Session (the_world a) (session_messages a) (screen a ++ map f xs)%list).
Proof.
  revert a. induction xs as [| x xs IH]; intros a; cbn [for_all map].
  - rewrite app_nil_r, session_eta. reflexivity.
  - unfold bind. unfold display at 1. rewrite IH.
    cbn [the_world session_messages screen]. rewrite <- app_assoc. reflexivity.
Qed.

Lemma show_history_spec (a : session) :
  show_history a
  = (Ret tt, Session (the_world a) (session_messages a)
                     (screen a ++ history_view (history a))%list).
Proof.
  unfold show_history, get_messages, bind, history, history_view.
  generalize (match session_messages a with Some ms => ms | None => [] end).
  intros ms. revert a. induction ms as [| m ms IH]; intros a; cbn [for_all flat_map].
  - rewrite app_nil_r, session_eta. reflexivity.
  - unfold bind. unfold display at 1 2. rewrite IH.
    cbn [the_world session_messages screen]. rewrite <- !app_assoc. reflexivity.
Qed.

Lemma sidebar_returns (a : session) (s : summary) (w' : world) :
  get_analytics_dashboard_data (the_world a) = (Ret s, w') ->
  sidebar a
  = (Ret tt, Session (the_world a) (session_messages a)
                     (screen a ++ sidebar_view s)%list).
Proof.
  intros Hd.
  assert (Hw : w' = the_world a).
  { rewrite <- (dashboard_reads_only (the_world a)), Hd. reflexivity. }
  subst w'. unfold sidebar, sidebar_view, bind, in_world.
  unfold display at 1. cbn [the_world session_messages screen]. rewrite Hd.
  unfold display at 1 2 3 4. cbn [the_world session_messages screen].
  rewrite for_all_display. cbn [the_world session_messages screen].
  rewrite <- !app_assoc. reflexivity.
Qed.

Lemma sidebar_raises (a : session) (e : exn) (w' : world) :
  get_analytics_dashboard_data (the_world a) = (Raise e, w') ->
  sidebar a
  = (Raise e, Session (the_world a) (session_messages a)
                      (screen a ++ [UiHeader "Analytics Dashboard"])%list).
Proof.
  intros Hd.
  assert (Hw : w' = the_world a).
  { rewrite <- (dashboard_reads_only (the_world a)), Hd. reflexivity. }
  subst w'. unfold sidebar, bind, in_world.
  unfold display at 1. cbn [the_world session_messages screen]. rewrite Hd.
  reflexivity.
Qed.

(** Neither call to the model raises. *)
Lemma chat_returns (prompt : string) (w : world) :
  exists v w1, get_gemini_response prompt w = (Ret v, w1).
Proof.
  destruct (exponential_backoff_fetch API_URL (user_payload prompt) 5 1 w)
    as [[env | e] w1] eqn:Hf.
  - rewrite (chat_on_envelope w w1 env prompt Hf).
    destruct (has_candidates env) as [[|] | e]; eauto.
    destruct (first_candidate_text env) as [v | e]; eauto.
  - rewrite (chat_on_failure w w1 prompt e Hf). eauto.
Qed.

Lemma classify_returns (query : string) (w : world) :
  exists s w1, classify_topic query w = (Ret (VStr s), w1).
Proof.
  destruct (exponential_backoff_fetch API_URL (user_payload (topic_prompt query))
                                      5 1 w) as [[env | e] w1] eqn:Hf.
  - rewrite (classify_on_envelope w w1 env query Hf).
    destruct (has_candidates env) as [[|] | e]; eauto.
    unfold and_then.
    destruct (first_candidate_text env) as [v | e]; eauto.
    destruct v; cbn; eauto.
  - rewrite (classify_on_failure w w1 query e Hf). eauto.
Qed.

Lemma chat_world_frame (prompt : string) (w : world) :
  exists evs,
    trace (snd (get_gemini_response prompt w)) = (trace w ++ evs)%list
    /\ api_key (snd (get_gemini_response prompt w)) = api_key w
    /\ disk (snd (get_gemini_response prompt w)) = disk w
    /\ (post_count evs <= 5)%nat
    /\ posts_to (API_URL ++ "?key=" ++ api_key w) evs.
Proof.
  destruct (call_frame w (user_payload prompt) (snd (get_gemini_response prompt w)))
    as (evs & Ht & Hk & Hd & Hc & Hp).
  - destruct (exponential_backoff_fetch API_URL (user_payload prompt) 5 1 w)
      as [[env | e] w1] eqn:Hf.
    + rewrite (chat_on_envelope w w1 env prompt Hf).
      destruct (has_candidates env) as [[|] | e];
        [destruct (first_candidate_text env) | |]; added_at_most_one.
    + rewrite (chat_on_failure w w1 prompt e Hf). added_at_most_one.
  - exists evs. repeat split; try assumption.
    intros u p Hin. unfold posts_all_to in Hp. rewrite Forall_forall in Hp.
    apply (Hp _ Hin).
Qed.

Lemma classify_world_frame (query : string) (w : world) :
  exists evs,
    trace (snd (classify_topic query w)) = (trace w ++ evs)%list
    /\ api_key (snd (classify_topic query w)) = api_key w
    /\ disk (snd (classify_topic query w)) = disk w
    /\ (post_count evs <= 5)%nat
    /\ posts_to (API_URL ++ "?key=" ++ api_key w) evs.
Proof.
  destruct (call_frame w (user_payload (topic_prompt query))
                       (snd (classify_topic query w)))
    as (evs & Ht & Hk & Hd & Hc & Hp).
  - destruct (exponential_backoff_fetch API_URL (user_payload (topic_prompt query))
                                        5 1 w) as [[env | e] w1] eqn:Hf.
    + rewrite (classify_on_envelope w w1 env query Hf).
      destruct (has_candidates env) as [[|] | e];
        [destruct (t <~ first_candidate_text env;; py_strip t) | |];
        added_at_most_one.
    + rewrite (classify_on_failure w w1 query e Hf). added_at_most_one.
  - exists evs. repeat split; try assumption.
    intros u p Hin. unfold posts_all_to in Hp. rewrite Forall_forall in Hp.
    apply (Hp _ Hin).
Qed.

(** What the buttons can do to the world: log up to two dicts. *)
Lemma feedback_frame (ws : widgets) (prompt : string) (v t : value) (b : session) :
  exists ds,
    the_world (snd (feedback ws prompt v t b)) = log_each ds (the_world b)
    /\ session_messages (snd (feedback ws prompt v t b)) = session_messages b
    /\ (helpful ws = false -> not_helpful ws = false -> ds = []).
Proof.
  unfold feedback, bind, display, in_world, ret. cbn [the_world session_messages screen].
  destruct (helpful ws), (not_helpful ws); cbn [the_world session_messages screen].
  - set (d1 := feedback_record (strftime ws 0) prompt v t "positive").
    set (d2 := feedback_record (strftime ws 1) prompt v t "negative").
    destruct (log_analytics d1 (the_world b)) as [[[] | e] w1] eqn:H1;
      cbn [the_world session_messages screen].
    + destruct (log_analytics d2 w1) as [[[] | e] w2] eqn:H2;
        cbn [the_world session_messages screen snd];
        (exists [d1; d2]; cbn [log_each fold_left]; rewrite H1; cbn [snd];
         rewrite H2; repeat split; try reflexivity; intros; discriminate).
    + exists [d1]. cbn [log_each fold_left snd the_world session_messages].
      rewrite H1. repeat split; try reflexivity; intros; discriminate.
  - set (d1 := feedback_record (strftime ws 0) prompt v t "positive").
    destruct (log_analytics d1 (the_world b)) as [[[] | e] w1] eqn:H1;
      cbn [the_world session_messages screen snd];
      (exists [d1]; cbn [log_each fold_left]; rewrite H1; repeat split; try reflexivity; intros; discriminate).
  - set (d2 := feedback_record (strftime ws 0) prompt v t "negative").
    destruct (log_analytics d2 (the_world b)) as [[[] | e] w1] eqn:H1;
      cbn [the_world session_messages screen snd];
      (exists [d2]; cbn [log_each fold_left]; rewrite H1; repeat split; try reflexivity; intros; discriminate).
  - exists []. cbn. auto.
Qed.

Lemma turn_spec (ws : widgets) (prompt : string) (b : session)
      (v t : value) (w1 w2 : world) :
  get_gemini_response prompt (the_world b) = (Ret v, w1) ->
  classify_topic prompt w1 = (Ret t, w2) ->
  turn ws prompt b
  = match (if truthy v then feedback ws prompt v t else ret tt)
            (Session w2 (Some (history b ++ [Message "user" (VStr prompt)])%list)
                     (screen b ++ [UiChatMessage "user"; UiMarkdown (VStr prompt);
                                   UiSpinner "Thinking...";
                                   UiChatMessage "assistant"; UiMarkdown v])%list)
    with
    | (Ret _, c) => append_message (Message "assistant" v) c
    | (Raise e, c) => (Raise e, c)
    end.
Proof.
  intros Hchat Hclass. unfold turn, bind, in_world.
  unfold display at 1 2 3, append_message at 1.
  cbn [the_world session_messages screen]. rewrite Hchat.
  cbn [the_world session_messages screen]. rewrite Hclass.
  unfold display at 1 2. cbn [the_world session_messages screen].
  unfold history. rewrite <- !app_assoc. reflexivity.
Qed.

Lemma page_returns (ws : widgets) (a : session) (s : summary) (w' : world) :
  get_analytics_dashboard_data (the_world a) = (Ret s, w') ->
  page ws a
  = match chat_input ws with
    | Some prompt => if truthy (VStr prompt) then turn ws prompt else ret tt
    | None => ret tt
    end (Session (the_world a) (Some (history a))
                 (screen a ++ [UiTitle "Chatbot with Analytics Dashboard"]
                    ++ sidebar_view s ++ history_view (history a))%list).
Proof.
  intros Hd. unfold page, bind. unfold display at 1, init_messages.
  cbn [the_world session_messages screen].
  rewrite (sidebar_returns _ s w') by exact Hd.
  rewrite show_history_spec. cbn [the_world session_messages screen].
  unfold history at 1. cbn [session_messages]. fold (history a).
  rewrite <- !app_assoc. reflexivity.
Qed.

Lemma page_raises (ws : widgets) (a : session) (e : exn) (w' : world) :
  get_analytics_dashboard_data (the_world a) = (Raise e, w') ->
  page ws a
  = (Raise e, Session (the_world a) (Some (history a))
                      (screen a ++ [UiTitle "Chatbot with Analytics Dashboard";
                                    UiHeader "Analytics Dashboard"])%list).
Proof.
  intros Hd. unfold page, bind. unfold display at 1, init_messages.
  cbn [the_world session_messages screen].
  rewrite (sidebar_raises _ e w') by exact Hd.
  cbn [the_world session_messages screen]. fold (history a).
  rewrite <- !app_assoc. reflexivity.
Qed.

Lemma script_with_key (ws : widgets) (a : session) (key : string) :
  secret ws = Some key ->
  truthy (VStr key) = true ->
  script ws a
  = page ws (Session (keyed key (the_world a)) (session_messages a) (screen a)).
Proof.
  intros Hs Hk. unfold script. rewrite Hs, Hk. reflexivity.
Qed.

(** X24. Without a key in the secrets, or with an empty one, a run of the
    script reports the missing key and stops there: it shows nothing, reads
    and writes no file, sends no request, and leaves the session as it
    is. *)
Theorem script_without_key_stops (ws : widgets) (a : session) :
  secret ws = None \/ secret ws = Some "" ->
  script ws a
  = (Ret tt, Session (with_event (the_world a) (StError missing_key_message))
                     (session_messages a) (screen a)).
Proof.
  intros [Hs | Hs]; unfold script; rewrite Hs; reflexivity.
Qed.

Lemma script_without_key_stops_witness :
  script (Widgets None (Some "hello") true false (fun _ => "2024-01-01 00:00:00"))
         (fresh_app (world_with_log (Some "")))
  = (Ret tt, Session (with_event (world_with_log (Some ""))
                                 (StError missing_key_message))
                     None []).
Proof.
  apply (script_without_key_stops
           (Widgets None (Some "hello") true false (fun _ => "2024-01-01 00:00:00"))
           (fresh_app (world_with_log (Some "")))).
  left. reflexivity.
Defined.

(** X25. When reading the log for the sidebar raises, the run ends with
    that exception after the title and the header of the sidebar: no metric
    is shown, the history is not shown, the chat input is not looked at, and
    no request is sent. *)
Theorem script_dashboard_failure_ends_run
        (ws : widgets) (a : session) (key : string) (e : exn) (w' : world) :
  secret ws = Some key ->
  truthy (VStr key) = true ->
  get_analytics_dashboard_data (keyed key (the_world a)) = (Raise e, w') ->
  script ws a
  = (Raise e, Session (keyed key (the_world a)) (Some (history a))
                      (screen a ++ [UiTitle "Chatbot with Analytics Dashboard";
                                    UiHeader "Analytics Dashboard"])%list).
Proof.
  intros Hs Hk Hd. rewrite (script_with_key ws a key Hs Hk).
  exact (page_raises ws (Session (keyed key (the_world a)) (session_messages a)
                                 (screen a)) e w' Hd).
Qed.

Lemma script_dashboard_failure_ends_run_witness :
  script (asking "k" "hello" false false)
         (fresh_app (world_with_log (Some ("5" ++ nl))))
  = (Raise (Exn AttributeError "'int' object has no attribute 'get'"),
     Session (world_with_log (Some ("5" ++ nl))) (Some [])
             [UiTitle "Chatbot with Analytics Dashboard";
              UiHeader "Analytics Dashboard"]).
Proof.
  apply (script_dashboard_failure_ends_run
           (asking "k" "hello" false false)
           (fresh_app (world_with_log (Some ("5" ++ nl)))) "k"
           (Exn AttributeError "'int' object has no attribute 'get'")
           (world_with_log (Some ("5" ++ nl))));
    reflexivity.
Defined.

(** X26. A run in which the chat input returns nothing, or the empty
    string, shows the title, the sidebar for the log as it is, and the
    history; it sends no request, writes nothing, and leaves the history as
    it is, whatever the buttons return. *)
Theorem script_idle_run
        (ws : widgets) (a : session) (key : string) (s : summary) (w' : world) :
  secret ws = Some key ->
  truthy (VStr key) = true ->
  chat_input ws = None \/ chat_input ws = Some "" ->
  get_analytics_dashboard_data (keyed key (the_world a)) = (Ret s, w') ->
  script ws a
  = (Ret tt, Session (keyed key (the_world a)) (Some (history a))
                     (screen a ++ [UiTitle "Chatbot with Analytics Dashboard"]
                        ++ sidebar_view s ++ history_view (history a))%list).
Proof.
  intros Hs Hk Hc Hd. rewrite (script_with_key ws a key Hs Hk).
  rewrite (page_returns ws (Session (keyed key (the_world a)) (session_messages a)
                                    (screen a)) s w' Hd).
  destruct Hc as [-> | ->]; reflexivity.
Qed.

Lemma script_idle_run_witness :
  script (Widgets (Some "k") None true false (fun _ => "2024-01-01 00:00:00"))
         (fresh_app (world_with_log None))
  = (Ret tt,
     Session (world_with_log None) (Some [])
             [UiTitle "Chatbot with Analytics Dashboard";
              UiHeader "Analytics Dashboard";
              UiMetric "Total Queries" 0;
              UiMetric "Positive Ratings" 0;
              UiMetric "Negative Ratings" 0;
              UiSubheader "Most Common Topics"]).
Proof.
  apply (script_idle_run
           (Widgets (Some "k") None true false (fun _ => "2024-01-01 00:00:00"))
           (fresh_app (world_with_log None)) "k" zero_summary
           (world_with_log None));
    try reflexivity.
  left. reflexivity.
Defined.

(** What [log_analytics] can do to the world. *)
Lemma log_analytics_world (data : value) (w : world) :
  (deny_append (disk w) = None
   /\ log_analytics data w
      = (Ret tt,
         World (api_key w) (remote w) (posts w) (trace w)
               (Filesystem (Some (log_content w ++ json_dumps data ++ nl))
                           (deny_read (disk w)) (deny_append (disk w)))))
  \/ (exists e, deny_append (disk w) = Some e
                /\ is_IOError (exn_class_of e) = true
                /\ log_analytics data w
                   = (Ret tt, with_event w (StError (write_error_message e))))
  \/ (exists e, deny_append (disk w) = Some e
                /\ is_IOError (exn_class_of e) = false
                /\ log_analytics data w = (Raise e, w)).
Proof.
  destruct (deny_append (disk w)) as [e |] eqn:Hd.
  - right. unfold log_analytics, try_except, append_text. rewrite Hd.
    destruct (is_IOError (exn_class_of e)) eqn:He; [left | right];
      exists e; repeat split; try assumption; reflexivity.
  - left. split; [reflexivity |].
    rewrite (log_analytics_appends data w Hd), Hd. reflexivity.
Qed.

Lemma log_analytics_trace (data : value) (w : world) :
  exists evs,
    trace (snd (log_analytics data w)) = (trace w ++ evs)%list
    /\ api_key (snd (log_analytics data w)) = api_key w
    /\ (forall u p, ~ In (Post u p) evs)
    /\ post_count evs = 0%nat.
Proof.
  destruct (log_analytics_world data w)
    as [[_ ->] | [(e & _ & _ & ->) | (e & _ & _ & ->)]]; cbn [snd].
  - exists []. cbn [trace api_key]. rewrite app_nil_r.
    repeat split; try reflexivity. intros u p [].
  - eexists [_]. unfold with_event. cbn [trace api_key].
    repeat split; try reflexivity. intros u p [H | []]. discriminate H.
  - exists []. rewrite app_nil_r. repeat split; try reflexivity. intros u p [].
Qed.

Lemma post_count_app (xs ys : list event) :
  post_count (xs ++ ys) = (post_count xs + post_count ys)%nat.
Proof. unfold post_count. rewrite filter_app, length_app. reflexivity. Qed.

Lemma log_each_trace (ds : list value) (w : world) :
  exists evs,
    trace (log_each ds w) = (trace w ++ evs)%list
    /\ api_key (log_each ds w) = api_key w
    /\ (forall u p, ~ In (Post u p) evs)
    /\ post_count evs = 0%nat.
Proof.
  revert w. induction ds as [| d ds IH]; intros w; cbn [log_each fold_left].
  - exists []. rewrite app_nil_r. repeat split; try reflexivity. intros u p [].
  - destruct (log_analytics_trace d w) as (e1 & Ht1 & Hk1 & Hn1 & Hc1).
    destruct (IH (snd (log_analytics d w))) as (e2 & Ht2 & Hk2 & Hn2 & Hc2).
    exists (e1 ++ e2)%list. unfold log_each in *.
    rewrite Ht2, Ht1, Hk2, Hk1, app_assoc, post_count_app, Hc1, Hc2.
    repeat split; try reflexivity.
    intros u p Hin. apply in_app_or in Hin. destruct Hin as [H | H].
    + exact (Hn1 u p H).
    + exact (Hn2 u p H).
Qed.

(** The buttons do not end the run when the file can be appended to or
    refuses with an error of the I/O kind. *)
Lemma log_analytics_returns (data : value) (w : world) :
  (forall e, deny_append (disk w) = Some e -> is_IOError (exn_class_of e) = true) ->
  fst (log_analytics data w) = Ret tt
  /\ deny_append (disk (snd (log_analytics data w))) = deny_append (disk w).
Proof.
  intros Hio.
  destruct (log_analytics_world data w)
    as [[_ ->] | [(e & _ & _ & ->) | (e & Hd & He & _)]]; cbn [fst snd].
  - split; reflexivity.
  - split; reflexivity.
  - rewrite (Hio e Hd) in He. discriminate He.
Qed.

Lemma feedback_returns (ws : widgets) (prompt : string) (v t : value) (b : session) :
  (forall e, deny_append (disk (the_world b)) = Some e ->
             is_IOError (exn_class_of e) = true) ->
  fst (feedback ws prompt v t b) = Ret tt.
Proof.
  intros Hio.
  unfold feedback, bind, display, in_world, ret. cbn [the_world session_messages screen].
  destruct (helpful ws), (not_helpful ws); cbn [the_world session_messages screen].
  - match goal with |- context [log_analytics ?d (the_world b)] =>
      destruct (log_analytics_returns d (the_world b) Hio) as [Hr Hd];
      destruct (log_analytics d (the_world b)) as [r1 w1]
    end.
    cbn [fst snd] in Hr, Hd. subst r1. cbn [the_world session_messages screen].
    rewrite <- Hd in Hio.
    match goal with |- context [log_analytics ?d w1] =>
      destruct (log_analytics_returns d w1 Hio) as [Hr2 _];
      destruct (log_analytics d w1) as [r2 w2]
    end.
    cbn [fst] in Hr2. subst r2. reflexivity.
  - match goal with |- context [log_analytics ?d (the_world b)] =>
      destruct (log_analytics_returns d (the_world b) Hio) as [Hr Hd];
      destruct (log_analytics d (the_world b)) as [r1 w1]
    end.
    cbn [fst] in Hr. subst r1. reflexivity.
  - match goal with |- context [log_analytics ?d (the_world b)] =>
      destruct (log_analytics_returns d (the_world b) Hio) as [Hr Hd];
      destruct (log_analytics d (the_world b)) as [r1 w1]
    end.
    cbn [fst] in Hr. subst r1. reflexivity.
  - reflexivity.
Qed.

(** The state after a turn, up to what the buttons did. *)
Lemma turn_frame (ws : widgets) (prompt : string) (b : session) :
  exists v w1 t w2 ds,
    get_gemini_response prompt (the_world b) = (Ret v, w1)
    /\ classify_topic prompt w1 = (Ret t, w2)
    /\ the_world (snd (turn ws prompt b)) = log_each ds w2
    /\ (helpful ws = false -> not_helpful ws = false -> ds = [])
    /\ ((forall e, deny_append (disk w2) = Some e ->
                   is_IOError (exn_class_of e) = true) ->
        fst (turn ws prompt b) = Ret tt
        /\ history (snd (turn ws prompt b))
           = (history b ++ [Message "user" (VStr prompt); Message "assistant" v])%list).
Proof.
  destruct (chat_returns prompt (the_world b)) as (v & w1 & Hchat).
  destruct (classify_returns prompt w1) as (t & w2 & Hclass).
  exists v, w1, (VStr t), w2.
  rewrite (turn_spec ws prompt b v (VStr t) w1 w2 Hchat Hclass).
  set (c := Session w2 _ _).
  destruct (truthy v).
  - destruct (feedback_frame ws prompt v (VStr t) c) as (ds & Hw & Hm & Hnone).
    exists ds. repeat split; try assumption.
    + destruct (feedback ws prompt v (VStr t) c) as [[[] | e] c'];
        cbn [snd] in Hw |- *; exact Hw.
    + pose proof (feedback_returns ws prompt v (VStr t) c H) as Hr.
      destruct (feedback ws prompt v (VStr t) c) as [[[] | e] c'];
        [reflexivity | discriminate Hr].
    + pose proof (feedback_returns ws prompt v (VStr t) c H) as Hr.
      destruct (feedback ws prompt v (VStr t) c) as [[[] | e] c'];
        [| discriminate Hr].
      cbn [snd] in Hm. unfold append_message, history.
      cbn [snd session_messages]. rewrite Hm. subst c. cbn [session_messages].
      rewrite <- app_assoc. reflexivity.
  - exists []. unfold ret, append_message. cbn [snd fst the_world session_messages].
    repeat split; try assumption; try reflexivity.
    unfold history. subst c. cbn [session_messages].
    rewrite <- app_assoc. reflexivity.
Qed.

Lemma calls_disk (prompt : string) (w w1 w2 : world) (v t : value) :
  get_gemini_response prompt w = (Ret v, w1) ->
  classify_topic prompt w1 = (Ret t, w2) ->
  disk w2 = disk w.
Proof.
  intros Hchat Hclass.
  destruct (chat_world_frame prompt w) as (e1 & _ & _ & Hd1 & _).
  destruct (classify_world_frame prompt w1) as (e2 & _ & _ & Hd2 & _).
  rewrite Hchat in Hd1. rewrite Hclass in Hd2. cbn [snd] in Hd1, Hd2.
  rewrite Hd2. exact Hd1.
Qed.

Lemma calls_trace (prompt : string) (w w1 w2 : world) (v t : value) :
  get_gemini_response prompt w = (Ret v, w1) ->
  classify_topic prompt w1 = (Ret t, w2) ->
  exists evs,
    trace w2 = (trace w ++ evs)%list
    /\ (post_count evs <= 10)%nat
    /\ posts_to (API_URL ++ "?key=" ++ api_key w) evs.
Proof.
  intros Hchat Hclass.
  destruct (chat_world_frame prompt w) as (e1 & Ht1 & Hk1 & _ & Hc1 & Hp1).
  destruct (classify_world_frame prompt w1) as (e2 & Ht2 & _ & _ & Hc2 & Hp2).
  rewrite Hchat in Ht1, Hk1. rewrite Hclass in Ht2. cbn [snd] in Ht1, Hk1, Ht2.
  rewrite Hk1 in Hp2.
  exists (e1 ++ e2)%list. rewrite Ht2, Ht1, app_assoc, post_count_app.
  repeat split; [lia |].
  intros u p Hin. apply in_app_or in Hin. destruct Hin as [H | H].
  - exact (Hp1 u p H).
  - exact (Hp2 u p H).
Qed.

(** Where a run can leave the world. *)
Lemma script_world (ws : widgets) (a : session) :
  (secret ws = None \/ secret ws = Some "")
  /\ the_world (snd (script ws a))
     = with_event (the_world a) (StError missing_key_message)
  \/ exists key,
       secret ws = Some key
       /\ (the_world (snd (script ws a)) = keyed key (the_world a)
           \/ exists prompt v w1 t w2 ds,
                get_gemini_response prompt (keyed key (the_world a)) = (Ret v, w1)
                /\ classify_topic prompt w1 = (Ret t, w2)
                /\ the_world (snd (script ws a)) = log_each ds w2
                /\ (helpful ws = false -> not_helpful ws = false -> ds = [])).
Proof.
  destruct (secret ws) as [key |] eqn:Hs.
  - destruct (truthy (VStr key)) eqn:Hk.
    + right. exists key. split; [reflexivity |].
      rewrite (script_with_key ws a key Hs Hk).
      set (a0 := Session (keyed key (the_world a)) (session_messages a) (screen a)).
      destruct (get_analytics_dashboard_data (the_world a0)) as [[s | e] w'] eqn:Hd.
      * rewrite (page_returns ws a0 s w' Hd).
        destruct (chat_input ws) as [prompt |]; [| left; reflexivity].
        destruct (truthy (VStr prompt)); [| left; reflexivity].
        right.
        match goal with |- context [turn ws prompt ?b] =>
          destruct (turn_frame ws prompt b) as (v & w1 & t & w2 & ds & H1 & H2 & H3 & H4 & _)
        end.
        exists prompt, v, w1, t, w2, ds. auto.
      * rewrite (page_raises ws a0 e w' Hd). left. reflexivity.
    + left. assert (key = "") as ->.
      { cbn in Hk. destruct (String.eqb_spec key ""); [assumption | discriminate]. }
      split; [right; reflexivity |].
      unfold script. rewrite Hs. reflexivity.
  - left. split; [left; reflexivity |]. unfold script. rewrite Hs. reflexivity.
Qed.

Lemma string_app_nil_r (s : string) : s ++ "" = s.
Proof. induction s as [| c s IH]; cbn; [| rewrite IH]; reflexivity. Qed.

Lemma then_append_world (m : message) (r : outcome unit * session) :
  the_world (snd (match r with
                  | (Ret _, c) => append_message m c
                  | (Raise e, c) => (Raise e, c)
                  end))
  = the_world (snd r).
Proof. destruct r as [[[] | e] c]; reflexivity. Qed.

(** One button pressed, on a file that can be appended to. *)
Lemma feedback_one (ws : widgets) (prompt : string) (v t : value) (b : session) :
  deny_append (disk (the_world b)) = None ->
  helpful ws = negb (not_helpful ws) ->
  log_content (the_world (snd (feedback ws prompt v t b)))
  = log_content (the_world b)
      ++ json_dumps (feedback_record (strftime ws 0) prompt v t
                                     (if helpful ws then "positive" else "negative"))
      ++ nl.
Proof.
  intros Hd Hone.
  unfold feedback, bind, display, in_world, ret. cbn [the_world session_messages screen].
  destruct (helpful ws), (not_helpful ws); try discriminate Hone;
    cbn [the_world session_messages screen];
    rewrite (log_analytics_appends _ (the_world b) Hd); reflexivity.
Qed.

(** X27. In a run with a key in which the chat input returns a non-empty
    prompt, the sidebar can be filled, and the log can be appended to or
    refuses with an error of the I/O kind, the run ends normally and the
    history grows by exactly two messages: the prompt under the role user,
    then what [get_gemini_response] returned for it under the role
    assistant. *)
Theorem script_turn_extends_history
        (ws : widgets) (a : session) (key prompt : string) (s : summary) (w' : world) :
  secret ws = Some key ->
  truthy (VStr key) = true ->
  chat_input ws = Some prompt ->
  truthy (VStr prompt) = true ->
  get_analytics_dashboard_data (keyed key (the_world a)) = (Ret s, w') ->
  (forall e, deny_append (disk (the_world a)) = Some e ->
             is_IOError (exn_class_of e) = true) ->
  exists v w1,
    get_gemini_response prompt (keyed key (the_world a)) = (Ret v, w1)
    /\ fst (script ws a) = Ret tt
    /\ history (snd (script ws a))
       = (history a ++ [Message "user" (VStr prompt); Message "assistant" v])%list.
Proof.
  intros Hs Hk Hc Hp Hd Hio. rewrite (script_with_key ws a key Hs Hk).
  rewrite (page_returns ws (Session (keyed key (the_world a)) (session_messages a)
                                    (screen a)) s w' Hd).
  rewrite Hc, Hp.
  match goal with |- context [turn ws prompt ?b] =>
    destruct (turn_frame ws prompt b)
      as (v & w1 & t & w2 & ds & H1 & H2 & _ & _ & Hret)
  end.
  cbn [the_world] in H1.
  exists v, w1. split; [exact H1 |].
  apply Hret. intros e He. apply Hio.
  rewrite (calls_disk prompt _ w1 w2 v t H1 H2) in He. exact He.
Qed.

Lemma script_turn_extends_history_witness :
  exists v w1,
    get_gemini_response "hi" (keyed "k" (answering "Hello")) = (Ret v, w1)
    /\ fst (script (asking "k" "hi" true false) (fresh_app (answering "Hello")))
       = Ret tt
    /\ history (snd (script (asking "k" "hi" true false)
                            (fresh_app (answering "Hello"))))
       = ([] ++ [Message "user" (VStr "hi"); Message "assistant" v])%list.
Proof.
  apply (script_turn_extends_history
           (asking "k" "hi" true false) (fresh_app (answering "Hello"))
           "k" "hi" zero_summary (keyed "k" (answering "Hello")));
    try reflexivity.
  intros e He. discriminate He.
Defined.

(** X28. In a run with a key in which the chat input returns a non-empty
    prompt, exactly one of the two buttons returns true, the sidebar can be
    filled and the log can be appended to: when the answer is truthy, the
    log grows by one line, the record with the time, the prompt, the
    answer, the topic [classify_topic] returned and the rating of the
    button; when the answer is falsy (the empty string, say), the buttons
    are not reached and the log stays as it is. *)
Theorem script_feedback_logged
        (ws : widgets) (a : session) (key prompt : string) (s : summary) (w' : world) :
  secret ws = Some key ->
  truthy (VStr key) = true ->
  chat_input ws = Some prompt ->
  truthy (VStr prompt) = true ->
  get_analytics_dashboard_data (keyed key (the_world a)) = (Ret s, w') ->
  deny_append (disk (the_world a)) = None ->
  helpful ws = negb (not_helpful ws) ->
  exists v w1 t w2,
    get_gemini_response prompt (keyed key (the_world a)) = (Ret v, w1)
    /\ classify_topic prompt w1 = (Ret t, w2)
    /\ log_content (the_world (snd (script ws a)))
       = log_content (the_world a)
           ++ (if truthy v
               then json_dumps
                      (feedback_record (strftime ws 0) prompt v t
                                       (if helpful ws then "positive" else "negative"))
                      ++ nl
               else "").
Proof.
  intros Hs Hk Hc Hp Hd Happ Hone. rewrite (script_with_key ws a key Hs Hk).
  rewrite (page_returns ws (Session (keyed key (the_world a)) (session_messages a)
                                    (screen a)) s w' Hd).
  rewrite Hc, Hp. cbn [the_world].
  destruct (chat_returns prompt (keyed key (the_world a))) as (v & w1 & Hchat).
  destruct (classify_returns prompt w1) as (t & w2 & Hclass).
  exists v, w1, (VStr t), w2. split; [exact Hchat |]. split; [exact Hclass |].
  match goal with |- context [turn ws prompt ?b] =>
    rewrite (turn_spec ws prompt b v (VStr t) w1 w2 Hchat Hclass)
  end.
  rewrite then_append_world.
  assert (Hdisk : disk w2 = disk (the_world a)).
  { exact (calls_disk prompt (keyed key (the_world a)) w1 w2 v (VStr t) Hchat Hclass). }
  assert (Hlog : log_content w2 = log_content (the_world a)).
  { unfold log_content. rewrite Hdisk. reflexivity. }
  destruct (truthy v).
  - rewrite feedback_one; cbn [the_world]; [| rewrite Hdisk; exact Happ | exact Hone].
    rewrite Hlog. reflexivity.
  - unfold ret. cbn [snd the_world]. rewrite Hlog, string_app_nil_r. reflexivity.
Qed.

Lemma script_feedback_logged_witness :
  exists v w1 t w2,
    get_gemini_response "hi" (keyed "k" (answering "Hello")) = (Ret v, w1)
    /\ classify_topic "hi" w1 = (Ret t, w2)
    /\ log_content (the_world (snd (script (asking "k" "hi" false true)
                                           (fresh_app (answering "Hello")))))
       = log_content (answering "Hello")
           ++ (if truthy v
               then json_dumps
                      (feedback_record "2024-01-01 00:00:00" "hi" v t
                                       (if helpful (asking "k" "hi" false true)
                                        then "positive" else "negative"))
                      ++ nl
               else "").
Proof.
  apply (script_feedback_logged
           (asking "k" "hi" false true) (fresh_app (answering "Hello"))
           "k" "hi" zero_summary (keyed "k" (answering "Hello")));
    reflexivity.
Defined.

(** X29. A run in which neither button returns true leaves the files as
    they are, whatever else happens in it: with or without a key, with or
    without a prompt, whatever the remote end answers, and also when the
    run ends with an exception. *)
Theorem script_writes_only_on_feedback (ws : widgets) (a : session) :
  helpful ws = false ->
  not_helpful ws = false ->
  disk (the_world (snd (script ws a))) = disk (the_world a).
Proof.
  intros Hup Hdown.
  destruct (script_world ws a)
    as [[_ ->] | (key & _ & [-> | (p & v & w1 & t & w2 & ds & H1 & H2 & -> & Hds)])].
  - reflexivity.
  - reflexivity.
  - rewrite (Hds Hup Hdown). cbn [log_each fold_left].
    exact (calls_disk p (keyed key (the_world a)) w1 w2 v t H1 H2).
Qed.

Lemma script_writes_only_on_feedback_witness :
  disk (the_world (snd (script (asking "k" "hi" false false)
                               (fresh_app (answering "Hello")))))
  = disk (answering "Hello").
Proof.
  apply (script_writes_only_on_feedback
           (asking "k" "hi" false false) (fresh_app (answering "Hello")));
    reflexivity.
Defined.

(** X30. Whatever the widgets return and whatever the remote end does, a
    run only adds to the trace, makes at most ten POSTs, and sends each of
    them to the API URL with the key read from the secrets. *)
Theorem script_requests_bounded (ws : widgets) (a : session) :
  exists evs,
    trace (the_world (snd (script ws a))) = (trace (the_world a) ++ evs)%list
    /\ (post_count evs <= 10)%nat
    /\ forall u p, In (Post u p) evs ->
                   exists key, secret ws = Some key
                               /\ u = API_URL ++ "?key=" ++ key.
Proof.
  destruct (script_world ws a)
    as [[_ ->] | (key & Hs & [-> | (q & v & w1 & t & w2 & ds & H1 & H2 & -> & _)])].
  - eexists [_]. unfold with_event. cbn [trace]. repeat split.
    + cbn. lia.
    + intros u p [H | []]. discriminate H.
  - exists []. cbn [keyed trace]. rewrite app_nil_r. repeat split.
    + cbn. lia.
    + intros u p [].
  - destruct (calls_trace q (keyed key (the_world a)) w1 w2 v t H1 H2)
      as (e1 & Ht1 & Hc1 & Hp1).
    destruct (log_each_trace ds w2) as (e2 & Ht2 & _ & Hn2 & Hc2).
    exists (e1 ++ e2)%list. rewrite Ht2, Ht1, post_count_app, Hc2.
    cbn [keyed trace api_key] in *. rewrite app_assoc.
    repeat split; [lia |].
    intros u p Hin. apply in_app_or in Hin. destruct Hin as [H | H].
    + exists key. split; [exact Hs | exact (Hp1 u p H)].
    + destruct (Hn2 u p H).
Qed.
